(** * goldwarden: the credential store, the sync engine and the push channel

    A shallow embedding of four parts of the agent and the properties
    proved of them:
    - package config (the encrypted credential store and its lock state
      machine): [DefaultConfig], [Unlock], [VerifyPin], [Lock], [Purge],
      [UpdatePin], the accessors of the secret fields, [encryptString],
      [decryptString], [WriteConfig], [ReadConfig] and [TryUnlock];
    - package bitwarden, sync.go: [Sync] and [DoFullSync];
    - package bitwarden, the push channel: [RunWebsocketDaemon],
      [connectToWebsocket] with its reader loop, [websocketMessageType] and
      [parseMessageTypeFromMessagePack];
    - package actions, ssh.go: [handleAddSSH], [handleListSSH] and
      [handleImportSSH].

    A method on [*Config] is a computation over a world that holds the
    store, the file system, the pin cache, the notifications shown and the
    random source; it returns, panics or blocks on the mutex. What lies
    outside the repository is either modelled from its documented behaviour
    (encoding/hex, encoding/base64, strings.ReplaceAll, the
    ChaCha20-Poly1305 wrapper of tink) or taken as a parameter with the
    laws the code relies on (argon2, SHA-3, the AEAD, JSON, the HTTP layer,
    the MessagePack decoder, the operating system, the socket, the prompt
    for the PIN, the account keys, the message layer). Packages vault and
    models, the guarded buffer and the PIN cache, which belong to the
    repository but are not among the sources, are modelled from the
    specification.

    The file has the model first, then the vocabulary of the statements and
    a reference environment to run the model in, then the proofs. *)

From Stdlib Require Import ZArith NArith List String Ascii Lia Bool.
From Stdlib.Strings Require Import Byte.
From stdpp Require Import base gmap strings list option.

Local Open Scope N_scope.

(** * Go values: byte slices and strings *)

(** A Go string is a sequence of bytes, as a [string] here is; [[]byte(s)]
    and [string(b)] are the two conversions below. *)
Abbreviation bytes := (list byte).

Definition byte_of_N (n : N) : byte :=
  match Byte.of_N (n mod 256) with
  | Some b => b
  | None => x00
  end.

Lemma byte_to_N_inj (x y : byte) : Byte.to_N x = Byte.to_N y -> x = y.
Proof.
  intros E. pose proof (Byte.of_to_N x) as Hx. pose proof (Byte.of_to_N y) as Hy.
  congruence.
Qed.

#[global] Instance byte_eq_dec : EqDecision byte.
Proof.
  intros x y. destruct (decide (Byte.to_N x = Byte.to_N y)) as [E | E].
  - left. now apply byte_to_N_inj.
  - right. congruence.
Defined.

Definition string_of_bytes (b : bytes) : string := string_of_list_byte b.
Definition bytes_of_string (s : string) : bytes := list_byte_of_string s.

(** * encoding/hex *)
Module hex.

Definition hextable : list ascii := list_ascii_of_string "0123456789abcdef".

Definition digit (n : N) : ascii := nth (N.to_nat n) hextable "0"%char.

(** [hex.EncodeToString]: two lower-case digits per byte,
    [hextable[v>>4]] then [hextable[v&0x0f]]. *)
Fixpoint encode (src : bytes) : list ascii :=
  match src with
  | [] => []
  | v :: rest =>
      digit (N.shiftr (Byte.to_N v) 4) :: digit (N.land (Byte.to_N v) 15) :: encode rest
  end.

Definition EncodeToString (src : bytes) : string := string_of_list_ascii (encode src).

End hex.

(** * encoding/base64, [StdEncoding] *)
Module base64.

Definition encodeStd : list ascii :=
  list_ascii_of_string "ABCDEFGHIJKLMNOPQRSTUVWXYZabcdefghijklmnopqrstuvwxyz0123456789+/".

Definition padChar : ascii := "="%char.

(** [enc.encode[i]] *)
Definition enc6 (i : N) : ascii := nth (N.to_nat i) encodeStd padChar.

(** Position of [c] in the alphabet; the decode map is built from it. *)
Fixpoint index_of (c : ascii) (l : list ascii) (i : N) : option N :=
  match l with
  | [] => None
  | x :: rest => if Ascii.eqb c x then Some i else index_of c rest (N.succ i)
  end.

(** [enc.decodeMap[c]], [None] standing for the invalid marker 0xFF. *)
Definition dec6 (c : ascii) : option N := index_of c encodeStd 0.

(** The 24-bit group value of [Encode]'s main loop. *)
Definition val3 (a b c : byte) : N :=
  N.lor (N.lor (N.shiftl (Byte.to_N a) 16) (N.shiftl (Byte.to_N b) 8)) (Byte.to_N c).

Definition sextet (val : N) (shift : N) : ascii := enc6 (N.land (N.shiftr val shift) 63).

Fixpoint encode (src : bytes) : list ascii :=
  match src with
  | a :: b :: c :: rest =>
      let val := val3 a b c in
      sextet val 18 :: sextet val 12 :: sextet val 6 :: sextet val 0 :: encode rest
  | [a; b] =>
      let val := N.lor (N.shiftl (Byte.to_N a) 16) (N.shiftl (Byte.to_N b) 8) in
      [sextet val 18; sextet val 12; sextet val 6; padChar]
  | [a] =>
      let val := N.shiftl (Byte.to_N a) 16 in
      [sextet val 18; sextet val 12; padChar; padChar]
  | [] => []
  end.

Definition EncodeToString (src : bytes) : string := string_of_list_ascii (encode src).

(** The decoder skips carriage returns and line feeds wherever they stand. *)
Definition is_newline (c : ascii) : bool :=
  Ascii.eqb c "010"%char || Ascii.eqb c "013"%char.

(** The value of a decoded quantum, [dbuf[0]<<18 | dbuf[1]<<12 | dbuf[2]<<6 | dbuf[3]]. *)
Definition val4 (i0 i1 i2 i3 : N) : N :=
  N.lor (N.lor (N.lor (N.shiftl i0 18) (N.shiftl i1 12)) (N.shiftl i2 6)) i3.

Definition out_byte (val : N) (shift : N) : byte := byte_of_N (N.shiftr val shift).

(** One quantum after another. Padding is accepted only in the last quantum,
    at its third and fourth place or at its fourth place alone; any other
    character outside the alphabet, and an input that stops inside a quantum,
    is a [CorruptInputError]. *)
Fixpoint decode (src : list ascii) : option bytes :=
  match src with
  | [] => Some []
  | [c0; c1; p2; p3] =>
      match dec6 c0, dec6 c1 with
      | Some i0, Some i1 =>
          match dec6 p2, dec6 p3 with
          | Some i2, Some i3 =>
              let val := val4 i0 i1 i2 i3 in
              Some [out_byte val 16; out_byte val 8; out_byte val 0]
          | Some i2, None =>
              if Ascii.eqb p3 padChar
              then let val := val4 i0 i1 i2 0 in Some [out_byte val 16; out_byte val 8]
              else None
          | None, _ =>
              if Ascii.eqb p2 padChar && Ascii.eqb p3 padChar
              then let val := val4 i0 i1 0 0 in Some [out_byte val 16]
              else None
          end
      | _, _ => None
      end
  | c0 :: c1 :: c2 :: c3 :: rest =>
      match dec6 c0, dec6 c1, dec6 c2, dec6 c3 with
      | Some i0, Some i1, Some i2, Some i3 =>
          let val := val4 i0 i1 i2 i3 in
          match decode rest with
          | Some out => Some (out_byte val 16 :: out_byte val 8 :: out_byte val 0 :: out)
          | None => None
          end
      | _, _, _, _ => None
      end
  | _ => None
  end.

Definition DecodeString (s : string) : option bytes :=
  decode (List.filter (fun c => negb (is_newline c)) (list_ascii_of_string s)).

End base64.


(** * Results of Go functions *)

(** The error values the modelled code produces or passes on. *)
Inductive error : Type :=
| ErrConfigLocked         (* errors.New("config is locked") *)
| ErrCorruptInput         (* base64.CorruptInputError *)
| ErrBadKeyLength         (* chacha20poly1305: bad key length *)
| ErrCiphertextTooShort   (* chacha20poly1305: ciphertext too short *)
| ErrMessageAuthentication (* the AEAD refused to open the ciphertext *)
| ErrJSON                 (* encoding/json failed *)
| ErrIO.                  (* the operating system refused a file operation *)

(** A Go result [(T, error)]: the value when the error is nil, else the error
    (the value returned beside a non-nil error is the zero value). *)
Inductive result (A : Type) : Type :=
| Ok (a : A)
| Err (e : error).
Arguments Ok {A} a.
Arguments Err {A} e.

Definition is_Ok {A} (r : result A) : bool :=
  match r with Ok _ => true | Err _ => false end.

(** * External primitives *)

Record LoginToken := {
  AccessToken : string;
  ExpiresIn : Z;
  TokenType : string;
  RefreshToken : string;
  Key : string
}.

(** The cryptographic and serialisation primitives the store calls, with the
    facts about them that the store relies on: [argon2.Key] returns [keyLen]
    bytes, [sha3.Sum256] returns 32 bytes, and the ChaCha20-Poly1305 AEAD of
    golang.org/x/crypto adds a 16-byte tag and opens what it sealed. *)
Class Primitives := {
  argon2_Key : bytes -> bytes -> N -> N -> N -> N -> bytes;
  argon2_Key_length :
    forall password salt time memory threads keyLen,
      length (argon2_Key password salt time memory threads keyLen) = N.to_nat keyLen;
  sha3_Sum256 : bytes -> bytes;
  sha3_Sum256_length : forall data, length (sha3_Sum256 data) = 32%nat;
  aead_Seal : bytes -> bytes -> bytes -> bytes -> bytes;
  aead_Open : bytes -> bytes -> bytes -> bytes -> option bytes;
  aead_Seal_length :
    forall key nonce plaintext ad,
      length (aead_Seal key nonce plaintext ad) = (length plaintext + 16)%nat;
  aead_Open_Seal :
    forall key nonce plaintext ad,
      length key = 32%nat -> length nonce = 12%nat ->
      aead_Open key nonce (aead_Seal key nonce plaintext ad) ad = Some plaintext;
  json_Marshal_LoginToken : LoginToken -> result string;
  json_Unmarshal_LoginToken : string -> result LoginToken
}.

(** * tink-go aead/subtle: the ChaCha20-Poly1305 wrapper *)
Module subtle.
Section with_primitives.
Context {P : Primitives}.

Definition KeySize : nat := 32.
Definition NonceSize : nat := 12.
Definition TagSize : nat := 16.

Record ChaCha20Poly1305 := { Key : bytes }.

Definition NewChaCha20Poly1305 (key : bytes) : result ChaCha20Poly1305 :=
  if Nat.eqb (length key) KeySize then Ok {| Key := key |} else Err ErrBadKeyLength.

(** [Encrypt]: a fresh nonce [n] (drawn by the caller from the random source),
    then [append(n, Seal(n, plaintext, associatedData)...)]. *)
Definition Encrypt (ca : ChaCha20Poly1305) (n : bytes) (plaintext associatedData : bytes)
  : result bytes :=
  Ok (n ++ aead_Seal (Key ca) n plaintext associatedData).

(** [Decrypt]: refuses what is shorter than nonce and tag, then opens
    [ciphertext[NonceSize:]] under the nonce [ciphertext[:NonceSize]]. *)
Definition Decrypt (ca : ChaCha20Poly1305) (ciphertext associatedData : bytes)
  : result bytes :=
  if Nat.ltb (length ciphertext) (NonceSize + TagSize) then Err ErrCiphertextTooShort
  else
    match aead_Open (Key ca) (firstn NonceSize ciphertext)
                    (skipn NonceSize ciphertext) associatedData with
    | Some pt => Ok pt
    | None => Err ErrMessageAuthentication
    end.

End with_primitives.
End subtle.

(** [crypto/subtle.ConstantTimeCompare]: 1 when the slices are equal, else 0. *)
Definition ConstantTimeCompare (x y : bytes) : Z :=
  if bool_decide (x = y) then 1%Z else 0%Z.

(** * package config *)
Module config.

Definition KDFIterations : N := 2.
Definition KDFMemory : N := 2 * 1024 * 1024.
Definition KDFThreads : N := 8.

Record RuntimeConfig := {
  AuthMethod : string;
  DoNotPersistConfig : bool;
  ConfigDirectory : string;
  DisableSSHAgent : bool;
  WebsocketDisabled : bool;
  rt_DeviceUUID : string;
  User : string;
  Password : string;
  Pin : string;
  UseMemguard : bool;
  SSHAgentSocketPath : string;
  GoldwardenSocketPath : string;
  DaemonAuthToken : string
}.

Definition RuntimeConfig_zero : RuntimeConfig :=
  {| AuthMethod := ""; DoNotPersistConfig := false; ConfigDirectory := "";
     DisableSSHAgent := false; WebsocketDisabled := false; rt_DeviceUUID := "";
     User := ""; Password := ""; Pin := ""; UseMemguard := false;
     SSHAgentSocketPath := ""; GoldwardenSocketPath := ""; DaemonAuthToken := "" |}.

Record ConfigFile := {
  IdentityUrl : string;
  ApiUrl : string;
  NotificationsUrl : string;
  VaultUrl : string;
  EncryptedClientID : string;
  EncryptedClientSecret : string;
  DeviceUUID : string;
  ConfigKeyHash : string;
  EncryptedToken : string;
  EncryptedUserSymmetricKey : string;
  EncryptedMasterPasswordHash : string;
  EncryptedMasterKey : string;
  RuntimeConfig_ : RuntimeConfig
}.

(** Modelled from the spec: the guarded buffer (type [LockedBuffer] with
    [NewBuffer], [NewBufferFromBytes], [Bytes] and [Wipe]) is not among the
    sources. The spec has it as a fixed-size byte buffer holding key
    material, zeroable on demand, optionally backed by a hardened allocator. *)
Record LockedBuffer := { contents : bytes; hardened : bool }.

Definition NewBuffer (size : nat) (useMemguard : bool) : LockedBuffer :=
  {| contents := repeat x00 size; hardened := useMemguard |}.

Definition NewBufferFromBytes (b : bytes) (useMemguard : bool) : LockedBuffer :=
  {| contents := b; hardened := useMemguard |}.

Definition Bytes (b : LockedBuffer) : bytes := contents b.

Definition Wipe (b : LockedBuffer) : LockedBuffer :=
  {| contents := repeat x00 (length (contents b)); hardened := hardened b |}.

(** [Config]; [mu] is [true] while the mutex is held. *)
Record Config := {
  useMemguard : bool;
  key : LockedBuffer;
  ConfigFile_ : ConfigFile;
  mu : bool
}.

(** The six encrypted secret fields of [ConfigFile], in the order in which
    [UpdatePin] goes through them. *)
Inductive Field : Type :=
| FToken | FUserSymmetricKey | FMasterPasswordHash | FMasterKey | FClientID | FClientSecret.

Definition all_fields : list Field :=
  [FToken; FUserSymmetricKey; FMasterPasswordHash; FMasterKey; FClientID; FClientSecret].

Definition get_field (f : Field) (cf : ConfigFile) : string :=
  match f with
  | FToken => EncryptedToken cf
  | FUserSymmetricKey => EncryptedUserSymmetricKey cf
  | FMasterPasswordHash => EncryptedMasterPasswordHash cf
  | FMasterKey => EncryptedMasterKey cf
  | FClientID => EncryptedClientID cf
  | FClientSecret => EncryptedClientSecret cf
  end.

Definition set_field (f : Field) (v : string) (cf : ConfigFile) : ConfigFile :=
  {| IdentityUrl := IdentityUrl cf;
     ApiUrl := ApiUrl cf;
     NotificationsUrl := NotificationsUrl cf;
     VaultUrl := VaultUrl cf;
     EncryptedClientID := if f is FClientID then v else EncryptedClientID cf;
     EncryptedClientSecret := if f is FClientSecret then v else EncryptedClientSecret cf;
     DeviceUUID := DeviceUUID cf;
     ConfigKeyHash := ConfigKeyHash cf;
     EncryptedToken := if f is FToken then v else EncryptedToken cf;
     EncryptedUserSymmetricKey :=
       if f is FUserSymmetricKey then v else EncryptedUserSymmetricKey cf;
     EncryptedMasterPasswordHash :=
       if f is FMasterPasswordHash then v else EncryptedMasterPasswordHash cf;
     EncryptedMasterKey := if f is FMasterKey then v else EncryptedMasterKey cf;
     RuntimeConfig_ := RuntimeConfig_ cf |}.

Definition set_ConfigKeyHash (v : string) (cf : ConfigFile) : ConfigFile :=
  {| IdentityUrl := IdentityUrl cf;
     ApiUrl := ApiUrl cf;
     NotificationsUrl := NotificationsUrl cf;
     VaultUrl := VaultUrl cf;
     EncryptedClientID := EncryptedClientID cf;
     EncryptedClientSecret := EncryptedClientSecret cf;
     DeviceUUID := DeviceUUID cf;
     ConfigKeyHash := v;
     EncryptedToken := EncryptedToken cf;
     EncryptedUserSymmetricKey := EncryptedUserSymmetricKey cf;
     EncryptedMasterPasswordHash := EncryptedMasterPasswordHash cf;
     EncryptedMasterKey := EncryptedMasterKey cf;
     RuntimeConfig_ := RuntimeConfig_ cf |}.

Definition with_key (k : LockedBuffer) (c : Config) : Config :=
  {| useMemguard := useMemguard c; key := k; ConfigFile_ := ConfigFile_ c; mu := mu c |}.

Definition with_ConfigFile (cf : ConfigFile) (c : Config) : Config :=
  {| useMemguard := useMemguard c; key := key c; ConfigFile_ := cf; mu := mu c |}.

Definition with_mu (b : bool) (c : Config) : Config :=
  {| useMemguard := useMemguard c; key := key c; ConfigFile_ := ConfigFile_ c; mu := b |}.

(** ** The world a [Config] method runs in *)

(** The configuration file on disk. A file holds the [ConfigFile] that
    [json.Marshal] wrote, that is, without the [RuntimeConfig] (tagged
    [json:"-"]). The file system either accepts every write or refuses every
    one ([writable]). *)
Record FileSystem := {
  files : gmap string ConfigFile;
  writable : bool
}.

Record Notification := { title : string; body : string }.

Record World := {
  cfg : Config;                       (* the receiver [c *Config] *)
  fs : FileSystem;
  pin_cache : option bytes;           (* package pincache *)
  notifications : list Notification;  (* what package notify was asked to show *)
  random : nat -> byte;               (* the system's random source ... *)
  random_pos : nat                    (* ... and how much of it was read *)
}.

Definition with_cfg (c : Config) (w : World) : World :=
  {| cfg := c; fs := fs w; pin_cache := pin_cache w; notifications := notifications w;
     random := random w; random_pos := random_pos w |}.

Definition with_fs (f : FileSystem) (w : World) : World :=
  {| cfg := cfg w; fs := f; pin_cache := pin_cache w; notifications := notifications w;
     random := random w; random_pos := random_pos w |}.

Definition with_pin_cache (p : option bytes) (w : World) : World :=
  {| cfg := cfg w; fs := fs w; pin_cache := p; notifications := notifications w;
     random := random w; random_pos := random_pos w |}.

Definition with_notifications (n : list Notification) (w : World) : World :=
  {| cfg := cfg w; fs := fs w; pin_cache := pin_cache w; notifications := n;
     random := random w; random_pos := random_pos w |}.

Definition with_random_pos (n : nat) (w : World) : World :=
  {| cfg := cfg w; fs := fs w; pin_cache := pin_cache w; notifications := notifications w;
     random := random w; random_pos := n |}.

(** How a call ends: it returns, it panics (a run-time panic or a fatal
    error of the Go runtime), or it blocks for ever on a mutex that nobody
    will release. *)
Inductive Outcome (A : Type) : Type :=
| Returns (a : A) (w : World)
| Panics (reason : string)
| Blocks.
Arguments Returns {A} a w.
Arguments Panics {A} reason.
Arguments Blocks {A}.

Definition M (A : Type) : Type := World -> Outcome A.

Definition ret {A} (a : A) : M A := fun w => Returns a w.

Definition bind {A B} (m : M A) (k : A -> M B) : M B :=
  fun w =>
    match m w with
    | Returns a w' => k a w'
    | Panics r => Panics r
    | Blocks => Blocks
    end.

Notation "'do' x <- m ; k" := (bind m (fun x => k))
  (at level 10, x name, m at level 100, k at level 200).
Notation "m ;; k" := (bind m (fun _ => k))
  (at level 100, k at level 200, right associativity).

Definition get_cfg : M Config := fun w => Returns (cfg w) w.
Definition put_cfg (c : Config) : M unit := fun w => Returns tt (with_cfg c w).
Definition modify_cfg (f : Config -> Config) : M unit :=
  fun w => Returns tt (with_cfg (f (cfg w)) w).

(** [c.mu.Lock()] *)
Definition mu_Lock : M unit :=
  fun w => if mu (cfg w) then Blocks else Returns tt (with_cfg (with_mu true (cfg w)) w).

(** [c.mu.Unlock()]; unlocking a mutex that is not held is a fatal error. *)
Definition mu_Unlock : M unit :=
  fun w =>
    if mu (cfg w) then Returns tt (with_cfg (with_mu false (cfg w)) w)
    else Panics "sync: unlock of unlocked mutex".

(** [notify.Notify(title, body, ...)] *)
Definition Notify (t b : string) : M unit :=
  fun w => Returns tt (with_notifications (notifications w ++ [{| title := t; body := b |}]) w).

(** [pincache.SetPin(useMemguard, pin)] *)
Definition SetPin (pin : bytes) : M unit :=
  fun w => Returns tt (with_pin_cache (Some pin) w).

(** [random.GetRandomBytes(n)]: the next [n] bytes of the random source. *)
Definition GetRandomBytes (n : nat) : M bytes :=
  fun w => Returns (map (random w) (seq (random_pos w) n)) (with_random_pos (random_pos w + n) w).

Section with_primitives.
Context {P : Primitives}.

Definition DefaultConfig (useMemguard : bool) (deviceUUID : string) : Config :=
  let keyBuffer := NewBuffer 32 useMemguard in
  {| useMemguard := useMemguard;
     key := keyBuffer;
     ConfigFile_ :=
       {| IdentityUrl := "https://identity.bitwarden.com";
          ApiUrl := "https://api.bitwarden.com";
          NotificationsUrl := "https://notifications.bitwarden.com";
          VaultUrl := "https://vault.bitwarden.com";
          EncryptedClientID := "";
          EncryptedClientSecret := "";
          DeviceUUID := deviceUUID;
          ConfigKeyHash := "";
          EncryptedToken := "";
          EncryptedUserSymmetricKey := "";
          EncryptedMasterPasswordHash := "";
          EncryptedMasterKey := "";
          RuntimeConfig_ := RuntimeConfig_zero |};
     mu := false |}.

Definition HasPin (c : Config) : bool :=
  negb (String.eqb (ConfigKeyHash (ConfigFile_ c)) "").

Definition IsLocked (c : Config) : bool :=
  let key := Bytes (key c) in
  bool_decide (key = repeat x00 32) && HasPin c.

Definition IsLoggedIn (c : Config) : bool :=
  negb (String.eqb (EncryptedMasterPasswordHash (ConfigFile_ c)) "").

(** The key [argon2.Key] derives from a password for this store, and the
    hexadecimal SHA3-256 digest under which the store remembers it. *)
Definition deriveKey (c : Config) (password : string) : bytes :=
  argon2_Key (bytes_of_string password) (bytes_of_string (DeviceUUID (ConfigFile_ c)))
             KDFIterations KDFMemory KDFThreads 32.

Definition keyDigest (key : bytes) : string :=
  let keyHash := sha3_Sum256 key in
  hex.EncodeToString keyHash.

Definition Unlock (password : string) : M bool :=
  mu_Lock ;;
  do c <- get_cfg;
  if negb (IsLocked c) then mu_Unlock ;; ret true
  else
    let key := deriveKey c password in
    let configKeyHash := keyDigest key in
    if negb (Z.eqb (ConstantTimeCompare (bytes_of_string configKeyHash)
                      (bytes_of_string (ConfigKeyHash (ConfigFile_ c)))) 1)
    then mu_Unlock ;; ret false
    else
      let keyBuffer := NewBufferFromBytes key (useMemguard c) in
      modify_cfg (with_key keyBuffer) ;;
      Notify "Goldwarden" "Vault Unlocked" ;;
      SetPin (bytes_of_string password) ;;
      mu_Unlock ;; ret true.


Definition Lock : M unit :=
  mu_Lock ;;
  do c <- get_cfg;
  if IsLocked c then mu_Unlock
  else
    modify_cfg (fun c => with_key (Wipe (key c)) c) ;;
    Notify "Goldwarden" "Vault Locked" ;;
    mu_Unlock.

Definition Purge : M unit :=
  mu_Lock ;;
  modify_cfg (fun c =>
    let cf := ConfigFile_ c in
    let cf := set_field FMasterPasswordHash "" cf in
    let cf := set_field FToken "" cf in
    let cf := set_field FUserSymmetricKey "" cf in
    let cf := set_field FClientID "" cf in
    let cf := set_field FClientSecret "" cf in
    let cf := set_ConfigKeyHash "" cf in
    let cf := set_field FMasterKey "" cf in
    with_key (NewBuffer 32 (useMemguard c)) (with_ConfigFile cf c)) ;;
  mu_Unlock.

Definition encryptString (data : string) : M (result string) :=
  do c <- get_cfg;
  if IsLocked c then ret (Err ErrConfigLocked)
  else
    match subtle.NewChaCha20Poly1305 (Bytes (key c)) with
    | Err e => ret (Err e)
    | Ok ca =>
        do n <- GetRandomBytes subtle.NonceSize;
        match subtle.Encrypt ca n (bytes_of_string data) [] with
        | Err e => ret (Err e)
        | Ok result => ret (Ok (base64.EncodeToString result))
        end
    end.

Definition decryptString (c : Config) (data : string) : result string :=
  if IsLocked c then Err ErrConfigLocked
  else
    match base64.DecodeString data with
    | None => Err ErrCorruptInput
    | Some decoded =>
        match subtle.NewChaCha20Poly1305 (Bytes (key c)) with
        | Err e => Err e
        | Ok ca =>
            match subtle.Decrypt ca decoded [] with
            | Err e => Err e
            | Ok result => Ok (string_of_bytes result)
            end
        end
    end.

(** ** Writing the record to disk *)

(** What [json.Marshal(config.ConfigFile)] keeps: every field but the
    [RuntimeConfig]. *)
Definition persisted (cf : ConfigFile) : ConfigFile :=
  {| IdentityUrl := IdentityUrl cf;
     ApiUrl := ApiUrl cf;
     NotificationsUrl := NotificationsUrl cf;
     VaultUrl := VaultUrl cf;
     EncryptedClientID := EncryptedClientID cf;
     EncryptedClientSecret := EncryptedClientSecret cf;
     DeviceUUID := DeviceUUID cf;
     ConfigKeyHash := ConfigKeyHash cf;
     EncryptedToken := EncryptedToken cf;
     EncryptedUserSymmetricKey := EncryptedUserSymmetricKey cf;
     EncryptedMasterPasswordHash := EncryptedMasterPasswordHash cf;
     EncryptedMasterKey := EncryptedMasterKey cf;
     RuntimeConfig_ := RuntimeConfig_zero |}.

(** [os.Remove(path)], its error ignored. *)
Definition os_Remove (path : string) : M unit :=
  fun w =>
    if writable (fs w)
    then Returns tt (with_fs {| files := delete path (files (fs w)); writable := true |} w)
    else Returns tt w.

(** Creating the parent directory when it is missing, opening the file and
    writing the document: [true] when all of it went through. *)
Definition os_WriteFile (path : string) (doc : ConfigFile) : M bool :=
  fun w =>
    if writable (fs w)
    then Returns true (with_fs {| files := <[path := doc]> (files (fs w)); writable := true |} w)
    else Returns false w.

Definition WriteConfig : M (option error) :=
  do config <- get_cfg;
  if DoNotPersistConfig (RuntimeConfig_ (ConfigFile_ config)) then ret None
  else
    mu_Lock ;;
    let jsonBytes := persisted (ConfigFile_ config) in
    let path := ConfigDirectory (RuntimeConfig_ (ConfigFile_ config)) in
    os_Remove path ;;
    (* parentDirectory := path[:len(path)-len("/goldwarden.json")] *)
    if Nat.ltb (String.length path) (String.length "/goldwarden.json")
    then (fun _ => Panics "slice bounds out of range")
    else
      do written <- os_WriteFile path jsonBytes;
      mu_Unlock ;;
      ret (if written : bool then None else Some ErrIO).

(** ** Changing the PIN *)

Definition set_cfg_field (f : Field) (v : string) : M unit :=
  modify_cfg (fun c => with_ConfigFile (set_field f v (ConfigFile_ c)) c).

(** The second half of [UpdatePin]: one block per field, in the order of
    [all_fields]. A field whose decryption gave no error is encrypted again
    and assigned; were that encryption to fail, the assignment stores the
    empty string beside the error and [UpdatePin] returns on the spot
    ([false] here). A field whose decryption failed is passed over. *)
Fixpoint reencrypt (plaintexts : list (Field * result string)) : M bool :=
  match plaintexts with
  | [] => ret true
  | (f, Ok plaintext) :: rest =>
      do r <- encryptString plaintext;
      match r with
      | Ok encrypted => set_cfg_field f encrypted ;; reencrypt rest
      | Err _ => set_cfg_field f "" ;; ret false
      end
  | (_, Err _) :: rest => reencrypt rest
  end.

Definition UpdatePin (password : string) (write : bool) : M unit :=
  mu_Lock ;;
  do c <- get_cfg;
  let newKey := deriveKey c password in
  let configKeyHash := keyDigest newKey in
  modify_cfg (fun c => with_ConfigFile (set_ConfigKeyHash configKeyHash (ConfigFile_ c)) c) ;;
  do c <- get_cfg;
  let plaintexts :=
    map (fun f => (f, decryptString c (get_field f (ConfigFile_ c)))) all_fields in
  let key := NewBufferFromBytes newKey (useMemguard c) in
  modify_cfg (with_key key) ;;
  do completed <- reencrypt plaintexts;
  if negb completed then ret tt
  else
    mu_Unlock ;;
    do err <- (if write then WriteConfig else ret None);
    match err with
    | Some _ => ret tt
    | None => SetPin (bytes_of_string password)
    end.

(** ** Accessors of the secret fields *)

Definition LoginToken_zero : LoginToken :=
  {| AccessToken := ""; ExpiresIn := 0; TokenType := ""; RefreshToken := ""; Key := "" |}.

Definition GetToken (c : Config) : result LoginToken :=
  if IsLocked c then Err ErrConfigLocked
  else
    match decryptString c (EncryptedToken (ConfigFile_ c)) with
    | Err e => Err e
    | Ok tokenJson => json_Unmarshal_LoginToken tokenJson
    end.

Definition SetToken (token : LoginToken) : M (option error) :=
  do c <- get_cfg;
  if IsLocked c then ret (Some ErrConfigLocked)
  else
    match json_Marshal_LoginToken token with
    | Err _ => ret (Some ErrJSON)
    | Ok tokenJson =>
        do r <- encryptString tokenJson;
        match r with
        | Err e => ret (Some e)
        | Ok encryptedToken => set_cfg_field FToken encryptedToken ;; WriteConfig
        end
    end.

Definition GetClientID (c : Config) : result string :=
  if IsLocked c then Err ErrConfigLocked
  else if String.eqb (EncryptedClientID (ConfigFile_ c)) "" then Ok ""
  else
    match decryptString c (EncryptedClientID (ConfigFile_ c)) with
    | Err e => Err e
    | Ok decrypted => Ok decrypted
    end.

Definition SetClientID (clientID : string) : M (option error) :=
  do c <- get_cfg;
  if IsLocked c then ret (Some ErrConfigLocked)
  else if String.eqb clientID "" then set_cfg_field FClientID "" ;; WriteConfig
  else
    do r <- encryptString clientID;
    match r with
    | Err e => ret (Some e)
    | Ok encryptedClientID => set_cfg_field FClientID encryptedClientID ;; WriteConfig
    end.

Definition GetClientSecret (c : Config) : result string :=
  if IsLocked c then Err ErrConfigLocked
  else if String.eqb (EncryptedClientSecret (ConfigFile_ c)) "" then Ok ""
  else
    match decryptString c (EncryptedClientSecret (ConfigFile_ c)) with
    | Err e => Err e
    | Ok decrypted => Ok decrypted
    end.

Definition SetClientSecret (clientSecret : string) : M (option error) :=
  do c <- get_cfg;
  if IsLocked c then ret (Some ErrConfigLocked)
  else if String.eqb clientSecret "" then set_cfg_field FClientSecret "" ;; WriteConfig
  else
    do r <- encryptString clientSecret;
    match r with
    | Err e => ret (Some e)
    | Ok encryptedClientSecret =>
        set_cfg_field FClientSecret encryptedClientSecret ;; WriteConfig
    end.

Definition GetUserSymmetricKey (c : Config) : result bytes :=
  if IsLocked c then Err ErrConfigLocked
  else
    match decryptString c (EncryptedUserSymmetricKey (ConfigFile_ c)) with
    | Err e => Err e
    | Ok decrypted => Ok (bytes_of_string decrypted)
    end.

Definition SetUserSymmetricKey (key : bytes) : M (option error) :=
  do c <- get_cfg;
  if IsLocked c then ret (Some ErrConfigLocked)
  else
    do r <- encryptString (string_of_bytes key);
    match r with
    | Err e => ret (Some e)
    | Ok encryptedKey => set_cfg_field FUserSymmetricKey encryptedKey ;; WriteConfig
    end.

Definition GetMasterPasswordHash (c : Config) : result bytes :=
  if IsLocked c then Err ErrConfigLocked
  else
    match decryptString c (EncryptedMasterPasswordHash (ConfigFile_ c)) with
    | Err e => Err e
    | Ok decrypted => Ok (bytes_of_string decrypted)
    end.

Definition SetMasterPasswordHash (hash : bytes) : M (option error) :=
  do c <- get_cfg;
  if IsLocked c then ret (Some ErrConfigLocked)
  else
    do r <- encryptString (string_of_bytes hash);
    match r with
    | Err e => mu_Unlock ;; ret (Some e)
    | Ok encryptedHash => set_cfg_field FMasterPasswordHash encryptedHash ;; WriteConfig
    end.

Definition GetMasterKey (c : Config) : result bytes :=
  if IsLocked c then Err ErrConfigLocked
  else
    match decryptString c (EncryptedMasterKey (ConfigFile_ c)) with
    | Err e => Err e
    | Ok decrypted => Ok (bytes_of_string decrypted)
    end.

Definition SetMasterKey (key : bytes) : M (option error) :=
  do c <- get_cfg;
  if IsLocked c then ret (Some ErrConfigLocked)
  else
    do r <- encryptString (string_of_bytes key);
    match r with
    | Err e => ret (Some e)
    | Ok encryptedKey => set_cfg_field FMasterKey encryptedKey ;; WriteConfig
    end.

End with_primitives.
End config.

(** * package models *)
Module models.

(** Modelled from the spec: package models (the item and snapshot types)
    is not among the sources. An item carries a remote item id, a
    deleted-timestamp, its type and type-specific fields; the type is a Go
    integer, so an item of the snapshot may be of a type the agent has no
    case for. [DeletedDate] counts from the zero time: 0 is what
    [IsZero] reports as unset. *)
Record Cipher := {
  ID : string;
  Type_ : Z;
  DeletedDate : Z;
  Name : string;
  Data : string
}.

Definition IsZero (t : Z) : bool := Z.eqb t 0.

Record Organization := { org_Id : string; org_Key : string }.

Record Profile := {
  Organizations : list Organization;
  PrivateKey : string
}.

Record SyncData := {
  Profile_ : Profile;
  Ciphers : list Cipher
}.

Record AuthRequestData := {
  RequestIpAddress : string;
  RequestDeviceType : string
}.

End models.

(** * package vault *)
Module vault.
Import models.

(** Modelled from the spec: package vault is not among the sources.
    VaultState is the in-memory collection of vault items (login, secure
    note, SSH key) keyed by item id; the id is the primary key, re-adding an
    id overwrites in place, removing an id that is absent is not an error,
    and clearing leaves no item. It also holds the last-synced timestamp and
    whether the push channel is connected. *)
Inductive VaultItem : Type :=
| Login (c : Cipher)
| SecureNote (c : Cipher)
| SSHKey (c : Cipher).

Record Keyring := { IsMemguard : bool; keyring_locked : bool }.

Record Vault := {
  Keyring_ : Keyring;
  items : gmap string VaultItem;
  lastSynced : Z;
  websocketConnected : bool
}.

Definition with_items (m : gmap string VaultItem) (v : Vault) : Vault :=
  {| Keyring_ := Keyring_ v; items := m; lastSynced := lastSynced v;
     websocketConnected := websocketConnected v |}.

Definition Clear (v : Vault) : Vault := with_items ∅ v.

Definition AddOrUpdateLogin (cipher : Cipher) (v : Vault) : Vault :=
  with_items (<[ID cipher := Login cipher]> (items v)) v.

Definition AddOrUpdateSecureNote (cipher : Cipher) (v : Vault) : Vault :=
  with_items (<[ID cipher := SecureNote cipher]> (items v)) v.

Definition AddOrUpdateSSHKey (cipher : Cipher) (v : Vault) : Vault :=
  with_items (<[ID cipher := SSHKey cipher]> (items v)) v.

Definition DeleteCipher (id : string) (v : Vault) : Vault :=
  with_items (delete id (items v)) v.

Definition SetLastSynced (t : Z) (v : Vault) : Vault :=
  {| Keyring_ := Keyring_ v; items := items v; lastSynced := t;
     websocketConnected := websocketConnected v |}.


End vault.

(** * package msgpack: decoded values *)
Module msgpack.

(** What [Decoder.DecodeInterface] hands back behind an [interface{}]: nil,
    a boolean, an integer of the width the wire format used, a float (its
    bits), a string, a byte slice, a [[]interface{}], a
    [map[string]interface{}] (as an association list from a key to its
    value) or a value of an extension type. *)
Inductive Value : Type :=
| VNil
| VBool (b : bool)
| VInt8 (z : Z) | VInt16 (z : Z) | VInt32 (z : Z) | VInt64 (z : Z)
| VUint8 (z : Z) | VUint16 (z : Z) | VUint32 (z : Z) | VUint64 (z : Z)
| VFloat32 (bits : N) | VFloat64 (bits : N)
| VString (s : string)
| VBytes (b : bytes)
| VSlice (l : list Value)
| VMap (m : list (string * Value))
| VExt (id : Z) (data : bytes).

(** [m[k]] with the comma-ok form: the value and whether the key is there. *)
Fixpoint lookup (k : string) (m : list (string * Value)) : option Value :=
  match m with
  | [] => None
  | (k', v) :: rest => if String.eqb k k' then Some v else lookup k rest
  end.

(** The pair [DecodeSlice] returns: an error, a nil slice with no error, or
    a slice. *)
Inductive SliceResult : Type :=
| DecodeError
| DecodedNil
| Decoded (value : list Value).

End msgpack.

(** * package bitwarden *)
Module bitwarden.
Import models vault msgpack.

(** What this package reaches outside the agent for: the full-sync and
    single-item fetches and the auth-request fetch of the HTTP layer (all
    keyed by the access token of the context), the keyring initialisation of
    package crypto, and the MessagePack decoder. *)
Class Collaborators := {
  http_Sync : string -> string -> result SyncData;
  http_GetCipher : string -> string -> result Cipher;
  http_GetAuthRequest : string -> string -> result AuthRequestData;
  InitKeyringFromUserSymmetricKey :
    Keyring -> bytes -> string -> gmap string string -> result Keyring;
  DecodeSlice : bytes -> SliceResult
}.

(** The item types of package models that this package has cases for;
    they are constants of a [switch], which Go compiles only when they
    differ. *)
Class CipherTypes := {
  CipherLogin : Z;
  CipherNote : Z;
  CipherSSHKey : Z;
  CipherTypes_distinct :
    CipherLogin <> CipherNote /\ CipherLogin <> CipherSSHKey /\ CipherNote <> CipherSSHKey
}.

Section engine.
Context {P : Primitives} {C : Collaborators} {T : CipherTypes}.

(** ** sync.go *)

(** [Sync]: the authenticated GET of [ApiUrl + "/sync"]; [token] is the
    [AuthToken] value of the context. *)
Definition Sync (token : string) (config : config.Config) : result SyncData :=
  http_Sync token (config.ApiUrl (config.ConfigFile_ config) ++ "/sync").

Definition with_Keyring (k : Keyring) (v : Vault) : Vault :=
  {| Keyring_ := k; items := items v; lastSynced := lastSynced v;
     websocketConnected := websocketConnected v |}.

(** The body of the loop over [sync.Ciphers]: a [switch] on the type with
    three cases and no default. *)
Definition addCipher (v : Vault) (cipher : Cipher) : Vault :=
  if Z.eqb (Type_ cipher) CipherLogin then AddOrUpdateLogin cipher v
  else if Z.eqb (Type_ cipher) CipherNote then AddOrUpdateSecureNote cipher v
  else if Z.eqb (Type_ cipher) CipherSSHKey then AddOrUpdateSSHKey cipher v
  else v.

(** The map from organization id to organization key, and the keyring
    after the initialisation that [DoFullSync] asks for when it is given a
    user symmetric key. *)
Definition orgKeys (sync : SyncData) : gmap string string :=
  fold_left (fun m org => <[org_Id org := org_Key org]> m)
            (Organizations (Profile_ sync)) ∅.

Definition initKeyring (userSymmetricKey : option bytes) (keyring : Keyring)
    (sync : SyncData) : result Keyring :=
  match userSymmetricKey with
  | Some k =>
      InitKeyringFromUserSymmetricKey keyring k (PrivateKey (Profile_ sync)) (orgKeys sync)
  | None => Ok keyring
  end.

(** [DoFullSync]; [now] is the reading of [time.Now().Unix()]. The vault is
    returned next to the error. *)
Definition DoFullSync (token : string) (now : Z) (v : Vault) (config : config.Config)
    (userSymmetricKey : option bytes) (allowCache : bool) : option error * Vault :=
  match Sync token config with
  | Err err => (Some err, v)
  | Ok sync =>
      match initKeyring userSymmetricKey (Keyring_ v) sync with
      | Err err => (Some err, v)
      | Ok keyring =>
          let v := with_Keyring keyring v in
          let v := Clear v in
          let v := SetLastSynced now v in
          (None, fold_left addCipher (Ciphers sync) v)
      end
  end.

(** ** The push channel *)

Definition SyncCipherUpdate : Z := 0.
Definition SyncCipherCreate : Z := 1.
Definition SyncLoginDelete : Z := 2.
Definition SyncFolderDelete : Z := 3.
Definition SyncCiphers : Z := 4.
Definition SyncVault : Z := 5.
Definition SyncOrgKeys : Z := 6.
Definition SyncFolderCreate : Z := 7.
Definition SyncFolderUpdate : Z := 8.
Definition SyncCipherDelete : Z := 9.
Definition SyncSettings : Z := 10.
Definition LogOut : Z := 11.
Definition SyncSendCreate : Z := 12.
Definition SyncSendUpdate : Z := 13.
Definition SyncSendDelete : Z := 14.
Definition AuthRequest : Z := 15.
Definition AuthRequestResponse : Z := 16.

(** How a call of the two decoding functions ends: with its three results
    [(int8, string, bool)], or in a run-time panic. *)
Inductive Parse : Type :=
| Parsed (messageType : Z) (cipherid : string) (success : bool)
| ParsePanics (reason : string).

Definition failure : Parse := Parsed 0 "" false.

Definition parseMessageTypeFromMessagePack (messagePack : bytes) : Parse :=
  match DecodeSlice messagePack with
  | DecodeError | DecodedNil => failure
  | Decoded value =>
      if Nat.ltb (length value) 5 then failure
      else
        match nth 4 value VNil with
        | VSlice value =>
            if Nat.ltb (length value) 1 then failure
            else
              match nth 0 value VNil with
              | VMap value1 =>
                  match lookup "Type" value1 with
                  | None => failure
                  | Some (VInt8 messagePayloadType) =>
                      match lookup "Payload" value1 with
                      | Some (VMap payload) =>
                          match lookup "Id" payload with
                          | None => failure
                          | Some (VString id) => Parsed messagePayloadType id true
                          | Some _ =>
                              (* payload["Id"].(string), the one assertion
                                 without the comma-ok form *)
                              ParsePanics "interface conversion: interface {} is not string"
                          end
                      | _ => Parsed messagePayloadType "" true
                      end
                  | Some _ => failure
                  end
              | _ => failure
              end
        | _ => failure
        end
  end.

(** The loop of [websocketMessageType]: one more than the index of the first
    byte whose high bit is clear, 0 when there is none. *)
Fixpoint lenBufferLen (message : bytes) (i : nat) : nat :=
  match message with
  | [] => 0
  | b :: rest =>
      if N.eqb (N.land (Byte.to_N b) 128) 0 then i + 1
      else lenBufferLen rest (i + 1)
  end.

Definition websocketMessageType (message : bytes) : Parse :=
  let lenBufferLen := lenBufferLen message 0 in
  let msgPackMessage := skipn lenBufferLen message in
  parseMessageTypeFromMessagePack msgPackMessage.

(** What one turn of the reader loop leaves behind: the loop goes on to the
    next read, the goroutine returns (the connection is given up), the
    process exits, or the goroutine panics. *)
Inductive Turn : Type :=
| Continue (v : Vault) (shown : list config.Notification)
| Return_ (v : Vault)
| Exit (code : Z)
| Panic (reason : string).

(** The [switch] on the message type, for a frame that decoded with
    success. [token] is the token [connectToWebsocket] read before it
    dialled; [now] is the reading of the clock. *)
Definition dispatch (cfg : config.Config) (token : LoginToken) (now : Z)
    (mt1 : Z) (cipherid : string) (v : Vault) : Turn :=
  if Z.eqb mt1 SyncCiphers || Z.eqb mt1 SyncVault then
    match config.GetToken cfg with
    | Err _ => Continue v []
    | Ok token =>
        match DoFullSync (AccessToken token) now v cfg None false with
        | (Some _, v) => Return_ v
        | (None, v) => Continue v []
        end
    end
  else if Z.eqb mt1 SyncCipherDelete then Continue (DeleteCipher cipherid v) []
  else if Z.eqb mt1 SyncCipherUpdate then
    match config.GetToken cfg with
    | Err _ => Continue v []
    | Ok token =>
        match http_GetCipher (AccessToken token) cipherid with
        | Err _ => Continue v []
        | Ok cipher =>
            if negb (IsZero (DeletedDate cipher)) then Continue (DeleteCipher cipherid v) []
            else
              let v :=
                if Z.eqb (Type_ cipher) CipherNote then AddOrUpdateSecureNote cipher v
                else AddOrUpdateLogin cipher v in
              Continue (SetLastSynced now v) []
        end
    end
  else if Z.eqb mt1 SyncCipherCreate then
    match config.GetToken cfg with
    | Err _ => Continue v []
    | Ok token =>
        match http_GetCipher (AccessToken token) cipherid with
        | Err _ => Continue v []
        | Ok cipher =>
            let v :=
              if Z.eqb (Type_ cipher) CipherNote then AddOrUpdateSecureNote cipher v
              else AddOrUpdateLogin cipher v in
            Continue (SetLastSynced now v) []
        end
    end
  else if Z.eqb mt1 SyncSendCreate || Z.eqb mt1 SyncSendUpdate || Z.eqb mt1 SyncSendDelete
  then Continue v []
  else if Z.eqb mt1 LogOut then Exit 0
  else if Z.eqb mt1 AuthRequest then
    match http_GetAuthRequest (AccessToken token) cipherid with
    | Err _ => Continue v []
    | Ok authRequest =>
        Continue v
          [{| config.title := "Passwordless Login Request";
              config.body := RequestIpAddress authRequest ++ " - "
                             ++ RequestDeviceType authRequest |}]
    end
  else Continue v [].

(** One turn of the reader loop on a message that was read without error. *)
Definition readerTurn (cfg : config.Config) (token : LoginToken) (now : Z)
    (message : bytes) (v : Vault) : Turn :=
  if Nat.ltb (length message) 5 then Continue v []
  else
    match websocketMessageType message with
    | ParsePanics reason => Panic reason
    | Parsed messageType cipherid success =>
        if success then dispatch cfg token now messageType cipherid v
        else Continue v []
    end.

(** How the reader goroutine ends. *)
Inductive ReaderEnd : Type :=
| ReadError (v : Vault) (shown : list config.Notification)
| Returned (v : Vault) (shown : list config.Notification)
| Exited (code : Z)
| Panicked (reason : string).

(** The reader loop over the messages the socket delivers before its first
    read error; [clock n] is the reading of the clock at the [n]-th turn. *)
Fixpoint readerLoop (cfg : config.Config) (token : LoginToken) (clock : nat -> Z)
    (n : nat) (messages : list bytes) (v : Vault) (shown : list config.Notification)
  : ReaderEnd :=
  match messages with
  | [] => ReadError v shown
  | message :: rest =>
      match readerTurn cfg token (clock n) message v with
      | Continue v' more => readerLoop cfg token clock (S n) rest v' (shown ++ more)
      | Return_ v' => Returned v' shown
      | Exit code => Exited code
      | Panic reason => Panicked reason
      end
  end.

End engine.
End bitwarden.

(** * package strings *)
Module strings.

(** The scan of [strings.ReplaceAll(s, old, new)] for a non-empty [old],
    from left to right: where [old] begins, [new] is written and the rest
    of that occurrence is skipped ([skip] counts what is left to skip);
    every other byte is copied. What [new] brings in is not scanned
    again. *)
Fixpoint replace (old new : string) (skip : nat) (s : string) : string :=
  match s with
  | EmptyString => EmptyString
  | String c rest =>
      match skip with
      | S k => replace old new k rest
      | O =>
          if String.prefix old s
          then new ++ replace old new (String.length old - 1) rest
          else String c (replace old new 0 rest)
      end
  end.

Definition ReplaceAll (s old new : string) : string := replace old new 0 s.

End strings.

(** The line feed, Go's ["\n"]. *)
Definition newline : string := String "010" EmptyString.

(** * package config: reading the configuration and unlocking at startup *)
Module startup.
Import config vault.

(** What [os.Stat] tells of a path: it is there ([err == nil]), it is not
    there (an error that [os.IsNotExist] recognises), or another error. *)
Inductive StatResult : Type := Found | NotExist | StatError.

(** The calls of [ReadConfig] that change the disk. *)
Inductive Call : Type :=
| Mkdir (path : string)
| Rename (oldpath newpath : string).

(** What [os.Open] and the JSON decoder make of a path: the file cannot be
    opened, its content is no JSON document for a [ConfigFile], or the
    fields that the document gives. *)
Inductive Opened : Type :=
| OpenError (e : error)
| DecodeFails (e : error)
| Document (fields : ConfigFile).

(** The machine [ReadConfig] runs on. *)
Class Host := {
  os_UserHomeDir : string;
  os_Stat : string -> StatResult;
  os_Mkdir : string -> option error;
  os_Rename : string -> string -> option error;
  os_Open : string -> Opened
}.

(** What [pincache] and [pinentry] answer, package crypto's account keys
    and the keyring's [UnlockWithAccountKey]. *)
Class Unlocking := {
  pincache_GetPin : bytes -> result bytes;
  pinentry_GetPassword : string -> string -> result string;
  SymmetricEncryptionKey : Type;
  MemguardSymmetricEncryptionKeyFromBytes : bytes -> result SymmetricEncryptionKey;
  MemorySymmetricEncryptionKeyFromBytes : bytes -> result SymmetricEncryptionKey;
  UnlockWithAccountKey : Keyring -> SymmetricEncryptionKey -> Keyring
}.

(** The [Config] that [ReadConfig] returns: [Config{}], whose key is a nil
    pointer, or a [Config] with a key buffer. *)
Inductive ConfigValue : Type :=
| ConfigZero
| ConfigWithKey (c : Config).

Record ReadConfigResult := {
  value : ConfigValue;
  err : option error;
  calls : list Call
}.

Definition ConfigFile_zero : ConfigFile :=
  {| IdentityUrl := ""; ApiUrl := ""; NotificationsUrl := ""; VaultUrl := "";
     EncryptedClientID := ""; EncryptedClientSecret := ""; DeviceUUID := "";
     ConfigKeyHash := ""; EncryptedToken := ""; EncryptedUserSymmetricKey := "";
     EncryptedMasterPasswordHash := ""; EncryptedMasterKey := "";
     RuntimeConfig_ := RuntimeConfig_zero |}.

(** [Config{key: &key, ConfigFile: cf}]: the other fields are zero. *)
Definition Config_of (key : LockedBuffer) (cf : ConfigFile) : Config :=
  {| useMemguard := false; key := key; ConfigFile_ := cf; mu := false |}.

Section with_host.
Context {H : Host}.

Definition ReadConfig (rtCfg : RuntimeConfig) : ReadConfigResult :=
  let userHome := os_UserHomeDir in
  let oldPath := strings.ReplaceAll "~/.config/goldwarden.json" "~" userHome in
  let newPathParent := strings.ReplaceAll "~/.config/goldwarden" "~" userHome in
  let newPath := strings.ReplaceAll "~/.config/goldwarden/goldwarden.json" "~" userHome in
  let read :=
    match os_Open (ConfigDirectory rtCfg) with
    | OpenError e =>
        let key := NewBuffer 32 (UseMemguard rtCfg) in
        {| value := ConfigWithKey (Config_of key ConfigFile_zero);
           err := Some e; calls := [] |}
    | DecodeFails e =>
        let key := NewBuffer 32 (UseMemguard rtCfg) in
        {| value := ConfigWithKey (Config_of key ConfigFile_zero);
           err := Some e; calls := [] |}
    | Document fields =>
        (* the decoder fills a zero [ConfigFile]; [RuntimeConfig] is
           tagged [json:"-"] and stays zero *)
        let config := persisted fields in
        let key := NewBuffer 32 (UseMemguard rtCfg) in
        {| value := ConfigWithKey (Config_of key config); err := None; calls := [] |}
    end in
  match os_Stat oldPath with
  | Found =>
      match os_Stat newPath with
      | Found => read
      | _ =>
          match os_Stat newPathParent with
          | NotExist =>
              {| value := ConfigZero; err := os_Mkdir newPathParent;
                 calls := [Mkdir newPathParent] |}
          | _ =>
              {| value := ConfigZero; err := os_Rename oldPath newPath;
                 calls := [Rename oldPath newPath] |}
          end
      end
  | _ => read
  end.

End with_host.

(** The error of [TryUnlock]: [errors.New("invalid PIN")] or an error
    passed on. *)
Inductive unlock_error : Type :=
| ErrInvalidPIN
| ErrPassed (e : error).

(** Modelled from the spec: package pincache is not among the sources. The
    spec has it as a side cache that holds the PIN after an unlock, for a
    silent re-unlock; this reads it: [pincache.HasPin()] and the cached
    bytes. *)
Definition get_pin_cache : M (option bytes) := fun w => Returns (pin_cache w) w.

Section with_unlocking.
Context {P : Primitives} {U : Unlocking}.

Definition TryUnlock (vault : Vault) : M (option unlock_error * Vault) :=
  do cached <- get_pin_cache;
  let pin :=
    match cached with
    | Some stored =>
        match pincache_GetPin stored with
        | Err err => Err err
        | Ok pinBytes => Ok (string_of_bytes pinBytes)
        end
    | None => pinentry_GetPassword "Unlock Goldwarden" "Enter the vault PIN"
    end in
  match pin with
  | Err err => ret (Some (ErrPassed err), vault)
  | Ok pin =>
      do success <- Unlock pin;
      if negb success then ret (Some ErrInvalidPIN, vault)
      else
        do cfg <- get_cfg;
        if IsLoggedIn cfg then
          match GetUserSymmetricKey cfg with
          | Ok userKey =>
              let key :=
                if IsMemguard (Keyring_ vault)
                then MemguardSymmetricEncryptionKeyFromBytes userKey
                else MemorySymmetricEncryptionKeyFromBytes userKey in
              match key with
              | Err err => ret (Some (ErrPassed err), vault)
              | Ok key =>
                  ret (None,
                       bitwarden.with_Keyring
                         (UnlockWithAccountKey (Keyring_ vault) key) vault)
              end
          | Err err => Lock ;; ret (Some (ErrPassed err), vault)
          end
        else ret (None, vault)
  end.

End with_unlocking.
End startup.

(** * package bitwarden: the connection of the push channel *)
Module channel.
Import models vault bitwarden.

(** A connection as [Dial] returns it: what [WriteMessage] answers, and the
    messages [ReadMessage] delivers before its first error. *)
Record Conn := {
  WriteMessage : Z -> bytes -> option error;
  incoming : list bytes
}.

(** [url.Parse], as far as its [Host] and [Path] go, and the dialler. *)
Class Network := {
  url_Parse : string -> result (string * string);
  Dial : string -> result Conn
}.




Section with_network.
Context {P : Primitives} {C : Collaborators} {T : CipherTypes} {N : Network}.




End with_network.
End channel.

(** * package actions: the SSH key requests *)
Module actions.
Import models vault.

(** Modelled from the spec: packages messages and ssh are not among the
    sources (the socket layer and the SSH key protocol are collaborators of
    the core). The payloads are the requests and responses that ssh.go
    names, with the fields it reads or sets. *)
Inductive Payload : Type :=
| CreateSSHKeyRequest (Name : string)
| GetSSHKeysRequest
| ImportSSHKeyRequest (Name Key : string)
| ActionResponse (Success : bool) (Message : string)
| CreateSSHKeyResponse (Digest : string)
| GetSSHKeysResponse (Keys : list string)
| ImportSSHKeyResponse (Success : bool)
| OtherPayload.

(** An SSH key as [vault.GetSSHKeys] lists it. *)
Record SSHKey := { PublicKey : string; Name : string }.

(** What the handlers call: the message layer, [err.Error()], the making
    of an SSH key item, the post of an item to the remote service, and the
    list of the SSH keys of the vault. *)
Class Agent := {
  IPCMessage : Type;
  ParsePayload : IPCMessage -> Payload;
  IPCMessageFromPayload : Payload -> result IPCMessage;
  Error : error -> string;
  NewSSHKeyCipher : string -> Keyring -> result (Cipher * string);
  SSHKeyCipherFromKey : string -> string -> Keyring -> result (Cipher * string);
  http_PostCipher : string -> Cipher -> result Cipher;
  GetSSHKeys : Vault -> list SSHKey
}.

Section with_agent.
Context {P : Primitives} {A : Agent}.

(** How a handler ends: with its two results and the vault, or in the
    panic of the type assertion on the payload. *)
Inductive Handled : Type :=
| Responds (response : result IPCMessage) (v : Vault)
| HandlerPanics (reason : string).

(** The token of [cfg.GetToken()], whose error is only logged: beside an
    error [GetToken] returns [LoginToken{}]. *)
Definition token_or_zero (cfg : config.Config) : LoginToken :=
  match config.GetToken cfg with
  | Ok token => token
  | Err _ => config.LoginToken_zero
  end.

(** The part the two handlers that store a key share: the item is posted
    and, when that went through, what the service returned is upserted as
    a secure note. *)
Definition post (cfg : config.Config) (cipher : Cipher) (v : Vault) : Vault :=
  let token := token_or_zero cfg in
  match http_PostCipher (AccessToken token) cipher with
  | Ok postedCipher => AddOrUpdateSecureNote postedCipher v
  | Err _ => v
  end.

Definition handleAddSSH (msg : IPCMessage) (cfg : config.Config) (v : Vault) : Handled :=
  match ParsePayload msg with
  | CreateSSHKeyRequest name =>
      match NewSSHKeyCipher name (Keyring_ v) with
      | Err err => Responds (IPCMessageFromPayload (ActionResponse false (Error err))) v
      | Ok (cipher, publicKey) =>
          match IPCMessageFromPayload (ActionResponse true "") with
          | Err err => Responds (IPCMessageFromPayload (ActionResponse false (Error err))) v
          | Ok _ =>
              let v := post cfg cipher v in
              Responds
                (IPCMessageFromPayload
                   (CreateSSHKeyResponse
                      (strings.ReplaceAll publicKey newline "" ++ " " ++ name)))
                v
          end
      end
  | _ => HandlerPanics "interface conversion: interface {} is not messages.CreateSSHKeyRequest"
  end.

Definition handleListSSH (msg : IPCMessage) (cfg : config.Config) (v : Vault) : Handled :=
  let keys := GetSSHKeys v in
  let keyStrings :=
    map (fun key => strings.ReplaceAll (PublicKey key ++ " " ++ Name key) newline "") keys in
  Responds (IPCMessageFromPayload (GetSSHKeysResponse keyStrings)) v.

Definition handleImportSSH (msg : IPCMessage) (cfg : config.Config) (v : Vault) : Handled :=
  match ParsePayload msg with
  | ImportSSHKeyRequest name key =>
      match SSHKeyCipherFromKey name key (Keyring_ v) with
      | Err err => Responds (IPCMessageFromPayload (ActionResponse false (Error err))) v
      | Ok (cipher, _) =>
          match IPCMessageFromPayload (ActionResponse true "") with
          | Err err => Responds (IPCMessageFromPayload (ActionResponse false (Error err))) v
          | Ok _ =>
              let v := post cfg cipher v in
              Responds (IPCMessageFromPayload (ImportSSHKeyResponse true)) v
          end
      end
  | _ => HandlerPanics "interface conversion: interface {} is not messages.ImportSSHKeyRequest"
  end.

End with_agent.
End actions.

(** * Vocabulary of the statements

    Names for the values that the theorems below speak of; each is written
    in terms of the model above. *)
Section vocabulary.
Import config.
Context {P : Primitives}.

(** The text [encryptString] produces from a key, a nonce and the data. *)
Definition sealed (k n : bytes) (data : string) : string :=
  base64.EncodeToString (n ++ aead_Seal k n (bytes_of_string data) []).

(** The nonce the next encryption will draw. *)
Definition next_nonce (w : World) : bytes :=
  map (random w) (seq (random_pos w) subtle.NonceSize).

(** The world a successful [Unlock] of a locked store leaves. *)
Definition unlocked_by (password : string) (w : World) : World :=
  let keyBuffer := NewBufferFromBytes (deriveKey (cfg w) password) (useMemguard (cfg w)) in
  with_pin_cache (Some (bytes_of_string password))
    (with_notifications
       (notifications w ++ [{| title := "Goldwarden"; body := "Vault Unlocked" |}])
       (with_cfg (with_key keyBuffer (cfg w)) w)).

(** The error [decryptString] gives for the empty field of an unlocked store. *)
Definition empty_field_error (c : Config) : error :=
  if Nat.eqb (length (Bytes (key c))) 32 then ErrCiphertextTooShort else ErrBadKeyLength.

(** [WriteConfig] can cut the file name off the path, or does not persist
    at all. *)
Definition can_persist (c : Config) : bool :=
  DoNotPersistConfig (RuntimeConfig_ (ConfigFile_ c))
  || negb (Nat.ltb (String.length (ConfigDirectory (RuntimeConfig_ (ConfigFile_ c)))) 16).

(** The store as the decryptions in [UpdatePin] see it: the new hash is in
    place already, the key is still the old one. *)
Definition rehashed (c : Config) (password : string) : Config :=
  with_ConfigFile
    (set_ConfigKeyHash (keyDigest (deriveKey c password)) (ConfigFile_ c)) c.

(** The record and the position in the random source that the second half
    of [UpdatePin] arrives at when every encryption succeeds. *)
Fixpoint reencrypted (k : bytes) (rnd : nat -> byte) (pos : nat)
    (plaintexts : list (Field * result string)) (cf : ConfigFile) : ConfigFile * nat :=
  match plaintexts with
  | [] => (cf, pos)
  | (f, Ok plaintext) :: rest =>
      reencrypted k rnd (pos + subtle.NonceSize) rest
        (set_field f (sealed k (map rnd (seq pos subtle.NonceSize)) plaintext) cf)
  | (_, Err _) :: rest => reencrypted k rnd pos rest cf
  end.

(** The store [UpdatePin] leaves when the derived key is not the all-zero
    key: the new hash, the new key, and every field that decrypted sealed
    again. *)
Definition rekeyed (w : World) (password : string) : Config :=
  let c := cfg w in
  let newKey := deriveKey c password in
  let c1 := with_key (NewBufferFromBytes newKey (useMemguard c)) (rehashed c password) in
  let plaintexts :=
    map (fun f => (f, decryptString (rehashed c password) (get_field f (ConfigFile_ c))))
        all_fields in
  with_ConfigFile
    (fst (reencrypted newKey (random w) (random_pos w) plaintexts (ConfigFile_ c1))) c1.

End vocabulary.

Section sync_vocabulary.
Import models vault bitwarden.
Context {T : CipherTypes}.

(** The item types [DoFullSync] has a case for. *)
Definition supported (cipher : Cipher) : bool :=
  Z.eqb (Type_ cipher) CipherLogin || Z.eqb (Type_ cipher) CipherNote
  || Z.eqb (Type_ cipher) CipherSSHKey.

(** The vault item an upsert stores for a cipher of a supported type. *)
Definition stored_as (cipher : Cipher) : VaultItem :=
  if Z.eqb (Type_ cipher) CipherLogin then Login cipher
  else if Z.eqb (Type_ cipher) CipherNote then SecureNote cipher
  else SSHKey cipher.

(** The items after the loop over the snapshot: the upserts of the
    supported ciphers, in order, on top of what was there. *)
Definition upserted (ciphers : list Cipher) (m : gmap string VaultItem)
  : gmap string VaultItem :=
  fold_left (fun m cipher => <[ID cipher := stored_as cipher]> m)
            (List.filter supported ciphers) m.

End sync_vocabulary.

(** ** Vocabulary for the accessors and the configuration file *)
Section store_vocabulary.
Import config.
Context {P : Primitives}.

(** The path of the configuration file of a store. *)
Definition config_path (c : Config) : string :=
  ConfigDirectory (RuntimeConfig_ (ConfigFile_ c)).

(** The world after the assignment [c.ConfigFile.<field> = v]. *)
Definition assigned (f : Field) (v : string) (w : World) : World :=
  with_cfg (with_ConfigFile (set_field f v (ConfigFile_ (cfg w))) (cfg w)) w.

(** The world after one nonce was drawn from the random source. *)
Definition drawn (w : World) : World :=
  with_random_pos (random_pos w + subtle.NonceSize) w.

(** The world after [WriteConfig] removed the configuration file and wrote
    the record of the store in its place. *)
Definition written (w : World) : World :=
  with_fs
    {| files := <[config_path (cfg w) := persisted (ConfigFile_ (cfg w))]>
                  (delete (config_path (cfg w)) (files (fs w)));
       writable := true |} w.

(** What a [WriteConfig] does on a store that has its mutex free and a path
    it can cut the file name off: nothing when the store is not to be
    persisted, the write when the disk takes it, and an error with the disk
    as it was when it does not. *)
Definition WriteConfig_result (w : World) : Outcome (option error) :=
  if DoNotPersistConfig (RuntimeConfig_ (ConfigFile_ (cfg w))) then Returns None w
  else if writable (fs w) then Returns None (written w)
  else Returns (Some ErrIO) w.

(** The world in which a setter calls [WriteConfig]: a nonce drawn, the
    data sealed under the key of the store and assigned to the field. *)
Definition sealed_into (f : Field) (data : string) (w : World) : World :=
  assigned f (sealed (Bytes (key (cfg w))) (next_nonce w) data) (drawn w).

(** The record on disk is the record in memory, less the runtime
    configuration. *)
Definition on_disk (w : World) : Prop :=
  files (fs w) !! config_path (cfg w) = Some (persisted (ConfigFile_ (cfg w))).

(** The store [Purge] leaves. *)
Definition purged (c : Config) : Config :=
  with_key (NewBuffer 32 (useMemguard c))
    (with_ConfigFile
       {| IdentityUrl := IdentityUrl (ConfigFile_ c);
          ApiUrl := ApiUrl (ConfigFile_ c);
          NotificationsUrl := NotificationsUrl (ConfigFile_ c);
          VaultUrl := VaultUrl (ConfigFile_ c);
          EncryptedClientID := "";
          EncryptedClientSecret := "";
          DeviceUUID := DeviceUUID (ConfigFile_ c);
          ConfigKeyHash := "";
          EncryptedToken := "";
          EncryptedUserSymmetricKey := "";
          EncryptedMasterPasswordHash := "";
          EncryptedMasterKey := "";
          RuntimeConfig_ := RuntimeConfig_ (ConfigFile_ c) |} c).

End store_vocabulary.

Section setter_vocabulary.
Import config.
Context {P : Primitives}.

(** Disk and memory after a setter that returned [e]: with no error, the
    file on disk is the record in memory (or, in a store that is not to be
    persisted, the disk is as it was) and no other file has changed; with
    an error, which is the refusal of the disk, the disk is as it was. *)
Definition in_step (w : World) (e : option error) (w' : World) : Prop :=
  match e with
  | None =>
      if DoNotPersistConfig (RuntimeConfig_ (ConfigFile_ (cfg w))) then fs w' = fs w
      else on_disk w'
           /\ forall path : string,
                path <> config_path (cfg w) -> files (fs w') !! path = files (fs w) !! path
  | Some err => err = ErrIO /\ writable (fs w) = false /\ fs w' = fs w
  end.

(** Nothing of the store but the field [f] differs between [w] and [w']. *)
Definition only_field (f : Field) (w w' : World) : Prop :=
  (forall g : Field, g <> f ->
     get_field g (ConfigFile_ (cfg w')) = get_field g (ConfigFile_ (cfg w)))
  /\ key (cfg w') = key (cfg w)
  /\ ConfigKeyHash (ConfigFile_ (cfg w')) = ConfigKeyHash (ConfigFile_ (cfg w))
  /\ DeviceUUID (ConfigFile_ (cfg w')) = DeviceUUID (ConfigFile_ (cfg w))
  /\ RuntimeConfig_ (ConfigFile_ (cfg w')) = RuntimeConfig_ (ConfigFile_ (cfg w))
  /\ mu (cfg w') = mu (cfg w)
  /\ pin_cache w' = pin_cache w.

(** A computation keeps [I] when every run of it that returns from a world
    with [I] returns to a world with [I]. *)
Definition keeps {A} (I : World -> Prop) (m : M A) : Prop :=
  forall (w : World) (a : A) (w' : World), I w -> m w = Returns a w' -> I w'.

(** The key of the store has 32 bytes. *)
Definition key32 (w : World) : Prop := length (Bytes (key (cfg w))) = 32%nat.

End setter_vocabulary.

Section startup_vocabulary.
Import config vault startup.
Context {P : Primitives} {U : Unlocking}.

(** The PIN [TryUnlock] tries: the cached one when there is one, else the
    one the user enters. *)
Definition pin_tried (w : World) : result string :=
  match pin_cache w with
  | Some stored =>
      match pincache_GetPin stored with
      | Err err => Err err
      | Ok pinBytes => Ok (string_of_bytes pinBytes)
      end
  | None => pinentry_GetPassword "Unlock Goldwarden" "Enter the vault PIN"
  end.

(** The account key package crypto makes of the bytes, for the kind of
    keyring the vault has. *)
Definition account_key (v : Vault) (userKey : bytes) : result SymmetricEncryptionKey :=
  if IsMemguard (Keyring_ v)
  then MemguardSymmetricEncryptionKeyFromBytes userKey
  else MemorySymmetricEncryptionKeyFromBytes userKey.

(** The world [Lock] leaves of a store that was not locked. *)
Definition locked_again (w : World) : World :=
  with_notifications
    (notifications w ++ [{| title := "Goldwarden"; body := "Vault Locked" |}])
    (with_cfg (with_key (Wipe (key (cfg w))) (cfg w)) w).

End startup_vocabulary.

Section text_vocabulary.

(** The bytes of a string, one character each. *)
Definition chars (s : string) : list ascii := list_ascii_of_string s.

(** No line feed in the string. *)
Definition one_line (s : string) : Prop := ~ In "010"%char (chars s).

End text_vocabulary.

Section read_vocabulary.
Import config startup.
Context {H : Host}.

(** The three paths [ReadConfig] works out from the home directory. *)
Definition oldPath : string :=
  strings.ReplaceAll "~/.config/goldwarden.json" "~" os_UserHomeDir.

Definition newPathParent : string :=
  strings.ReplaceAll "~/.config/goldwarden" "~" os_UserHomeDir.

Definition newPath : string :=
  strings.ReplaceAll "~/.config/goldwarden/goldwarden.json" "~" os_UserHomeDir.

(** A configuration at the old path and none at the new one: [ReadConfig]
    migrates. *)
Definition migration_pending : Prop :=
  os_Stat oldPath = Found /\ os_Stat newPath <> Found.

(** The part of [ReadConfig] behind the migration: the file at the
    configured path is opened and decoded. *)
Definition read_file (rtCfg : RuntimeConfig) : ReadConfigResult :=
  match os_Open (ConfigDirectory rtCfg) with
  | OpenError e | DecodeFails e =>
      {| value := ConfigWithKey
                    (Config_of (NewBuffer 32 (UseMemguard rtCfg)) ConfigFile_zero);
         err := Some e; calls := [] |}
  | Document fields =>
      {| value := ConfigWithKey
                    (Config_of (NewBuffer 32 (UseMemguard rtCfg)) (persisted fields));
         err := None; calls := [] |}
  end.

End read_vocabulary.

(** * A reference environment

    Concrete stand-ins for what lies outside the repository, used to run
    the model on concrete inputs: primitives that meet the laws of
    [Primitives] (chosen for computing, not for secrecy), a decoder for the
    part of the MessagePack wire format that push frames use, and canned
    answers of the remote service. *)
Module reference.
Import msgpack.

(** [n] bytes spun out of a seed. *)
Definition stretch (seed : bytes) (n : nat) : bytes :=
  let s := seed ++ [x01] in
  map (fun i => nth (i mod length s) s x00) (seq 0 n).

Lemma stretch_length (seed : bytes) (n : nat) : length (stretch seed n) = n.
Proof. unfold stretch. now rewrite length_map, length_seq. Qed.

Definition argon2_Key (password salt : bytes) (time memory threads keyLen : N) : bytes :=
  stretch (password ++ salt) (N.to_nat keyLen).

Definition sha3_Sum256 (data : bytes) : bytes := stretch data 32.

Definition tag (key nonce ad : bytes) : bytes := stretch (key ++ nonce ++ ad) 16.

Definition aead_Seal (key nonce plaintext ad : bytes) : bytes :=
  plaintext ++ tag key nonce ad.

Definition aead_Open (key nonce ciphertext ad : bytes) : option bytes :=
  let n := (length ciphertext - 16)%nat in
  if Nat.ltb (length ciphertext) 16 then None
  else if bool_decide (skipn n ciphertext = tag key nonce ad)
       then Some (firstn n ciphertext) else None.

Lemma aead_Seal_length (key nonce plaintext ad : bytes) :
  length (aead_Seal key nonce plaintext ad) = (length plaintext + 16)%nat.
Proof. unfold aead_Seal, tag. now rewrite length_app, stretch_length. Qed.

Lemma aead_Open_Seal (key nonce plaintext ad : bytes) :
  length key = 32%nat -> length nonce = 12%nat ->
  aead_Open key nonce (aead_Seal key nonce plaintext ad) ad = Some plaintext.
Proof.
  intros _ _. unfold aead_Open. rewrite aead_Seal_length.
  destruct (Nat.ltb_spec (length plaintext + 16) 16) as [H | _]; [lia |].
  replace (length plaintext + 16 - 16)%nat with (length plaintext) by lia.
  unfold aead_Seal.
  rewrite skipn_app, Nat.sub_diag, skipn_all, skipn_O. cbn [app].
  rewrite bool_decide_eq_true_2 by reflexivity.
  now rewrite firstn_app, Nat.sub_diag, firstn_all, firstn_O, app_nil_r.
Qed.

Definition json_Marshal_LoginToken (t : LoginToken) : result string :=
  Ok (AccessToken t).

Definition json_Unmarshal_LoginToken (s : string) : result LoginToken :=
  Ok {| AccessToken := s; ExpiresIn := 0; TokenType := ""; RefreshToken := ""; Key := "" |}.

Definition primitives : Primitives :=
  Build_Primitives
    argon2_Key
    (fun password salt time memory threads keyLen =>
       stretch_length (password ++ salt) (N.to_nat keyLen))
    sha3_Sum256
    (fun data => stretch_length data 32)
    aead_Seal aead_Open aead_Seal_length aead_Open_Seal
    json_Marshal_LoginToken json_Unmarshal_LoginToken.

(** ** MessagePack, as far as push frames go *)

(** Big-endian unsigned integer. *)
Definition be (bs : bytes) : N := fold_left (fun acc b => acc * 256 + Byte.to_N b) bs 0.

Definition signed (bits : N) (n : N) : Z :=
  if n <? 2 ^ (bits - 1) then Z.of_N n else (Z.of_N n - Z.of_N (2 ^ bits))%Z.

Definition take (n : nat) (bs : bytes) : option (bytes * bytes) :=
  if Nat.ltb (length bs) n then None else Some (firstn n bs, skipn n bs).

(** A number of [width] bytes and what follows it. *)
Definition number (width : nat) (bs : bytes) : option (N * bytes) :=
  match take width bs with
  | Some (digits, rest) => Some (be digits, rest)
  | None => None
  end.

(** [len] bytes of text and what follows them. *)
Definition text (len : N) (bs : bytes) : option (string * bytes) :=
  match take (N.to_nat len) bs with
  | Some (chars, rest) => Some (string_of_bytes chars, rest)
  | None => None
  end.

(** A string (fixstr, str 8 or str 16), as a map key must be. *)
Definition decode_string (bs : bytes) : option (string * bytes) :=
  match bs with
  | [] => None
  | c :: rest =>
      let code := Byte.to_N c in
      if (160 <=? code) && (code <=? 191) then text (code - 160) rest
      else if code =? 217 then
        match number 1 rest with Some (n, rest) => text n rest | None => None end
      else if code =? 218 then
        match number 2 rest with Some (n, rest) => text n rest | None => None end
      else None
  end.

(** One value behind an [interface{}]: integers keep the width of their
    wire format (a fixint is an [int8]), a later duplicate of a map key
    replaces the earlier one. Float, ext and the 32-bit length forms are
    left out (they decode to an error here). *)
Fixpoint decode_value (fuel : nat) (bs : bytes) : option (Value * bytes) :=
  match fuel with
  | O => None
  | S fuel =>
      let values :=
        fix values (n : nat) (bs : bytes) : option (list Value * bytes) :=
          match n with
          | O => Some ([], bs)
          | S n =>
              match decode_value fuel bs with
              | Some (v, bs) =>
                  match values n bs with
                  | Some (vs, bs) => Some (v :: vs, bs)
                  | None => None
                  end
              | None => None
              end
          end in
      let entries :=
        fix entries (n : nat) (bs : bytes) : option (list (string * Value) * bytes) :=
          match n with
          | O => Some ([], bs)
          | S n =>
              match decode_string bs with
              | Some (k, bs) =>
                  match decode_value fuel bs with
                  | Some (v, bs) =>
                      match entries n bs with
                      | Some (es, bs) => Some ((k, v) :: es, bs)
                      | None => None
                      end
                  | None => None
                  end
              | None => None
              end
          end in
      let slice (n : N) (bs : bytes) :=
        match values (N.to_nat n) bs with
        | Some (vs, bs) => Some (VSlice vs, bs)
        | None => None
        end in
      let map_ (n : N) (bs : bytes) :=
        match entries (N.to_nat n) bs with
        | Some (es, bs) => Some (VMap (rev es), bs)
        | None => None
        end in
      let int (wrap : Z -> Value) (width : nat) (bits : N) (bs : bytes) :=
        match number width bs with
        | Some (n, bs) => Some (wrap (signed bits n), bs)
        | None => None
        end in
      let uint (wrap : Z -> Value) (width : nat) (bs : bytes) :=
        match number width bs with
        | Some (n, bs) => Some (wrap (Z.of_N n), bs)
        | None => None
        end in
      match bs with
      | [] => None
      | c :: rest =>
          let code := Byte.to_N c in
          if code <=? 127 then Some (VInt8 (Z.of_N code), rest)
          else if code <=? 143 then map_ (code - 128) rest
          else if code <=? 159 then slice (code - 144) rest
          else if code <=? 191 then
            match text (code - 160) rest with
            | Some (s, bs) => Some (VString s, bs)
            | None => None
            end
          else if code =? 192 then Some (VNil, rest)
          else if code =? 194 then Some (VBool false, rest)
          else if code =? 195 then Some (VBool true, rest)
          else if code =? 196 then
            match number 1 rest with
            | Some (n, bs) =>
                match take (N.to_nat n) bs with
                | Some (b, bs) => Some (VBytes b, bs)
                | None => None
                end
            | None => None
            end
          else if code =? 204 then uint VUint8 1%nat rest
          else if code =? 205 then uint VUint16 2%nat rest
          else if code =? 206 then uint VUint32 4%nat rest
          else if code =? 207 then uint VUint64 8%nat rest
          else if code =? 208 then int VInt8 1%nat 8 rest
          else if code =? 209 then int VInt16 2%nat 16 rest
          else if code =? 210 then int VInt32 4%nat 32 rest
          else if code =? 211 then int VInt64 8%nat 64 rest
          else if (code =? 217) || (code =? 218) then
            match decode_string bs with
            | Some (s, bs) => Some (VString s, bs)
            | None => None
            end
          else if code =? 220 then
            match number 2 rest with Some (n, bs) => slice n bs | None => None end
          else if code =? 222 then
            match number 2 rest with Some (n, bs) => map_ n bs | None => None end
          else if 224 <=? code then Some (VInt8 (Z.of_N code - 256), rest)
          else None
      end
  end.

Fixpoint decode_values (fuel n : nat) (bs : bytes) : option (list Value) :=
  match n with
  | O => Some []
  | S n =>
      match decode_value fuel bs with
      | Some (v, bs) =>
          match decode_values fuel n bs with
          | Some vs => Some (v :: vs)
          | None => None
          end
      | None => None
      end
  end.

(** [Decoder.DecodeSlice]: an array header (or nil), then that many values;
    what follows the array is left unread. *)
Definition DecodeSlice (bs : bytes) : SliceResult :=
  let decoded (n : N) (rest : bytes) :=
    match decode_values (S (length rest)) (N.to_nat n) rest with
    | Some vs => Decoded vs
    | None => DecodeError
    end in
  match bs with
  | [] => DecodeError
  | c :: rest =>
      let code := Byte.to_N c in
      if code =? 192 then DecodedNil
      else if (144 <=? code) && (code <=? 159) then decoded (code - 144) rest
      else if code =? 220 then
        match number 2 rest with Some (n, rest) => decoded n rest | None => DecodeError end
      else DecodeError
  end.

(** ** The remote service and the item types *)

Definition collaborators (sync : result models.SyncData)
    (cipher : string -> result models.Cipher)
    (authRequest : result models.AuthRequestData) : bitwarden.Collaborators :=
  {| bitwarden.http_Sync := fun _ _ => sync;
     bitwarden.http_GetCipher := fun _ id => cipher id;
     bitwarden.http_GetAuthRequest := fun _ _ => authRequest;
     bitwarden.InitKeyringFromUserSymmetricKey := fun keyring _ _ _ => Ok keyring;
     bitwarden.DecodeSlice := DecodeSlice |}.

Lemma cipher_types_distinct : (1 <> 2 /\ 1 <> 5 /\ 2 <> 5)%Z.
Proof. repeat split; discriminate. Qed.

(** Bitwarden's numbering: login 1, secure note 2, card 3, identity 4,
    SSH key 5. *)
Definition cipherTypes : bitwarden.CipherTypes :=
  bitwarden.Build_CipherTypes 1 2 5 cipher_types_distinct.

(** ** A store to run on *)

Definition runtimeConfig : config.RuntimeConfig :=
  {| config.AuthMethod := ""; config.DoNotPersistConfig := false;
     config.ConfigDirectory := "/home/u/.config/goldwarden/goldwarden.json";
     config.DisableSSHAgent := false; config.WebsocketDisabled := false;
     config.rt_DeviceUUID := ""; config.User := ""; config.Password := "";
     config.Pin := ""; config.UseMemguard := false; config.SSHAgentSocketPath := "";
     config.GoldwardenSocketPath := ""; config.DaemonAuthToken := "" |}.

Definition with_RuntimeConfig (rt : config.RuntimeConfig) (c : config.Config)
  : config.Config :=
  let cf := config.ConfigFile_ c in
  config.with_ConfigFile
    {| config.IdentityUrl := config.IdentityUrl cf;
       config.ApiUrl := config.ApiUrl cf;
       config.NotificationsUrl := config.NotificationsUrl cf;
       config.VaultUrl := config.VaultUrl cf;
       config.EncryptedClientID := config.EncryptedClientID cf;
       config.EncryptedClientSecret := config.EncryptedClientSecret cf;
       config.DeviceUUID := config.DeviceUUID cf;
       config.ConfigKeyHash := config.ConfigKeyHash cf;
       config.EncryptedToken := config.EncryptedToken cf;
       config.EncryptedUserSymmetricKey := config.EncryptedUserSymmetricKey cf;
       config.EncryptedMasterPasswordHash := config.EncryptedMasterPasswordHash cf;
       config.EncryptedMasterKey := config.EncryptedMasterKey cf;
       config.RuntimeConfig_ := rt |} c.

(** A world around a store: a writable disk with no file, an empty pin
    cache, no notification, and a random source that repeats eight bytes. *)
Definition world (c : config.Config) : config.World :=
  {| config.cfg := c;
     config.fs := {| config.files := ∅; config.writable := true |};
     config.pin_cache := None;
     config.notifications := [];
     config.random := fun i => nth (i mod 8) [x3c; xa5; x0f; x96; xd2; x4b; xe1; x78] x00;
     config.random_pos := 0 |}.

(** The store of a first run: no PIN, nothing stored. *)
Definition fresh : config.World :=
  world (with_RuntimeConfig runtimeConfig (config.DefaultConfig false "device-1")).

(** The world a computation returns, or the one given when it does not. *)
Definition after {A} (o : config.Outcome A) (w : config.World) : config.World :=
  match o with
  | config.Returns _ w' => w'
  | _ => w
  end.

Definition run {A} (m : config.M A) (w : config.World) : config.World := after (m w) w.

(** The first-run store once a client id was stored in it. *)
Definition fresh_with_client : config.World :=
  run (config.SetClientID (P := primitives) "client-1") fresh.

(** A store with the PIN 1111 and a client id stored under it. *)
Definition pinned : config.World :=
  run (config.SetClientID (P := primitives) "client-1")
      (run (config.UpdatePin (P := primitives) "1111" true) fresh).

(** The same store signed in: a session token stored as well. *)
Definition signedIn : config.World :=
  run (config.SetToken (P := primitives)
         {| AccessToken := "access-1"; ExpiresIn := 3600; TokenType := "Bearer";
            RefreshToken := "refresh-1"; Key := "" |})
      pinned.

(** The same store after [Lock]. *)
Definition locked : config.World := run config.Lock pinned.

(** The same store with a token field that is no ciphertext, as a damaged
    or hand-edited configuration file gives it. *)
Definition damaged : config.World :=
  config.with_cfg
    (config.with_ConfigFile
       (config.set_field config.FToken "!corrupt!" (config.ConfigFile_ (config.cfg pinned)))
       (config.cfg pinned))
    pinned.

(** ** Push frames *)

(** A frame: the length prefix (one byte here), then the MessagePack array
    [[1, {}, nil, "ReceiveMessage", [{"Type": type, "Payload": {"Id": id}}]]],
    the two innermost values given in their encoded form. *)
Definition frame (type id : bytes) : bytes :=
  let body :=
    [x95; x01; x80; xc0; xae] ++ bytes_of_string "ReceiveMessage"
    ++ [x91; x82; xa4] ++ bytes_of_string "Type" ++ type
    ++ [xa7] ++ bytes_of_string "Payload" ++ [x81; xa2] ++ bytes_of_string "Id" ++ id in
  byte_of_N (N.of_nat (length body)) :: body.

(** The id "abc" and the type 9 (cipher-delete), encoded. *)
Definition id_abc : bytes := xa3 :: bytes_of_string "abc".
Definition type_delete : bytes := [x09].

(** A frame whose [Id] is the integer 7 where a string belongs. *)
Definition frame_with_integer_id : bytes := frame [x01] [x07].

Definition offline : bitwarden.Collaborators :=
  collaborators (Err ErrIO) (fun _ => Err ErrIO) (Err ErrIO).

Definition emptyVault : vault.Vault :=
  {| vault.Keyring_ := {| vault.IsMemguard := false; vault.keyring_locked := false |};
     vault.items := ∅; vault.lastSynced := 0; vault.websocketConnected := true |}.

Definition item (id : string) (type deleted : Z) : models.Cipher :=
  {| models.ID := id; models.Type_ := type; models.DeletedDate := deleted;
     models.Name := "item"; models.Data := "" |}.

Definition snapshot (ciphers : list models.Cipher) : models.SyncData :=
  {| models.Profile_ := {| models.Organizations := []; models.PrivateKey := "" |};
     models.Ciphers := ciphers |}.

Definition noToken : LoginToken :=
  {| AccessToken := ""; ExpiresIn := 0; TokenType := ""; RefreshToken := ""; Key := "" |}.

(** The remote service answering the fetch of an id with a login that was
    moved to the trash. *)
Definition trashed : bitwarden.Collaborators :=
  collaborators (Err ErrIO) (fun id => Ok (item id 1 1700000000)) (Err ErrIO).

(** A snapshot of a login, a card (type 3) and an SSH key, and the remote
    service answering the full-sync fetch with it. *)
Definition three_items : models.SyncData :=
  snapshot [item "login-1" 1 0; item "card-1" 3 0; item "key-1" 5 0].

Definition syncing : bitwarden.Collaborators :=
  collaborators (Ok three_items) (fun _ => Err ErrIO) (Err ErrIO).

End reference.

(** * Further stand-ins for the reference environment *)
Module scenes.
Import reference.

(** A machine whose disk is the file system of a world: a path is there
    when the disk has a file under it, nothing fails, and the home
    directory is /home/u. *)
Definition host (disk : config.FileSystem) : startup.Host :=
  {| startup.os_UserHomeDir := "/home/u";
     startup.os_Stat := fun path =>
       match config.files disk !! path with
       | Some _ => startup.Found
       | None => startup.NotExist
       end;
     startup.os_Mkdir := fun _ => None;
     startup.os_Rename := fun _ _ => None;
     startup.os_Open := fun path =>
       match config.files disk !! path with
       | Some doc => startup.Document doc
       | None => startup.OpenError ErrIO
       end |}.

(** A desktop on which the PIN cache reads back what it holds and the user
    enters [entered]; account keys are byte sequences of 64 bytes, and
    unlocking the keyring marks it unlocked. *)
Definition account_key_of (b : bytes) : result bytes :=
  if Nat.eqb (length b) 64 then Ok b else Err ErrBadKeyLength.

Definition unlocking (entered : string) : startup.Unlocking :=
  {| startup.pincache_GetPin := fun stored => Ok stored;
     startup.pinentry_GetPassword := fun _ _ => Ok entered;
     startup.SymmetricEncryptionKey := bytes;
     startup.MemguardSymmetricEncryptionKeyFromBytes := account_key_of;
     startup.MemorySymmetricEncryptionKeyFromBytes := account_key_of;
     startup.UnlockWithAccountKey := fun keyring _ =>
       {| vault.IsMemguard := vault.IsMemguard keyring; vault.keyring_locked := false |} |}.

(** The locked store with nothing in the PIN cache. *)
Definition locked_no_cache : config.World := config.with_pin_cache None locked.

(** The store with the PIN 1111 once a master password hash is stored in
    it (it then counts as logged in), and the same store locked. No user
    symmetric key is stored. *)
Definition loggedIn : config.World :=
  run (config.SetMasterPasswordHash (P := primitives) [x01; x02; x03]) pinned.

Definition loggedIn_locked : config.World := run config.Lock loggedIn.

(** The store [DefaultConfig] constructs, its runtime configuration not
    set. *)
Definition unconfigured : config.World := world (config.DefaultConfig false "device-1").


(** A vault with the three items of the snapshot. *)
Definition filled : vault.Vault :=
  snd (bitwarden.DoFullSync (C := syncing) (T := cipherTypes)
         "access-1" 1700000000 emptyVault (config.cfg signedIn) None false).

(** The token that the reference JSON reads out of the signed-in store. *)
Definition session : LoginToken :=
  {| AccessToken := "access-1"; ExpiresIn := 0; TokenType := ""; RefreshToken := "";
     Key := "" |}.

(** A message layer that carries the payload itself; making a key gives a
    note item and a public key that ends in a line feed; the post is
    refused without an access token. *)
Definition agent (keys : list actions.SSHKey) : actions.Agent :=
  {| actions.IPCMessage := actions.Payload;
     actions.ParsePayload := fun msg => msg;
     actions.IPCMessageFromPayload := fun payload => Ok payload;
     actions.Error := fun _ => "error";
     actions.NewSSHKeyCipher := fun name _ =>
       Ok (item ("key-" ++ name) 2 0, "ssh-ed25519 AAAA" ++ newline)%string;
     actions.SSHKeyCipherFromKey := fun name _ _ =>
       Ok (item ("key-" ++ name) 2 0, "ssh-ed25519 AAAA" ++ newline)%string;
     actions.http_PostCipher := fun token cipher =>
       if String.eqb token "" then Err ErrIO else Ok cipher;
     actions.GetSSHKeys := fun _ => keys |}.

End scenes.
(** * Properties of the library models *)

Section arith.

Lemma N_lor_add (hi lo n : N) :
  lo < 2 ^ n -> hi mod 2 ^ n = 0 -> N.lor hi lo = hi + lo.
Proof.
  intros Hlo Hhi.
  assert (Hand : N.land hi lo = 0).
  { apply N.bits_inj. intros m. rewrite N.land_spec, N.bits_0.
    destruct (N.lt_ge_cases m n) as [Hm | Hm].
    - assert (E : hi = (hi / 2 ^ n) * 2 ^ n).
      { pose proof (N.div_mod hi (2 ^ n)) as D.
        rewrite Hhi, N.add_0_r, N.mul_comm in D. apply D.
        apply N.pow_nonzero. discriminate. }
      rewrite E, N.mul_pow2_bits_low by exact Hm. reflexivity.
    - rewrite <- (N.mod_small lo (2 ^ n)) by exact Hlo.
      rewrite N.mod_pow2_bits_high by exact Hm. apply andb_false_r. }
  rewrite <- N.lxor_lor by exact Hand.
  symmetry. apply N.add_nocarry_lxor. exact Hand.
Qed.

Lemma N_divmod_unique (x d q r : N) :
  r < d -> x = q * d + r -> x / d = q /\ x mod d = r.
Proof.
  intros Hr E. rewrite (N.mul_comm q d) in E. split.
  - symmetry. eapply N.div_unique; eauto.
  - symmetry. eapply N.mod_unique; eauto.
Qed.

Lemma N_split64 (v : N) : v = (v / 64) * 64 + v mod 64 /\ v mod 64 < 64.
Proof.
  split.
  - rewrite N.mul_comm. apply N.div_mod. discriminate.
  - apply N.mod_lt. discriminate.
Qed.

Lemma sextets_sum (v : N) :
  v < 16777216 ->
  (v / 262144 mod 64) * 262144 + (v / 4096 mod 64) * 4096
    + (v / 64 mod 64) * 64 + v mod 64 = v.
Proof.
  intros Hv.
  change 262144 with (64 * 64 * 64). change 4096 with (64 * 64).
  rewrite <- !N.Div0.div_div.
  destruct (N_split64 v) as [E0 B0].
  destruct (N_split64 (v / 64)) as [E1 B1].
  destruct (N_split64 (v / 64 / 64)) as [E2 B2].
  destruct (N_split64 (v / 64 / 64 / 64)) as [E3 B3].
  generalize dependent (v mod 64). generalize dependent (v / 64 mod 64).
  generalize dependent (v / 64 / 64 mod 64).
  generalize dependent (v / 64 / 64 / 64 mod 64).
  generalize dependent (v / 64 / 64 / 64 / 64).
  generalize dependent (v / 64 / 64 / 64).
  generalize dependent (v / 64 / 64).
  generalize dependent (v / 64).
  intros. lia.
Qed.

End arith.

Lemma byte_of_N_to_N (b : byte) : byte_of_N (Byte.to_N b) = b.
Proof.
  unfold byte_of_N. rewrite N.mod_small.
  - now rewrite Byte.of_to_N.
  - pose proof (Byte.to_N_bounded b). lia.
Qed.

Lemma byte_of_N_mod (n : N) : byte_of_N (n mod 256) = byte_of_N n.
Proof. unfold byte_of_N. now rewrite N.Div0.mod_mod. Qed.

Module base64_facts.
Import base64.

Definition idx (val shift : N) : N := N.land (N.shiftr val shift) 63.

Lemma idx_spec (val shift : N) : idx val shift = val / 2 ^ shift mod 64.
Proof.
  unfold idx. change 63 with (N.ones 6).
  now rewrite N.land_ones, N.shiftr_div_pow2.
Qed.

Lemma idx_lt (val shift : N) : idx val shift < 64.
Proof. rewrite idx_spec. apply N.mod_lt. discriminate. Qed.

Definition alphabet_ok (i : N) : bool :=
  match dec6 (enc6 i) with
  | Some j => N.eqb i j && negb (is_newline (enc6 i))
  | None => false
  end.

Lemma alphabet_table :
  forallb alphabet_ok (map N.of_nat (seq 0 64)) = true.
Proof. vm_compute. reflexivity. Qed.

Lemma alphabet_ok_lt (i : N) : i < 64 -> alphabet_ok i = true.
Proof.
  intros Hi. pose proof alphabet_table as T.
  rewrite forallb_forall in T. apply T.
  apply in_map_iff. exists (N.to_nat i). split; [apply N2Nat.id |].
  apply in_seq. lia.
Qed.

Lemma dec6_enc6 (i : N) : i < 64 -> dec6 (enc6 i) = Some i.
Proof.
  intros Hi. pose proof (alphabet_ok_lt i Hi) as T. unfold alphabet_ok in T.
  destruct (dec6 (enc6 i)) as [j |]; [| discriminate].
  apply andb_prop in T. destruct T as [T _].
  apply N.eqb_eq in T. now subst.
Qed.

Lemma enc6_not_newline (i : N) : i < 64 -> is_newline (enc6 i) = false.
Proof.
  intros Hi. pose proof (alphabet_ok_lt i Hi) as T. unfold alphabet_ok in T.
  destruct (dec6 (enc6 i)) as [j |]; [| discriminate].
  apply andb_prop in T. destruct T as [_ T].
  now apply negb_true_iff in T.
Qed.

Lemma dec6_sextet (val shift : N) : dec6 (sextet val shift) = Some (idx val shift).
Proof. apply dec6_enc6, idx_lt. Qed.

Lemma sextet_not_newline (val shift : N) : is_newline (sextet val shift) = false.
Proof. apply enc6_not_newline, idx_lt. Qed.

Lemma val4_sum (i0 i1 i2 i3 : N) :
  i0 < 64 -> i1 < 64 -> i2 < 64 -> i3 < 64 ->
  val4 i0 i1 i2 i3 = i0 * 262144 + i1 * 4096 + i2 * 64 + i3.
Proof.
  intros H0 H1 H2 H3. unfold val4. rewrite !N.shiftl_mul_pow2.
  change (2 ^ 18) with 262144. change (2 ^ 12) with 4096. change (2 ^ 6) with 64.
  rewrite (N_lor_add (i0 * 262144) (i1 * 4096) 18).
  2: { change (2 ^ 18) with 262144. lia. }
  2: { change (2 ^ 18) with 262144. apply N.Div0.mod_mul. }
  rewrite (N_lor_add (i0 * 262144 + i1 * 4096) (i2 * 64) 12).
  2: { change (2 ^ 12) with 4096. lia. }
  2: { change (2 ^ 12) with 4096.
       apply (N_divmod_unique _ 4096 (i0 * 64 + i1) 0); lia. }
  apply (N_lor_add _ i3 6).
  - exact H3.
  - change (2 ^ 6) with 64.
    apply (N_divmod_unique _ 64 (i0 * 4096 + i1 * 64 + i2) 0); lia.
Qed.

Lemma val4_idx (v : N) :
  v < 16777216 -> val4 (idx v 18) (idx v 12) (idx v 6) (idx v 0) = v.
Proof.
  intros Hv. rewrite val4_sum by apply idx_lt.
  rewrite !idx_spec. change (2 ^ 18) with 262144. change (2 ^ 12) with 4096.
  change (2 ^ 6) with 64. change (2 ^ 0) with 1. rewrite N.div_1_r.
  now apply sextets_sum.
Qed.

Lemma val3_sum (a b c : byte) :
  val3 a b c = Byte.to_N a * 65536 + Byte.to_N b * 256 + Byte.to_N c.
Proof.
  unfold val3. pose proof (Byte.to_N_bounded a). pose proof (Byte.to_N_bounded b).
  pose proof (Byte.to_N_bounded c). rewrite !N.shiftl_mul_pow2.
  change (2 ^ 16) with 65536. change (2 ^ 8) with 256.
  rewrite (N_lor_add (Byte.to_N a * 65536) (Byte.to_N b * 256) 16).
  2: { change (2 ^ 16) with 65536. lia. }
  2: { change (2 ^ 16) with 65536. apply N.Div0.mod_mul. }
  apply (N_lor_add _ _ 8).
  - change (2 ^ 8) with 256. lia.
  - change (2 ^ 8) with 256.
    apply (N_divmod_unique _ 256 (Byte.to_N a * 256 + Byte.to_N b) 0); lia.
Qed.

Lemma out_bytes (a b c : byte) (v : N) :
  v = Byte.to_N a * 65536 + Byte.to_N b * 256 + Byte.to_N c ->
  out_byte v 16 = a /\ out_byte v 8 = b /\ out_byte v 0 = c.
Proof.
  intros ->. pose proof (Byte.to_N_bounded a). pose proof (Byte.to_N_bounded b).
  pose proof (Byte.to_N_bounded c). unfold out_byte. rewrite !N.shiftr_div_pow2.
  change (2 ^ 16) with 65536. change (2 ^ 8) with 256. change (2 ^ 0) with 1.
  rewrite N.div_1_r. repeat split.
  - destruct (N_divmod_unique (Byte.to_N a * 65536 + Byte.to_N b * 256 + Byte.to_N c)
                65536 (Byte.to_N a) (Byte.to_N b * 256 + Byte.to_N c)) as [E _]; [lia | lia |].
    rewrite E. apply byte_of_N_to_N.
  - destruct (N_divmod_unique (Byte.to_N a * 65536 + Byte.to_N b * 256 + Byte.to_N c)
                256 (Byte.to_N a * 256 + Byte.to_N b) (Byte.to_N c)) as [E _]; [lia | lia |].
    rewrite E, <- byte_of_N_mod.
    destruct (N_divmod_unique (Byte.to_N a * 256 + Byte.to_N b)
                256 (Byte.to_N a) (Byte.to_N b)) as [_ E']; [lia | lia |].
    rewrite E'. apply byte_of_N_to_N.
  - rewrite <- byte_of_N_mod.
    destruct (N_divmod_unique (Byte.to_N a * 65536 + Byte.to_N b * 256 + Byte.to_N c)
                256 (Byte.to_N a * 256 + Byte.to_N b) (Byte.to_N c)) as [_ E]; [lia | lia |].
    rewrite E. apply byte_of_N_to_N.
Qed.

Lemma idx_low_zero (v q : N) : v = q * 64 -> idx v 0 = 0.
Proof.
  intros E. rewrite idx_spec. change (2 ^ 0) with 1. rewrite N.div_1_r.
  apply (N_divmod_unique v 64 q 0); lia.
Qed.

Lemma idx_mid_zero (v q : N) : v = q * 4096 -> idx v 6 = 0.
Proof.
  intros E. rewrite idx_spec. change (2 ^ 6) with 64.
  destruct (N_divmod_unique v 64 (q * 64) 0) as [D _]; [lia | lia |].
  rewrite D. apply (N_divmod_unique (q * 64) 64 q 0); lia.
Qed.

Lemma decode_last2 (a b : byte) :
  let val := N.lor (N.shiftl (Byte.to_N a) 16) (N.shiftl (Byte.to_N b) 8) in
  decode [sextet val 18; sextet val 12; sextet val 6; padChar] = Some [a; b].
Proof.
  intros val.
  assert (Ev : val = Byte.to_N a * 65536 + Byte.to_N b * 256 + Byte.to_N x00).
  { rewrite <- val3_sum. unfold val3, val. simpl (Byte.to_N x00). now rewrite N.lor_0_r. }
  pose proof (Byte.to_N_bounded a). pose proof (Byte.to_N_bounded b).
  simpl (Byte.to_N x00) in Ev.
  cbn [decode]. rewrite !dec6_sextet.
  change (dec6 padChar) with (@None N). change (Ascii.eqb padChar padChar) with true.
  cbv iota beta zeta.
  assert (E0 : idx val 0 = 0).
  { apply (idx_low_zero val (Byte.to_N a * 1024 + Byte.to_N b * 4)). lia. }
  rewrite <- E0 at 1 2. rewrite val4_idx by lia.
  destruct (out_bytes a b x00 val) as (-> & -> & _); [simpl (Byte.to_N x00); lia |].
  reflexivity.
Qed.

Lemma decode_last1 (a : byte) :
  let val := N.shiftl (Byte.to_N a) 16 in
  decode [sextet val 18; sextet val 12; padChar; padChar] = Some [a].
Proof.
  intros val.
  assert (Ev : val = Byte.to_N a * 65536).
  { unfold val. now rewrite N.shiftl_mul_pow2. }
  pose proof (Byte.to_N_bounded a).
  cbn [decode]. rewrite !dec6_sextet.
  change (dec6 padChar) with (@None N). change (Ascii.eqb padChar padChar) with true.
  cbv iota beta zeta. cbn [andb].
  assert (E0 : idx val 0 = 0).
  { apply (idx_low_zero val (Byte.to_N a * 1024)). lia. }
  assert (E1 : idx val 6 = 0).
  { apply (idx_mid_zero val (Byte.to_N a * 16)). lia. }
  rewrite <- E0 at 2. rewrite <- E1 at 1. rewrite val4_idx by lia.
  destruct (out_bytes a x00 x00 val) as (-> & _ & _); [simpl (Byte.to_N x00); lia |].
  reflexivity.
Qed.

Lemma encode_nil_inv (src : bytes) : encode src = [] -> src = [].
Proof. destruct src as [| a [| b [| c rest]]]; simpl; congruence. Qed.

Lemma decode_encode_le (n : nat) (src : bytes) :
  (length src <= n)%nat -> decode (encode src) = Some src.
Proof.
  revert src. induction n as [| n IH]; intros src Hlen.
  - destruct src; [reflexivity | simpl in Hlen; lia].
  - destruct src as [| a [| b [| c rest]]].
    + reflexivity.
    + apply decode_last1.
    + apply decode_last2.
    + assert (Hrest : decode (encode rest) = Some rest).
      { apply IH. simpl in Hlen. lia. }
      pose proof (Byte.to_N_bounded a). pose proof (Byte.to_N_bounded b).
      pose proof (Byte.to_N_bounded c).
      pose proof (val3_sum a b c) as Ev.
      destruct (out_bytes a b c (val3 a b c) Ev) as (O1 & O2 & O3).
      cbn [encode]. cbv zeta.
      destruct (encode rest) as [| x xs] eqn:Er.
      * apply encode_nil_inv in Er. subst rest.
        cbn [decode]. rewrite !dec6_sextet. cbv iota beta zeta.
        rewrite val4_idx by lia. now rewrite O1, O2, O3.
      * cbn [decode]. rewrite !dec6_sextet. cbv iota beta zeta.
        rewrite val4_idx by lia.
        change (decode (x :: xs)) with (decode (x :: xs)) in Hrest.
        cbn [decode] in Hrest. rewrite Hrest. now rewrite O1, O2, O3.
Qed.

Lemma decode_encode (src : bytes) : decode (encode src) = Some src.
Proof. apply (decode_encode_le (length src)). lia. Qed.

Lemma encode_no_newline (src : bytes) :
  Forall (fun c => is_newline c = false) (encode src).
Proof.
  assert (G : forall n (s : bytes), (length s <= n)%nat ->
              Forall (fun c => is_newline c = false) (encode s)).
  { induction n as [| n IH]; intros s Hlen.
    - destruct s; [constructor | simpl in Hlen; lia].
    - destruct s as [| a [| b [| c rest]]]; cbn [encode]; cbv zeta;
        repeat (constructor; try apply sextet_not_newline; try reflexivity).
      apply IH. simpl in Hlen. lia. }
  apply (G (length src)). lia.
Qed.

Lemma filter_all_true {A} (f : A -> bool) (l : list A) :
  Forall (fun x => f x = true) l -> List.filter f l = l.
Proof.
  induction 1 as [| x xs Hx _ IH]; simpl; [reflexivity |].
  now rewrite Hx, IH.
Qed.

(** [DecodeString] inverts [EncodeToString] on every byte slice. *)
Lemma DecodeString_EncodeToString (src : bytes) :
  DecodeString (EncodeToString src) = Some src.
Proof.
  unfold DecodeString, EncodeToString.
  rewrite list_ascii_of_string_of_list_ascii, filter_all_true.
  - apply decode_encode.
  - eapply List.Forall_impl; [| apply encode_no_newline].
    intros c Hc. simpl in Hc. now rewrite Hc.
Qed.

End base64_facts.

(** The encodings on the test vectors of RFC 4648, and on malformed text. *)
Example base64_encode_foobar :
  base64.EncodeToString (bytes_of_string "foobar") = "Zm9vYmFy"%string
  /\ base64.EncodeToString (bytes_of_string "fooba") = "Zm9vYmE="%string
  /\ base64.EncodeToString (bytes_of_string "foob") = "Zm9vYg=="%string
  /\ base64.EncodeToString [] = ""%string.
Proof. repeat split. Qed.

Example base64_decode_foobar :
  base64.DecodeString "Zm9vYg==" = Some (bytes_of_string "foob")
  /\ base64.DecodeString "Zm9vYmE=" = Some (bytes_of_string "fooba")
  /\ base64.DecodeString "" = Some [].
Proof. repeat split. Qed.

Example base64_decode_corrupt :
  base64.DecodeString "Zm9vYg==Zm9v" = None
  /\ base64.DecodeString "Zm9" = None
  /\ base64.DecodeString "!" = None.
Proof. repeat split. Qed.

Example hex_encode_Jz : hex.EncodeToString (bytes_of_string "Jz") = "4a7a"%string.
Proof. reflexivity. Qed.

(** * Properties of package config *)
Section config_facts.
Import config.
Context {P : Primitives}.

Lemma hex_encode_length (src : bytes) : length (hex.encode src) = (2 * length src)%nat.
Proof. induction src as [| v rest IH]; simpl; [reflexivity | rewrite IH; lia]. Qed.

(** The digest of a key is 64 hexadecimal digits, so never the empty string. *)
Lemma keyDigest_nonempty (k : bytes) : keyDigest k <> ""%string.
Proof.
  unfold keyDigest, hex.EncodeToString. intros E.
  assert (L : length (hex.encode (sha3_Sum256 k)) = 64%nat).
  { rewrite hex_encode_length, sha3_Sum256_length. reflexivity. }
  destruct (hex.encode (sha3_Sum256 k)); [discriminate L | discriminate E].
Qed.

Lemma deriveKey_length (c : Config) (password : string) :
  length (deriveKey c password) = 32%nat.
Proof. unfold deriveKey. now rewrite argon2_Key_length. Qed.

Lemma HasPin_true (c : Config) :
  HasPin c = true <-> ConfigKeyHash (ConfigFile_ c) <> ""%string.
Proof.
  unfold HasPin. rewrite negb_true_iff. split.
  - intros E H. apply String.eqb_neq in E. contradiction.
  - intros H. now apply String.eqb_neq.
Qed.

Lemma IsLocked_true (c : Config) :
  IsLocked c = true <->
  Bytes (key c) = repeat x00 32 /\ ConfigKeyHash (ConfigFile_ c) <> ""%string.
Proof.
  unfold IsLocked. cbv zeta. rewrite andb_true_iff, bool_decide_eq_true, HasPin_true.
  reflexivity.
Qed.

Lemma IsLocked_no_hash (c : Config) :
  ConfigKeyHash (ConfigFile_ c) = ""%string -> IsLocked c = false.
Proof.
  intros E. destruct (IsLocked c) eqn:L; [| reflexivity].
  apply IsLocked_true in L. destruct L as [_ L]. contradiction.
Qed.

Lemma IsLocked_key_nonzero (c : Config) :
  Bytes (key c) <> repeat x00 32 -> IsLocked c = false.
Proof.
  intros E. destruct (IsLocked c) eqn:L; [| reflexivity].
  apply IsLocked_true in L. destruct L as [L _]. contradiction.
Qed.

Lemma next_nonce_length (w : World) : length (next_nonce w) = 12%nat.
Proof. unfold next_nonce. now rewrite length_map, length_seq. Qed.

Lemma encryptString_locked (w : World) (data : string) :
  IsLocked (cfg w) = true -> encryptString data w = Returns (Err ErrConfigLocked) w.
Proof. intros L. unfold encryptString, bind, get_cfg, ret. now rewrite L. Qed.

Lemma encryptString_unlocked (w : World) (data : string) :
  IsLocked (cfg w) = false ->
  length (Bytes (key (cfg w))) = 32%nat ->
  encryptString data w =
    Returns (Ok (sealed (Bytes (key (cfg w))) (next_nonce w) data))
            (with_random_pos (random_pos w + subtle.NonceSize) w).
Proof.
  intros L K. unfold encryptString, bind, get_cfg, ret. rewrite L.
  unfold subtle.NewChaCha20Poly1305. rewrite K. reflexivity.
Qed.

Lemma Decrypt_Encrypt (k n plaintext : bytes) :
  length k = 32%nat -> length n = 12%nat ->
  subtle.Decrypt {| subtle.Key := k |} (n ++ aead_Seal k n plaintext []) [] = Ok plaintext.
Proof.
  intros K N. unfold subtle.Decrypt.
  assert (L : length (n ++ aead_Seal k n plaintext []) = (28 + length plaintext)%nat).
  { rewrite length_app, aead_Seal_length. lia. }
  destruct (Nat.ltb_spec (length (n ++ aead_Seal k n plaintext []))
              (subtle.NonceSize + subtle.TagSize)) as [H | H].
  - unfold subtle.NonceSize, subtle.TagSize in H. lia.
  - unfold subtle.NonceSize. cbn [subtle.Key].
    rewrite <- N at 1 2.
    rewrite firstn_app, Nat.sub_diag, firstn_all, firstn_O, app_nil_r.
    rewrite skipn_app, Nat.sub_diag, skipn_all, skipn_O. cbn [app].
    now rewrite aead_Open_Seal.
Qed.

Lemma decryptString_sealed (c : Config) (n : bytes) (data : string) :
  IsLocked c = false ->
  length (Bytes (key c)) = 32%nat ->
  length n = 12%nat ->
  decryptString c (sealed (Bytes (key c)) n data) = Ok data.
Proof.
  intros L K N. unfold decryptString, sealed. rewrite L.
  rewrite base64_facts.DecodeString_EncodeToString.
  unfold subtle.NewChaCha20Poly1305, subtle.KeySize. rewrite K.
  change (Nat.eqb 32 32) with true. cbv iota.
  rewrite Decrypt_Encrypt by assumption.
  unfold string_of_bytes, bytes_of_string.
  now rewrite string_of_list_byte_of_string.
Qed.

(** What [decryptString] makes of the empty field: the empty text decodes
    to no bytes, which is shorter than nonce and tag. *)
Lemma decryptString_empty (c : Config) :
  IsLocked c = false ->
  decryptString c "" =
    Err (if Nat.eqb (length (Bytes (key c))) 32 then ErrCiphertextTooShort
         else ErrBadKeyLength).
Proof.
  intros L. unfold decryptString. rewrite L.
  change (base64.DecodeString "") with (Some (@nil byte)).
  unfold subtle.NewChaCha20Poly1305, subtle.KeySize.
  destruct (Nat.eqb (length (Bytes (key c))) 32); reflexivity.
Qed.

End config_facts.

(** * The lock state machine *)
Section lock_facts.
Import config.
Context {P : Primitives}.

Lemma bytes_of_string_inj (a b : string) :
  bytes_of_string a = bytes_of_string b -> a = b.
Proof.
  unfold bytes_of_string. intros E.
  rewrite <- (string_of_list_byte_of_string a), <- (string_of_list_byte_of_string b).
  now rewrite E.
Qed.

Lemma ConstantTimeCompare_strings (a b : string) :
  Z.eqb (ConstantTimeCompare (bytes_of_string a) (bytes_of_string b)) 1 = true <-> a = b.
Proof.
  unfold ConstantTimeCompare. case_bool_decide as E.
  - split; [intros _; now apply bytes_of_string_inj | reflexivity].
  - split; [discriminate | intros ->; contradiction].
Qed.

(** Taking the mutex and giving it back leaves a world as it was. *)
Lemma mutex_round_trip (w : World) :
  mu (cfg w) = false ->
  with_cfg (with_mu false (cfg (with_cfg (with_mu true (cfg w)) w)))
           (with_cfg (with_mu true (cfg w)) w) = w.
Proof. destruct w as [[m k cf u] f pc ns r rp]. simpl. now intros ->. Qed.


Lemma Unlock_mismatch (password : string) (w : World) :
  mu (cfg w) = false -> IsLocked (cfg w) = true ->
  keyDigest (deriveKey (cfg w) password) <> ConfigKeyHash (ConfigFile_ (cfg w)) ->
  Unlock password w = Returns false w.
Proof.
  intros Hmu L D. unfold Unlock, bind, mu_Lock, get_cfg. rewrite Hmu. cbn [cfg with_cfg].
  change (IsLocked (with_mu true (cfg w))) with (IsLocked (cfg w)). rewrite L.
  cbn [negb]. cbv zeta.
  change (deriveKey (with_mu true (cfg w)) password) with (deriveKey (cfg w) password).
  change (ConfigFile_ (with_mu true (cfg w))) with (ConfigFile_ (cfg w)).
  destruct (Z.eqb (ConstantTimeCompare _ _) 1) eqn:E.
  - apply ConstantTimeCompare_strings in E. contradiction.
  - cbn [negb]. unfold mu_Unlock, ret. cbn [cfg with_cfg mu with_mu].
    f_equal. now apply mutex_round_trip.
Qed.

Lemma Unlock_match (password : string) (w : World) :
  mu (cfg w) = false -> IsLocked (cfg w) = true ->
  keyDigest (deriveKey (cfg w) password) = ConfigKeyHash (ConfigFile_ (cfg w)) ->
  Unlock password w = Returns true (unlocked_by password w).
Proof.
  intros Hmu L D. unfold Unlock, bind, mu_Lock, get_cfg. rewrite Hmu. cbn [cfg with_cfg].
  change (IsLocked (with_mu true (cfg w))) with (IsLocked (cfg w)). rewrite L.
  cbn [negb]. cbv zeta.
  change (deriveKey (with_mu true (cfg w)) password) with (deriveKey (cfg w) password).
  change (ConfigFile_ (with_mu true (cfg w))) with (ConfigFile_ (cfg w)).
  destruct (Z.eqb (ConstantTimeCompare _ _) 1) eqn:E.
  2: { apply not_true_iff_false in E. exfalso. apply E.
       now apply ConstantTimeCompare_strings. }
  cbn [negb]. unfold modify_cfg, Notify, SetPin, mu_Unlock, ret, unlocked_by.
  destruct w as [[m k cf u] f pc ns r rp]. simpl in *. subst u. reflexivity.
Qed.

End lock_facts.

(** * The claims about the credential store *)
Section store_claims.
Import config.
Context {P : Primitives}.

(** C8: the store reports locked exactly when its key is the 32 zero bytes
    and a config-key-hash is set; a store without a config-key-hash is
    not locked, and so is the store [DefaultConfig] constructs. *)
Theorem C8_locked_iff_zero_key_and_hash :
  (forall c : Config,
     (IsLocked c = true <->
        Bytes (key c) = repeat x00 32 /\ ConfigKeyHash (ConfigFile_ c) <> ""%string)
     /\ (ConfigKeyHash (ConfigFile_ c) = ""%string <-> HasPin c = false))
  /\ (forall c : Config, HasPin c = false -> IsLocked c = false)
  /\ (forall (useMemguard : bool) (deviceUUID : string),
        IsLocked (DefaultConfig useMemguard deviceUUID) = false).
Proof.
  split; [| split].
  - intros c. split; [apply IsLocked_true |]. split.
    + intros E. unfold HasPin. now rewrite E.
    + intros E. unfold HasPin in E. apply negb_false_iff in E.
      now apply String.eqb_eq in E.
  - intros c E. unfold IsLocked. rewrite E. apply andb_false_r.
  - intros m u. reflexivity.
Qed.

(** C7: while the store is locked every getter and every setter of a secret
    field fails with the locked error, and a setter leaves the whole world
    (the record in memory and the file on disk) as it was. *)
Theorem C7_locked_accessors_fail (w : World) :
  IsLocked (cfg w) = true ->
  (GetToken (cfg w) = Err ErrConfigLocked
   /\ GetClientID (cfg w) = Err ErrConfigLocked
   /\ GetClientSecret (cfg w) = Err ErrConfigLocked
   /\ GetUserSymmetricKey (cfg w) = Err ErrConfigLocked
   /\ GetMasterPasswordHash (cfg w) = Err ErrConfigLocked
   /\ GetMasterKey (cfg w) = Err ErrConfigLocked)
  /\ ((forall token, SetToken token w = Returns (Some ErrConfigLocked) w)
      /\ (forall clientID, SetClientID clientID w = Returns (Some ErrConfigLocked) w)
      /\ (forall clientSecret,
            SetClientSecret clientSecret w = Returns (Some ErrConfigLocked) w)
      /\ (forall key, SetUserSymmetricKey key w = Returns (Some ErrConfigLocked) w)
      /\ (forall hash, SetMasterPasswordHash hash w = Returns (Some ErrConfigLocked) w)
      /\ (forall key, SetMasterKey key w = Returns (Some ErrConfigLocked) w)).
Proof.
  intros L. split.
  - unfold GetToken, GetClientID, GetClientSecret, GetUserSymmetricKey,
      GetMasterPasswordHash, GetMasterKey. rewrite L. repeat split.
  - unfold SetToken, SetClientID, SetClientSecret, SetUserSymmetricKey,
      SetMasterPasswordHash, SetMasterKey, bind, get_cfg, ret.
    rewrite L. repeat split.
Qed.

(** C10: in an unlocked store, [GetClientID] and [GetClientSecret] answer an
    empty field with the empty string and no error, while [GetToken],
    [GetUserSymmetricKey], [GetMasterPasswordHash] and [GetMasterKey] hand
    the empty field to the decryption and return its error. *)
Theorem C10_empty_field_getters (c : Config) :
  IsLocked c = false ->
  (EncryptedClientID (ConfigFile_ c) = ""%string -> GetClientID c = Ok ""%string)
  /\ (EncryptedClientSecret (ConfigFile_ c) = ""%string -> GetClientSecret c = Ok ""%string)
  /\ (EncryptedToken (ConfigFile_ c) = ""%string ->
        GetToken c = Err (empty_field_error c))
  /\ (EncryptedUserSymmetricKey (ConfigFile_ c) = ""%string ->
        GetUserSymmetricKey c = Err (empty_field_error c))
  /\ (EncryptedMasterPasswordHash (ConfigFile_ c) = ""%string ->
        GetMasterPasswordHash c = Err (empty_field_error c))
  /\ (EncryptedMasterKey (ConfigFile_ c) = ""%string ->
        GetMasterKey c = Err (empty_field_error c))
  /\ empty_field_error c <> ErrConfigLocked.
Proof.
  intros L.
  unfold GetClientID, GetClientSecret, GetToken, GetUserSymmetricKey,
    GetMasterPasswordHash, GetMasterKey. rewrite L.
  repeat split; try (intros ->; rewrite ?decryptString_empty by exact L; reflexivity).
  unfold empty_field_error. destruct (Nat.eqb _ _); discriminate.
Qed.

(** C5: in an unlocked store, [encryptString] succeeds on every Go string
    (any sequence of bytes, the empty one and those that are not UTF-8
    included) without touching the store, and [decryptString] gives the
    string back. *)
Theorem C5_encrypt_then_decrypt (w : World) (data : string) :
  IsLocked (cfg w) = false ->
  length (Bytes (key (cfg w))) = 32%nat ->
  exists (encrypted : string) (w' : World),
    encryptString data w = Returns (Ok encrypted) w'
    /\ cfg w' = cfg w
    /\ decryptString (cfg w') encrypted = Ok data.
Proof.
  intros L K. eexists _, _. split; [now apply encryptString_unlocked |].
  split; [reflexivity |]. cbn [cfg with_random_pos].
  apply decryptString_sealed; [exact L | exact K | apply next_nonce_length].
Qed.


End store_claims.

(** * Changing the PIN *)
Section update_pin_facts.
Import config.
Context {P : Primitives}.

#[local] Instance Field_eq_dec : EqDecision Field.
Proof. solve_decision. Defined.

Lemma get_set_field_same (f : Field) (v : string) (cf : ConfigFile) :
  get_field f (set_field f v cf) = v.
Proof. now destruct f. Qed.

Lemma get_set_field_other (f g : Field) (v : string) (cf : ConfigFile) :
  f <> g -> get_field f (set_field g v cf) = get_field f cf.
Proof. destruct f, g; simpl; congruence. Qed.

(** [IsLocked] reads the key and the config-key-hash and nothing else. *)
Lemma IsLocked_ext (c1 c2 : Config) :
  Bytes (key c1) = Bytes (key c2) ->
  ConfigKeyHash (ConfigFile_ c1) = ConfigKeyHash (ConfigFile_ c2) ->
  IsLocked c1 = IsLocked c2.
Proof. unfold IsLocked, HasPin. cbv zeta. now intros -> ->. Qed.

(** So does [decryptString]. *)
Lemma decryptString_ext (c1 c2 : Config) (data : string) :
  Bytes (key c1) = Bytes (key c2) ->
  ConfigKeyHash (ConfigFile_ c1) = ConfigKeyHash (ConfigFile_ c2) ->
  decryptString c1 data = decryptString c2 data.
Proof.
  intros K H. unfold decryptString. rewrite (IsLocked_ext c1 c2 K H). now rewrite K.
Qed.

Lemma reencrypted_ConfigKeyHash k rnd pos plaintexts cf :
  ConfigKeyHash (fst (reencrypted k rnd pos plaintexts cf)) = ConfigKeyHash cf.
Proof.
  revert pos cf. induction plaintexts as [| [f [p | e]] rest IH]; intros pos cf; simpl.
  - reflexivity.
  - now rewrite IH.
  - apply IH.
Qed.

Lemma reencrypted_RuntimeConfig k rnd pos plaintexts cf :
  RuntimeConfig_ (fst (reencrypted k rnd pos plaintexts cf)) = RuntimeConfig_ cf.
Proof.
  revert pos cf. induction plaintexts as [| [f [p | e]] rest IH]; intros pos cf; simpl.
  - reflexivity.
  - now rewrite IH.
  - apply IH.
Qed.

Lemma reencrypted_DeviceUUID k rnd pos plaintexts cf :
  DeviceUUID (fst (reencrypted k rnd pos plaintexts cf)) = DeviceUUID cf.
Proof.
  revert pos cf. induction plaintexts as [| [f [p | e]] rest IH]; intros pos cf; simpl.
  - reflexivity.
  - now rewrite IH.
  - apply IH.
Qed.

(** A field that is passed over keeps its value. *)
Lemma reencrypted_unchanged (d : Field -> result string) k rnd (fields : list Field) :
  forall pos cf f,
    (~ In f fields \/ is_Ok (d f) = false) ->
    get_field f (fst (reencrypted k rnd pos (map (fun g => (g, d g)) fields) cf))
    = get_field f cf.
Proof.
  induction fields as [| g rest IH]; intros pos cf f Hf; [reflexivity |].
  cbn [map reencrypted]. destruct (d g) as [p | e] eqn:Dg.
  - rewrite IH.
    + apply get_set_field_other. intros ->. destruct Hf as [Hf | Hf].
      * apply Hf. now left.
      * rewrite Dg in Hf. discriminate.
    + destruct Hf as [Hf | Hf]; [left | now right]. intros Hin. apply Hf. now right.
  - apply IH. destruct Hf as [Hf | Hf]; [left | now right].
    intros Hin. apply Hf. now right.
Qed.

(** A field that decrypted is sealed again under [k], with a fresh nonce. *)
Lemma reencrypted_sealed (d : Field -> result string) k rnd (fields : list Field) :
  List.NoDup fields ->
  forall pos cf f p,
    In f fields -> d f = Ok p ->
    exists n, length n = 12%nat
      /\ get_field f (fst (reencrypted k rnd pos (map (fun g => (g, d g)) fields) cf))
         = sealed k n p.
Proof.
  induction 1 as [| g rest Hg _ IH]; intros pos cf f p Hin Df; [destruct Hin |].
  cbn [map reencrypted]. destruct (decide (f = g)) as [-> | Hne].
  - rewrite Df. exists (map rnd (seq pos subtle.NonceSize)). split.
    + now rewrite length_map, length_seq.
    + rewrite reencrypted_unchanged by (now left). apply get_set_field_same.
  - destruct Hin as [-> | Hin]; [contradiction |].
    destruct (d g); now apply IH.
Qed.

Lemma NoDup_all_fields : List.NoDup all_fields.
Proof.
  unfold all_fields.
  repeat (apply List.NoDup_cons; [simpl; intuition discriminate |]).
  apply List.NoDup_nil.
Qed.

Lemma In_all_fields (f : Field) : In f all_fields.
Proof. destruct f; simpl; tauto. Qed.

(** The run of the second half of [UpdatePin] on an unlocked store. *)
Lemma reencrypt_run (plaintexts : list (Field * result string)) :
  forall w : World,
    IsLocked (cfg w) = false ->
    length (Bytes (key (cfg w))) = 32%nat ->
    reencrypt plaintexts w =
      Returns true
        (let r := reencrypted (Bytes (key (cfg w))) (random w) (random_pos w)
                    plaintexts (ConfigFile_ (cfg w)) in
         with_random_pos (snd r) (with_cfg (with_ConfigFile (fst r) (cfg w)) w)).
Proof.
  induction plaintexts as [| [f [p | e]] rest IH]; intros w L K.
  - cbn [reencrypt reencrypted fst snd]. unfold ret.
    destruct w as [[m k cf u] fl pc ns r rp]. reflexivity.
  - cbn [reencrypt]. unfold bind at 1. rewrite encryptString_unlocked by assumption.
    unfold bind, set_cfg_field, modify_cfg.
    rewrite IH.
    + destruct w as [[m k cf u] fl pc ns r rp]. reflexivity.
    + rewrite <- L. apply IsLocked_ext; reflexivity.
    + exact K.
  - cbn [reencrypt reencrypted]. now apply IH.
Qed.

Lemma WriteConfig_returns (w : World) :
  mu (cfg w) = false -> can_persist (cfg w) = true ->
  exists e w', WriteConfig w = Returns e w'
    /\ cfg w' = cfg w /\ pin_cache w' = pin_cache w.
Proof.
  intros Hmu Hp. unfold WriteConfig, bind, get_cfg, ret, can_persist in *.
  destruct (DoNotPersistConfig _) eqn:D; [now eexists _, _ |].
  cbn [orb] in Hp. apply negb_true_iff in Hp.
  unfold mu_Lock. rewrite Hmu. unfold os_Remove, os_WriteFile, mu_Unlock.
  destruct w as [[m k cf u] [fl wr] pc ns r rp]. cbn in *. subst u.
  destruct wr; cbn; change (String.length "/goldwarden.json") with 16%nat;
    rewrite Hp; now eexists _, _.
Qed.


End update_pin_facts.

Section update_pin_run.
Import config.
Context {P : Primitives}.

Lemma bind_Returns {A B} (m : M A) (k : A -> M B) (w w' : World) (a : A) :
  m w = Returns a w' -> bind m k w = k a w'.
Proof. intros E. unfold bind. now rewrite E. Qed.

Lemma UpdatePin_returns (w : World) (password : string) (write : bool) :
  mu (cfg w) = false ->
  deriveKey (cfg w) password <> repeat x00 32 ->
  (write = true -> can_persist (cfg w) = true) ->
  exists w', UpdatePin password write w = Returns tt w' /\ cfg w' = rekeyed w password.
Proof.
  intros Hmu Hnew Hw.
  assert (Hp : write = true -> can_persist (rekeyed w password) = true).
  { intros E. rewrite <- (Hw E). unfold can_persist, rekeyed. cbv zeta.
    cbn [ConfigFile_ with_ConfigFile]. now rewrite reencrypted_RuntimeConfig. }
  destruct w as [[m k cf u] fl pc ns rnd rp]. cbn [cfg mu] in Hmu. subst u.
  unfold UpdatePin.
  erewrite bind_Returns; [| reflexivity].
  erewrite bind_Returns; [| reflexivity]. cbv zeta.
  erewrite bind_Returns; [| reflexivity].
  erewrite bind_Returns; [| reflexivity].
  erewrite bind_Returns; [| reflexivity].
  erewrite bind_Returns.
  2: { apply reencrypt_run.
       - apply IsLocked_key_nonzero. exact Hnew.
       - apply deriveKey_length. }
  cbn [negb]. cbv zeta.
  erewrite bind_Returns; [| reflexivity].
  destruct write.
  - match goal with |- context [bind WriteConfig ?kk ?w0] =>
      destruct (WriteConfig_returns w0) as (e & w3 & Hwc & Hc3 & _)
    end.
    + reflexivity.
    + etransitivity; [| apply Hp; reflexivity]. reflexivity.
    + erewrite bind_Returns; [| exact Hwc].
      destruct e.
      * eexists. split; [reflexivity |]. rewrite Hc3. reflexivity.
      * eexists. split; [reflexivity |].
        unfold SetPin. cbn [cfg with_pin_cache]. rewrite Hc3. reflexivity.
  - erewrite bind_Returns; [| reflexivity].
    eexists. split; [reflexivity |]. reflexivity.
Qed.

Lemma rekeyed_key (w : World) (password : string) :
  Bytes (key (rekeyed w password)) = deriveKey (cfg w) password.
Proof. reflexivity. Qed.

Lemma rekeyed_ConfigKeyHash (w : World) (password : string) :
  ConfigKeyHash (ConfigFile_ (rekeyed w password))
  = keyDigest (deriveKey (cfg w) password).
Proof.
  unfold rekeyed. cbv zeta. cbn [ConfigFile_ with_ConfigFile].
  now rewrite reencrypted_ConfigKeyHash.
Qed.

Lemma rekeyed_DeviceUUID (w : World) (password : string) :
  DeviceUUID (ConfigFile_ (rekeyed w password)) = DeviceUUID (ConfigFile_ (cfg w)).
Proof.
  unfold rekeyed. cbv zeta. cbn [ConfigFile_ with_ConfigFile].
  now rewrite reencrypted_DeviceUUID.
Qed.

Lemma rekeyed_unlocked (w : World) (password : string) :
  deriveKey (cfg w) password <> repeat x00 32 -> IsLocked (rekeyed w password) = false.
Proof. intros H. apply IsLocked_key_nonzero. now rewrite rekeyed_key. Qed.

(** Field by field: sealed again under the new key when the decryption in
    [UpdatePin] gave a plaintext, untouched when it gave an error. *)
Lemma rekeyed_field (w : World) (password : string) (f : Field) :
  match decryptString (rehashed (cfg w) password) (get_field f (ConfigFile_ (cfg w))) with
  | Ok plaintext =>
      exists n, length n = 12%nat
        /\ get_field f (ConfigFile_ (rekeyed w password))
           = sealed (deriveKey (cfg w) password) n plaintext
  | Err _ =>
      get_field f (ConfigFile_ (rekeyed w password)) = get_field f (ConfigFile_ (cfg w))
  end.
Proof.
  unfold rekeyed. cbv zeta. cbn [ConfigFile_ with_ConfigFile].
  set (d := fun g => decryptString (rehashed (cfg w) password)
                       (get_field g (ConfigFile_ (cfg w)))).
  change (decryptString (rehashed (cfg w) password) (get_field f (ConfigFile_ (cfg w))))
    with (d f).
  destruct (d f) as [p | e] eqn:Df.
  - apply (reencrypted_sealed d); [apply NoDup_all_fields | apply In_all_fields | exact Df].
  - rewrite (reencrypted_unchanged d) by (right; now rewrite Df).
    now destruct f.
Qed.

(** With a key that is not all-zero the early hash changes nothing for the
    decryptions: they are the decryptions of the store as it was. *)
Lemma decryptString_rehashed (c : Config) (password data : string) :
  Bytes (key c) <> repeat x00 32 ->
  decryptString (rehashed c password) data = decryptString c data.
Proof.
  intros K. unfold decryptString.
  rewrite (IsLocked_key_nonzero (rehashed c password)) by exact K.
  now rewrite (IsLocked_key_nonzero c) by exact K.
Qed.

(** With the all-zero key, the early hash makes the store read as locked,
    and every decryption in [UpdatePin] is refused. *)
Lemma decryptString_rehashed_zero (c : Config) (password data : string) :
  Bytes (key c) = repeat x00 32 ->
  decryptString (rehashed c password) data = Err ErrConfigLocked.
Proof.
  intros K. unfold decryptString.
  assert (L : IsLocked (rehashed c password) = true).
  { apply IsLocked_true. split; [exact K |]. apply keyDigest_nonempty. }
  now rewrite L.
Qed.

Lemma Lock_unlocked (w : World) :
  mu (cfg w) = false -> IsLocked (cfg w) = false ->
  exists w', Lock w = Returns tt w'
    /\ cfg w' = with_key (Wipe (key (cfg w))) (cfg w).
Proof.
  intros Hmu L. destruct w as [[m k cf u] fl pc ns rnd rp]. cbn [cfg mu] in Hmu. subst u.
  unfold Lock.
  erewrite bind_Returns; [| reflexivity].
  erewrite bind_Returns; [| reflexivity].
  change (IsLocked _) with
    (IsLocked {| useMemguard := m; key := k; ConfigFile_ := cf; mu := false |}).
  cbn [cfg] in L. rewrite L.
  erewrite bind_Returns; [| reflexivity].
  erewrite bind_Returns; [| reflexivity].
  eexists. split; reflexivity.
Qed.

(** [UpdatePin], then [Lock], then [Unlock] with the new PIN: the store is
    the one [UpdatePin] left, open under the new key. *)
Lemma UpdatePin_Lock_Unlock (w : World) (password : string) (write : bool) :
  mu (cfg w) = false ->
  deriveKey (cfg w) password <> repeat x00 32 ->
  (write = true -> can_persist (cfg w) = true) ->
  exists w',
    (UpdatePin password write ;; Lock ;; Unlock password) w = Returns true w'
    /\ cfg w' = rekeyed w password.
Proof.
  intros Hmu Hnew Hw.
  destruct (UpdatePin_returns w password write Hmu Hnew Hw) as (w1 & R1 & C1).
  assert (M1 : mu (cfg w1) = false) by (rewrite C1; exact Hmu).
  assert (L1 : IsLocked (cfg w1) = false) by (rewrite C1; now apply rekeyed_unlocked).
  destruct (Lock_unlocked w1 M1 L1) as (w2 & R2 & C2).
  rewrite C1 in C2.
  assert (D2 : deriveKey (cfg w2) password = deriveKey (cfg w) password).
  { rewrite C2. unfold deriveKey. cbn [ConfigFile_ with_key].
    now rewrite rekeyed_DeviceUUID. }
  assert (M2 : mu (cfg w2) = false) by (rewrite C2; exact Hmu).
  assert (L2 : IsLocked (cfg w2) = true).
  { rewrite C2. apply IsLocked_true. split.
    - cbn [key with_key Wipe Bytes contents].
      change (contents (key (rekeyed w password)))
        with (Bytes (key (rekeyed w password))).
      now rewrite rekeyed_key, deriveKey_length.
    - cbn [ConfigFile_ with_key]. rewrite rekeyed_ConfigKeyHash. apply keyDigest_nonempty. }
  assert (H2 : keyDigest (deriveKey (cfg w2) password)
               = ConfigKeyHash (ConfigFile_ (cfg w2))).
  { rewrite D2, C2. cbn [ConfigFile_ with_key]. now rewrite rekeyed_ConfigKeyHash. }
  exists (unlocked_by password w2). split.
  - erewrite bind_Returns; [| exact R1].
    erewrite bind_Returns; [| exact R2].
    now apply Unlock_match.
  - unfold unlocked_by. cbn [cfg with_pin_cache with_notifications with_cfg].
    rewrite D2, C2. unfold rekeyed. cbv zeta.
    destruct w as [[m k cf u] fl pc ns rnd rp]. reflexivity.
Qed.

End update_pin_run.

(** * The claims about changing the PIN *)
Section update_pin_claims.
Import config.
Context {P : Primitives}.

(** C3, as the code has it: after [UpdatePin] on a store that is open under
    a key other than the all-zero one, every field that decrypts under the
    old key holds a fresh encryption of the same plaintext under the new
    key (and decrypts to it there), and every field that fails to decrypt
    under the old key keeps the very value it had. The new key is taken not
    to be the all-zero key either, which the store would read as locked. *)
Theorem C3_UpdatePin_reencrypts_or_keeps (w : World) (password : string) (write : bool) :
  mu (cfg w) = false ->
  Bytes (key (cfg w)) <> repeat x00 32 ->
  deriveKey (cfg w) password <> repeat x00 32 ->
  (write = true -> can_persist (cfg w) = true) ->
  exists w',
    UpdatePin password write w = Returns tt w'
    /\ Bytes (key (cfg w')) = deriveKey (cfg w) password
    /\ forall f : Field,
         match decryptString (cfg w) (get_field f (ConfigFile_ (cfg w))) with
         | Ok plaintext =>
             (exists n, length n = 12%nat
                /\ get_field f (ConfigFile_ (cfg w'))
                   = sealed (deriveKey (cfg w) password) n plaintext)
             /\ decryptString (cfg w') (get_field f (ConfigFile_ (cfg w'))) = Ok plaintext
         | Err _ =>
             get_field f (ConfigFile_ (cfg w')) = get_field f (ConfigFile_ (cfg w))
         end.
Proof.
  intros Hmu Hold Hnew Hw.
  destruct (UpdatePin_returns w password write Hmu Hnew Hw) as (w' & R & C).
  exists w'. split; [exact R |]. rewrite C. split; [apply rekeyed_key |].
  intros f. pose proof (rekeyed_field w password f) as F.
  rewrite decryptString_rehashed in F by exact Hold.
  destruct (decryptString (cfg w) (get_field f (ConfigFile_ (cfg w)))) as [p | e].
  - split; [exact F |]. destruct F as (n & Hn & ->).
    rewrite <- (rekeyed_key w password).
    apply decryptString_sealed.
    + now apply rekeyed_unlocked.
    + rewrite rekeyed_key. apply deriveKey_length.
    + exact Hn.
  - exact F.
Qed.

(** X4: the restoring property that C6 states, where the code has it: on a
    store open under a key other than the all-zero one, [UpdatePin], then
    [Lock], then [Unlock] with the new PIN succeed, and every field that
    decrypted before decrypts to the same plaintext after. *)
Theorem UpdatePin_Lock_Unlock_restores (w : World) (password : string) (write : bool) :
  mu (cfg w) = false ->
  Bytes (key (cfg w)) <> repeat x00 32 ->
  deriveKey (cfg w) password <> repeat x00 32 ->
  (write = true -> can_persist (cfg w) = true) ->
  exists w',
    (UpdatePin password write ;; Lock ;; Unlock password) w = Returns true w'
    /\ IsLocked (cfg w') = false
    /\ forall (f : Field) (plaintext : string),
         decryptString (cfg w) (get_field f (ConfigFile_ (cfg w))) = Ok plaintext ->
         decryptString (cfg w') (get_field f (ConfigFile_ (cfg w'))) = Ok plaintext.
Proof.
  intros Hmu Hold Hnew Hw.
  destruct (UpdatePin_Lock_Unlock w password write Hmu Hnew Hw) as (w' & R & C).
  exists w'. split; [exact R |]. rewrite C. split; [now apply rekeyed_unlocked |].
  intros f p D. pose proof (rekeyed_field w password f) as F.
  rewrite decryptString_rehashed, D in F by exact Hold.
  destruct F as (n & Hn & ->).
  rewrite <- (rekeyed_key w password).
  apply decryptString_sealed.
  - now apply rekeyed_unlocked.
  - rewrite rekeyed_key. apply deriveKey_length.
  - exact Hn.
Qed.

(** C6, where the code breaks it: on a store that is unlocked because it has
    no PIN yet (the all-zero key and no config-key-hash), [UpdatePin], then
    [Lock], then [Unlock] with the new PIN succeed and leave the store open
    under the new key, with every field still holding the text it held
    before, which was sealed under the all-zero key. *)
Theorem C6_UpdatePin_on_pinless_store_keeps_old_ciphertexts
    (w : World) (password : string) (write : bool) :
  mu (cfg w) = false ->
  Bytes (key (cfg w)) = repeat x00 32 ->
  ConfigKeyHash (ConfigFile_ (cfg w)) = ""%string ->
  deriveKey (cfg w) password <> repeat x00 32 ->
  (write = true -> can_persist (cfg w) = true) ->
  IsLocked (cfg w) = false
  /\ exists w',
       (UpdatePin password write ;; Lock ;; Unlock password) w = Returns true w'
       /\ IsLocked (cfg w') = false
       /\ Bytes (key (cfg w')) = deriveKey (cfg w) password
       /\ forall f : Field,
            get_field f (ConfigFile_ (cfg w')) = get_field f (ConfigFile_ (cfg w)).
Proof.
  intros Hmu Hzero Hhash Hnew Hw. split; [now apply IsLocked_no_hash |].
  destruct (UpdatePin_Lock_Unlock w password write Hmu Hnew Hw) as (w' & R & C).
  exists w'. split; [exact R |]. rewrite C.
  split; [now apply rekeyed_unlocked |]. split; [apply rekeyed_key |].
  intros f. pose proof (rekeyed_field w password f) as F.
  now rewrite decryptString_rehashed_zero in F by exact Hzero.
Qed.

End update_pin_claims.

(** * The sync engine and the push channel *)
Section engine_claims.
Import models vault msgpack bitwarden.
Context {P : Primitives} {C : Collaborators} {T : CipherTypes}.

(** A message shorter than 5 bytes is passed over: the loop goes on with
    the vault as it was. *)
Lemma readerTurn_short cfg token now (message : bytes) (v : Vault) :
  (length message < 5)%nat -> readerTurn cfg token now message v = Continue v [].
Proof.
  intros H. unfold readerTurn.
  destruct (Nat.ltb_spec (length message) 5) as [_ | H']; [reflexivity | lia].
Qed.

(** A message whose decoding reports failure is passed over as well. *)
Lemma readerTurn_failure cfg token now (message : bytes) (v : Vault) t id :
  websocketMessageType message = Parsed t id false ->
  readerTurn cfg token now message v = Continue v [].
Proof.
  intros E. unfold readerTurn. rewrite E. now destruct (Nat.ltb _ _).
Qed.

(** X2: the structural deviations that the decoding answers with failure: the
    decoder's error or nil, fewer than five elements, a fifth element that
    is no array or an empty one, a first entry that is no map, no [Type],
    a [Type] that is no [int8], and a [Payload] map without [Id]. *)
Lemma parse_failures (messagePack : bytes) :
  match DecodeSlice messagePack with
  | DecodeError | DecodedNil => parseMessageTypeFromMessagePack messagePack = failure
  | Decoded value =>
      ((length value < 5)%nat -> parseMessageTypeFromMessagePack messagePack = failure)
      /\ ((5 <= length value)%nat ->
          match nth 4 value VNil with
          | VSlice [] => parseMessageTypeFromMessagePack messagePack = failure
          | VSlice (VMap value1 :: _) =>
              match lookup "Type" value1 with
              | None => parseMessageTypeFromMessagePack messagePack = failure
              | Some (VInt8 _) =>
                  match lookup "Payload" value1 with
                  | Some (VMap payload) =>
                      lookup "Id" payload = None ->
                      parseMessageTypeFromMessagePack messagePack = failure
                  | _ => True
                  end
              | Some _ => parseMessageTypeFromMessagePack messagePack = failure
              end
          | VSlice (_ :: _) => parseMessageTypeFromMessagePack messagePack = failure
          | _ => parseMessageTypeFromMessagePack messagePack = failure
          end)
  end.
Proof.
  unfold parseMessageTypeFromMessagePack.
  destruct (DecodeSlice messagePack) as [| | value]; try reflexivity.
  split.
  - intros H. destruct (Nat.ltb_spec (length value) 5); [reflexivity | lia].
  - intros H. destruct (Nat.ltb_spec (length value) 5) as [H' | _]; [lia |].
    destruct (nth 4 value VNil) as [| | | | | | | | | | | | | | l | |]; try reflexivity.
    destruct l as [| first rest]; [reflexivity |]. cbn [length Nat.ltb Nat.leb nth].
    destruct first as [| | | | | | | | | | | | | | | value1 |]; try reflexivity.
    destruct (lookup "Type" value1) as [[| | t | | | | | | | | | | | | | |] |];
      try reflexivity.
    destruct (lookup "Payload" value1) as [[| | | | | | | | | | | | | | | payload |] |];
      try exact I.
    now intros ->.
Qed.

(** C1, where the code breaks it: a frame of five bytes or more whose
    payload has the expected shape up to an [Id] that is present but is no
    string makes the decoding panic, and with it the reader loop, whatever
    frames would follow. *)
Theorem C1_frame_with_non_string_id_panics
    cfg token clock (n : nat) (message : bytes) (rest : list bytes) (v : Vault) shown
    (value : list Value) (others : list Value) (value1 payload : list (string * Value))
    (type : Z) (id : Value) :
  (5 <= length message)%nat ->
  DecodeSlice (skipn (lenBufferLen message 0) message) = Decoded value ->
  (5 <= length value)%nat ->
  nth 4 value VNil = VSlice (VMap value1 :: others) ->
  lookup "Type" value1 = Some (VInt8 type) ->
  lookup "Payload" value1 = Some (VMap payload) ->
  lookup "Id" payload = Some id ->
  (forall s, id <> VString s) ->
  exists reason,
    websocketMessageType message = ParsePanics reason
    /\ readerTurn cfg token (clock n) message v = Panic reason
    /\ readerLoop cfg token clock n (message :: rest) v shown = Panicked reason.
Proof.
  intros Hlen Hdec Hval H4 Htype Hpayload Hid Hns.
  exists "interface conversion: interface {} is not string"%string.
  assert (E : websocketMessageType message
              = ParsePanics "interface conversion: interface {} is not string").
  { unfold websocketMessageType, parseMessageTypeFromMessagePack. cbv zeta.
    rewrite Hdec. destruct (Nat.ltb_spec (length value) 5) as [H' | _]; [lia |].
    rewrite H4. cbn [length Nat.ltb Nat.leb nth]. rewrite Htype, Hpayload, Hid.
    destruct id; try reflexivity. exfalso. now apply (Hns s). }
  assert (E' : readerTurn cfg token (clock n) message v
               = Panic "interface conversion: interface {} is not string").
  { unfold readerTurn. destruct (Nat.ltb_spec (length message) 5) as [H' | _]; [lia |].
    now rewrite E. }
  split; [exact E |]. split; [exact E' |].
  cbn [readerLoop]. now rewrite E'.
Qed.

(** C2, where the code breaks it: when the fetch for a cipher-create event
    returns an item whose deleted-timestamp is set, the engine upserts the
    item, which is then in the vault, while for a cipher-update event it
    deletes the id. *)
Theorem C2_create_event_upserts_deleted_item
    cfg token now (cipherid : string) (v : Vault) (fetched : LoginToken) (cipher : Cipher) :
  config.GetToken cfg = Ok fetched ->
  http_GetCipher (AccessToken fetched) cipherid = Ok cipher ->
  IsZero (DeletedDate cipher) = false ->
  (exists v',
     dispatch cfg token now SyncCipherCreate cipherid v = Continue v' []
     /\ v' = SetLastSynced now
               (if Z.eqb (Type_ cipher) CipherNote then AddOrUpdateSecureNote cipher v
                else AddOrUpdateLogin cipher v)
     /\ items v' !! ID cipher
        = Some (if Z.eqb (Type_ cipher) CipherNote then SecureNote cipher else Login cipher))
  /\ dispatch cfg token now SyncCipherUpdate cipherid v = Continue (DeleteCipher cipherid v) [].
Proof.
  intros Htok Hget Hdel. split.
  - eexists. split; [| split; [reflexivity |]].
    + unfold dispatch. cbn. rewrite Htok, Hget. reflexivity.
    + destruct (Z.eqb (Type_ cipher) CipherNote); cbn; apply lookup_insert_eq.
  - unfold dispatch. cbn. rewrite Htok, Hget, Hdel. reflexivity.
Qed.

(** ** Full sync *)

Lemma addCipher_dispatch (v : Vault) (cipher : Cipher) :
  (Type_ cipher = CipherLogin -> addCipher v cipher = AddOrUpdateLogin cipher v)
  /\ (Type_ cipher = CipherNote -> addCipher v cipher = AddOrUpdateSecureNote cipher v)
  /\ (Type_ cipher = CipherSSHKey -> addCipher v cipher = AddOrUpdateSSHKey cipher v)
  /\ (supported cipher = false -> addCipher v cipher = v).
Proof.
  destruct CipherTypes_distinct as (D1 & D2 & D3). unfold addCipher, supported.
  repeat split.
  - intros ->. now rewrite Z.eqb_refl.
  - intros ->. rewrite Z.eqb_refl.
    destruct (Z.eqb_spec CipherNote CipherLogin); [congruence | reflexivity].
  - intros ->. rewrite Z.eqb_refl.
    destruct (Z.eqb_spec CipherSSHKey CipherLogin); [congruence |].
    destruct (Z.eqb_spec CipherSSHKey CipherNote); [congruence | reflexivity].
  - intros H. apply orb_false_iff in H. destruct H as [H H3].
    apply orb_false_iff in H. destruct H as [H1 H2]. now rewrite H1, H2, H3.
Qed.

Lemma addCipher_items (v : Vault) (cipher : Cipher) :
  items (addCipher v cipher)
  = if supported cipher then <[ID cipher := stored_as cipher]> (items v) else items v.
Proof.
  unfold addCipher, supported, stored_as.
  destruct (Z.eqb (Type_ cipher) CipherLogin); [reflexivity |].
  destruct (Z.eqb (Type_ cipher) CipherNote); [reflexivity |].
  destruct (Z.eqb (Type_ cipher) CipherSSHKey); reflexivity.
Qed.

Lemma addCipher_rest (v : Vault) (cipher : Cipher) :
  lastSynced (addCipher v cipher) = lastSynced v
  /\ Keyring_ (addCipher v cipher) = Keyring_ v
  /\ websocketConnected (addCipher v cipher) = websocketConnected v.
Proof.
  unfold addCipher.
  destruct (Z.eqb (Type_ cipher) CipherLogin); [now repeat split |].
  destruct (Z.eqb (Type_ cipher) CipherNote); [now repeat split |].
  destruct (Z.eqb (Type_ cipher) CipherSSHKey); now repeat split.
Qed.

Lemma fold_addCipher_items (ciphers : list Cipher) :
  forall v, items (fold_left addCipher ciphers v) = upserted ciphers (items v).
Proof.
  induction ciphers as [| c rest IH]; intros v; [reflexivity |].
  cbn [fold_left]. rewrite IH, addCipher_items. unfold upserted. cbn [List.filter].
  destruct (supported c); reflexivity.
Qed.

Lemma fold_addCipher_rest (ciphers : list Cipher) :
  forall v, lastSynced (fold_left addCipher ciphers v) = lastSynced v
            /\ Keyring_ (fold_left addCipher ciphers v) = Keyring_ v
            /\ websocketConnected (fold_left addCipher ciphers v) = websocketConnected v.
Proof.
  induction ciphers as [| c rest IH]; intros v; [now repeat split |].
  cbn [fold_left]. destruct (IH (addCipher v c)) as (A & B & D).
  destruct (addCipher_rest v c) as (A' & B' & D'). repeat split; congruence.
Qed.

Lemma find_app_first {A} (f : A -> bool) (l1 l2 : list A) :
  List.find f (l1 ++ l2)
  = match List.find f l1 with Some x => Some x | None => List.find f l2 end.
Proof.
  induction l1 as [| x xs IH]; [reflexivity |]. cbn [app List.find].
  destruct (f x); [reflexivity | exact IH].
Qed.

(** What is under an id after the upserts: the last supported cipher of
    that id, if there is one, else what was there. *)
Lemma upserted_lookup (ciphers : list Cipher) :
  forall (m : gmap string VaultItem) (id : string),
    upserted ciphers m !! id
    = match List.find (fun c => String.eqb (ID c) id) (rev (List.filter supported ciphers)) with
      | Some c => Some (stored_as c)
      | None => m !! id
      end.
Proof.
  unfold upserted. induction (List.filter supported ciphers) as [| c rest IH]; intros m id.
  - reflexivity.
  - cbn [fold_left rev]. rewrite IH, find_app_first.
    destruct (List.find _ (rev rest)) as [c' |]; [reflexivity |].
    cbn [List.find]. destruct (String.eqb_spec (ID c) id) as [<- | Hne].
    + apply lookup_insert_eq.
    + now apply lookup_insert_ne.
Qed.

End engine_claims.

Section full_sync_claims.
Import models vault msgpack bitwarden.
Context {P : Primitives} {C : Collaborators} {T : CipherTypes}.

(** C9, as the code has it: with the snapshot fetched and the keyring
    initialised, [DoFullSync] clears the vault, stamps the last-synced time
    and goes through the snapshot in order, handing each item of type login,
    secure note or SSH key to the upsert of its type and passing over every
    item of another type. So under each id lies the last supported item of
    that id and nothing else, and a second full sync of the same snapshot
    leaves the same items. *)
Theorem C9_DoFullSync_rebuilds_from_supported_items
    (token : string) (now now' : Z) (v : Vault) cfg (userSymmetricKey : option bytes)
    (allowCache : bool) (sync : SyncData) (keyring keyring' : Keyring) :
  Sync token cfg = Ok sync ->
  initKeyring userSymmetricKey (Keyring_ v) sync = Ok keyring ->
  initKeyring userSymmetricKey keyring sync = Ok keyring' ->
  exists v1 v2 : Vault,
    DoFullSync token now v cfg userSymmetricKey allowCache = (None, v1)
    /\ v1 = fold_left addCipher (Ciphers sync)
              (SetLastSynced now (Clear (with_Keyring keyring v)))
    /\ items (Clear (with_Keyring keyring v)) = ∅
    /\ lastSynced v1 = now
    /\ (forall (u : Vault) (cipher : Cipher),
          (Type_ cipher = CipherLogin -> addCipher u cipher = AddOrUpdateLogin cipher u)
          /\ (Type_ cipher = CipherNote ->
                addCipher u cipher = AddOrUpdateSecureNote cipher u)
          /\ (Type_ cipher = CipherSSHKey -> addCipher u cipher = AddOrUpdateSSHKey cipher u)
          /\ (supported cipher = false -> addCipher u cipher = u))
    /\ (forall id : string,
          items v1 !! id
          = match List.find (fun c => String.eqb (ID c) id)
                    (rev (List.filter supported (Ciphers sync))) with
            | Some cipher => Some (stored_as cipher)
            | None => None
            end)
    /\ DoFullSync token now' v1 cfg userSymmetricKey allowCache = (None, v2)
    /\ items v2 = items v1.
Proof.
  intros Hsync Hk Hk'.
  set (v1 := fold_left addCipher (Ciphers sync)
               (SetLastSynced now (Clear (with_Keyring keyring v)))).
  set (v2 := fold_left addCipher (Ciphers sync)
               (SetLastSynced now' (Clear (with_Keyring keyring' v1)))).
  destruct (fold_addCipher_rest (Ciphers sync)
              (SetLastSynced now (Clear (with_Keyring keyring v)))) as (L1 & K1 & _).
  exists v1, v2. repeat split.
  - unfold DoFullSync. now rewrite Hsync, Hk.
  - exact L1.
  - now apply addCipher_dispatch.
  - now apply addCipher_dispatch.
  - now apply addCipher_dispatch.
  - now apply addCipher_dispatch.
  - intros id. subst v1. rewrite fold_addCipher_items, upserted_lookup.
    destruct (List.find _ _); [reflexivity | apply lookup_empty].
  - unfold DoFullSync. rewrite Hsync.
    change (Keyring_ v1) with
      (Keyring_ (fold_left addCipher (Ciphers sync)
                   (SetLastSynced now (Clear (with_Keyring keyring v))))).
    rewrite K1. cbn [Keyring_ SetLastSynced Clear with_items with_Keyring].
    now rewrite Hk'.
  - subst v2 v1. now rewrite !fold_addCipher_items.
Qed.

End full_sync_claims.

(** * The claims on concrete inputs

    Each statement below is closed: it runs the model in the reference
    environment. *)
Section on_concrete_inputs.
Import config.
Local Open Scope string_scope.

(** A frame whose [Id] is an integer meets the hypotheses of C1's theorem. *)
Lemma C1_witness_integer_id :
  exists reason,
    bitwarden.websocketMessageType (C := reference.offline) reference.frame_with_integer_id
    = bitwarden.ParsePanics reason
    /\ bitwarden.readerTurn (P := reference.primitives) (C := reference.offline)
         (T := reference.cipherTypes) (cfg reference.signedIn) reference.noToken 0
         reference.frame_with_integer_id reference.emptyVault
       = bitwarden.Panic reason
    /\ bitwarden.readerLoop (P := reference.primitives) (C := reference.offline)
         (T := reference.cipherTypes) (cfg reference.signedIn) reference.noToken
         (fun _ => 0%Z) 0
         [reference.frame_with_integer_id;
          reference.frame reference.type_delete reference.id_abc]
         reference.emptyVault []
       = bitwarden.Panicked reason.
Proof.
  apply (C1_frame_with_non_string_id_panics (P := reference.primitives)
           (C := reference.offline) (T := reference.cipherTypes)
           (cfg reference.signedIn) reference.noToken (fun _ => 0%Z) 0
           reference.frame_with_integer_id
           [reference.frame reference.type_delete reference.id_abc]
           reference.emptyVault []
           [msgpack.VInt8 1; msgpack.VMap []; msgpack.VNil;
            msgpack.VString "ReceiveMessage";
            msgpack.VSlice
              [msgpack.VMap
                 [("Payload", msgpack.VMap [("Id", msgpack.VInt8 7)]);
                  ("Type", msgpack.VInt8 1)]]]
           []
           [("Payload", msgpack.VMap [("Id", msgpack.VInt8 7)]); ("Type", msgpack.VInt8 1)]
           [("Id", msgpack.VInt8 7)] 1 (msgpack.VInt8 7)).
  - vm_compute. lia.
  - vm_compute. reflexivity.
  - vm_compute. lia.
  - reflexivity.
  - reflexivity.
  - reflexivity.
  - reflexivity.
  - intros s. discriminate.
Defined.

(** A create event for an item in the trash meets the hypotheses of C2's
    theorem: the item ends up in the vault. *)
Lemma C2_witness_trashed_item :
  (exists v',
     bitwarden.dispatch (P := reference.primitives) (C := reference.trashed)
       (T := reference.cipherTypes) (cfg reference.signedIn) reference.noToken 1700000100
       bitwarden.SyncCipherCreate "abc" reference.emptyVault
     = bitwarden.Continue v' []
     /\ v' = vault.SetLastSynced 1700000100
               (vault.AddOrUpdateLogin (reference.item "abc" 1 1700000000)
                  reference.emptyVault)
     /\ vault.items v' !! "abc" = Some (vault.Login (reference.item "abc" 1 1700000000)))
  /\ bitwarden.dispatch (P := reference.primitives) (C := reference.trashed)
       (T := reference.cipherTypes) (cfg reference.signedIn) reference.noToken 1700000100
       bitwarden.SyncCipherUpdate "abc" reference.emptyVault
     = bitwarden.Continue (vault.DeleteCipher "abc" reference.emptyVault) [].
Proof.
  apply (C2_create_event_upserts_deleted_item (P := reference.primitives) (C := reference.trashed)
           (T := reference.cipherTypes) (cfg reference.signedIn) reference.noToken
           1700000100 "abc" reference.emptyVault
           {| AccessToken := "access-1"; ExpiresIn := 0; TokenType := "";
              RefreshToken := ""; Key := "" |}
           (reference.item "abc" 1 1700000000)).
  - vm_compute. reflexivity.
  - reflexivity.
  - reflexivity.
Defined.

(** C3 as stated fails: the token field of the damaged store does not
    decrypt, and after [UpdatePin] it is not empty but holds what it held. *)
Lemma C3_counterexample_failed_field_is_kept :
  decryptString (P := reference.primitives) (cfg reference.damaged)
    (EncryptedToken (ConfigFile_ (cfg reference.damaged))) = Err ErrCorruptInput
  /\ exists w',
       UpdatePin (P := reference.primitives) "2222" false reference.damaged = Returns tt w'
       /\ EncryptedToken (ConfigFile_ (cfg w')) = "!corrupt!"
       /\ EncryptedToken (ConfigFile_ (cfg w')) <> "".
Proof.
  split; [vm_compute; reflexivity |].
  exists (reference.run (UpdatePin (P := reference.primitives) "2222" false)
            reference.damaged).
  split; [vm_compute; reflexivity |].
  split; [vm_compute; reflexivity | vm_compute; discriminate].
Qed.

(** The damaged store meets the hypotheses of C3's theorem; its client id
    is sealed again and reads the same under the new key. *)
Lemma C3_witness_damaged_store :
  exists w',
    UpdatePin (P := reference.primitives) "2222" true reference.damaged = Returns tt w'
    /\ Bytes (key (cfg w'))
       = deriveKey (P := reference.primitives) (cfg reference.damaged) "2222"
    /\ forall f : Field,
         match decryptString (P := reference.primitives) (cfg reference.damaged)
                 (get_field f (ConfigFile_ (cfg reference.damaged))) with
         | Ok plaintext =>
             (exists n, length n = 12%nat
                /\ get_field f (ConfigFile_ (cfg w'))
                   = sealed (P := reference.primitives)
                       (deriveKey (P := reference.primitives) (cfg reference.damaged) "2222")
                       n plaintext)
             /\ decryptString (P := reference.primitives) (cfg w')
                  (get_field f (ConfigFile_ (cfg w'))) = Ok plaintext
         | Err _ =>
             get_field f (ConfigFile_ (cfg w'))
             = get_field f (ConfigFile_ (cfg reference.damaged))
         end.
Proof.
  apply (C3_UpdatePin_reencrypts_or_keeps (P := reference.primitives)
           reference.damaged "2222" true).
  - vm_compute. reflexivity.
  - vm_compute. discriminate.
  - vm_compute. discriminate.
  - intros _. vm_compute. reflexivity.
Defined.


(** The bytes 0xff 0x00 are no UTF-8; the store with a PIN meets the
    hypotheses of C5's theorem. *)
Lemma C5_witness_not_utf8 :
  exists (encrypted : string) (w' : World),
    encryptString (P := reference.primitives) (String "255" (String "000" ""))
      reference.pinned = Returns (Ok encrypted) w'
    /\ cfg w' = cfg reference.pinned
    /\ decryptString (P := reference.primitives) (cfg w') encrypted
       = Ok (String "255" (String "000" "")).
Proof.
  apply (C5_encrypt_then_decrypt (P := reference.primitives) reference.pinned).
  - vm_compute. reflexivity.
  - vm_compute. reflexivity.
Defined.

(** The first-run store with a client id meets the hypotheses of C6's
    theorem. *)
Lemma C6_witness_first_run_store :
  IsLocked (cfg reference.fresh_with_client) = false
  /\ exists w',
       (UpdatePin (P := reference.primitives) "1234" true ;; Lock ;;
        Unlock (P := reference.primitives) "1234") reference.fresh_with_client
       = Returns true w'
       /\ IsLocked (cfg w') = false
       /\ Bytes (key (cfg w'))
          = deriveKey (P := reference.primitives) (cfg reference.fresh_with_client) "1234"
       /\ forall f : Field,
            get_field f (ConfigFile_ (cfg w'))
            = get_field f (ConfigFile_ (cfg reference.fresh_with_client)).
Proof.
  apply (C6_UpdatePin_on_pinless_store_keeps_old_ciphertexts (P := reference.primitives)
           reference.fresh_with_client "1234" true).
  - vm_compute. reflexivity.
  - vm_compute. reflexivity.
  - vm_compute. reflexivity.
  - vm_compute. discriminate.
  - intros _. vm_compute. reflexivity.
Defined.

(** C6 on that store, run to the end: the client id reads "client-1"
    before, and after [UpdatePin], [Lock] and [Unlock] with the new PIN its
    decryption fails. *)
Lemma C6_first_run_store_loses_client_id :
  GetClientID (P := reference.primitives) (cfg reference.fresh_with_client) = Ok "client-1"
  /\ exists w',
       (UpdatePin (P := reference.primitives) "1234" true ;; Lock ;;
        Unlock (P := reference.primitives) "1234") reference.fresh_with_client
       = Returns true w'
       /\ IsLocked (cfg w') = false
       /\ GetClientID (P := reference.primitives) (cfg w') = Err ErrMessageAuthentication.
Proof.
  split; [vm_compute; reflexivity |].
  exists (reference.run
            (UpdatePin (P := reference.primitives) "1234" true ;; Lock ;;
             Unlock (P := reference.primitives) "1234")
            reference.fresh_with_client).
  split; [vm_compute; reflexivity |].
  split; vm_compute; reflexivity.
Qed.

(** The locked store meets the hypothesis of C7's theorem. *)
Lemma C7_witness_locked_store :
  IsLocked (cfg reference.locked) = true
  /\ GetToken (P := reference.primitives) (cfg reference.locked) = Err ErrConfigLocked
  /\ SetClientID (P := reference.primitives) "client-2" reference.locked
     = Returns (Some ErrConfigLocked) reference.locked.
Proof.
  assert (L : IsLocked (cfg reference.locked) = true) by (vm_compute; reflexivity).
  destruct (C7_locked_accessors_fail (P := reference.primitives) reference.locked L)
    as ((G & _) & (_ & S & _)).
  split; [exact L |]. split; [exact G | apply S].
Defined.

(** C9 as stated fails: the card of the snapshot is not upserted. *)
Lemma C9_counterexample_card_is_skipped :
  exists v1,
    bitwarden.DoFullSync (C := reference.syncing) (T := reference.cipherTypes)
      "access-1" 1700000100 reference.emptyVault (cfg reference.signedIn) None false
    = (None, v1)
    /\ In (reference.item "card-1" 3 0) (models.Ciphers reference.three_items)
    /\ vault.items v1 !! "card-1" = None
    /\ vault.items v1 !! "login-1" = Some (vault.Login (reference.item "login-1" 1 0)).
Proof.
  exists (snd (bitwarden.DoFullSync (C := reference.syncing) (T := reference.cipherTypes)
                 "access-1" 1700000100 reference.emptyVault (cfg reference.signedIn)
                 None false)).
  split; [vm_compute; reflexivity |]. split; [simpl; tauto |].
  split; vm_compute; reflexivity.
Qed.

(** That snapshot meets the hypotheses of C9's theorem. *)
Lemma C9_witness_snapshot :
  exists v1 v2 : vault.Vault,
    bitwarden.DoFullSync (C := reference.syncing) (T := reference.cipherTypes)
      "access-1" 1700000100 reference.emptyVault (cfg reference.signedIn) None false
    = (None, v1)
    /\ vault.lastSynced v1 = 1700000100%Z
    /\ bitwarden.DoFullSync (C := reference.syncing) (T := reference.cipherTypes)
         "access-1" 1700000200 v1 (cfg reference.signedIn) None false
       = (None, v2)
    /\ vault.items v2 = vault.items v1.
Proof.
  destruct (C9_DoFullSync_rebuilds_from_supported_items (C := reference.syncing)
              (T := reference.cipherTypes) "access-1" 1700000100 1700000200
              reference.emptyVault (cfg reference.signedIn) None false
              reference.three_items
              (vault.Keyring_ reference.emptyVault) (vault.Keyring_ reference.emptyVault)
              eq_refl eq_refl eq_refl)
    as (v1 & v2 & R1 & _ & _ & L1 & _ & _ & R2 & I2).
  exists v1, v2. repeat split; assumption.
Defined.

(** The store with a PIN has no token yet and meets the hypothesis of C10's
    theorem. *)
Lemma C10_witness_no_token :
  IsLocked (cfg reference.pinned) = false
  /\ EncryptedToken (ConfigFile_ (cfg reference.pinned)) = ""
  /\ GetToken (P := reference.primitives) (cfg reference.pinned)
     = Err ErrCiphertextTooShort.
Proof.
  assert (L : IsLocked (cfg reference.pinned) = false) by (vm_compute; reflexivity).
  assert (E : EncryptedToken (ConfigFile_ (cfg reference.pinned)) = "")
    by (vm_compute; reflexivity).
  destruct (C10_empty_field_getters (P := reference.primitives) (cfg reference.pinned) L)
    as (_ & _ & G & _).
  split; [exact L |]. split; [exact E |].
  rewrite (G E). vm_compute. reflexivity.
Defined.

End on_concrete_inputs.

(** * Further properties of the push channel and the sync engine *)
Section engine_extras.
Import models vault msgpack bitwarden.
Context {P : Primitives} {C : Collaborators} {T : CipherTypes}.

(** X1: a frame shorter than 5 bytes, and a frame whose decoding reports
    failure, are passed over: the vault is as it was, nothing is shown, and
    the reader loop goes on with the frames that follow. *)
Theorem discarded_frame_keeps_the_loop_going
    cfg token clock (n : nat) (message : bytes) (rest : list bytes) (v : Vault) shown :
  ((length message < 5)%nat
   \/ exists t id, websocketMessageType message = Parsed t id false) ->
  readerTurn cfg token (clock n) message v = Continue v []
  /\ readerLoop cfg token clock n (message :: rest) v shown
     = readerLoop cfg token clock (S n) rest v shown.
Proof.
  intros H.
  assert (E : readerTurn cfg token (clock n) message v = Continue v []).
  { destruct H as [H | (t & id & H)].
    - now apply readerTurn_short.
    - now apply (readerTurn_failure _ _ _ _ _ t id). }
  split; [exact E |]. cbn [readerLoop]. rewrite E. now rewrite app_nil_r.
Qed.

(** X3: a cipher-delete event removes the item of that id and no other, and
    doing it again changes nothing. *)
Theorem delete_event_removes_exactly_that_item
    cfg token now (cipherid : string) (v : Vault) :
  dispatch cfg token now SyncCipherDelete cipherid v = Continue (DeleteCipher cipherid v) []
  /\ items (DeleteCipher cipherid v) !! cipherid = None
  /\ (forall other : string,
        other <> cipherid -> items (DeleteCipher cipherid v) !! other = items v !! other)
  /\ DeleteCipher cipherid (DeleteCipher cipherid v) = DeleteCipher cipherid v.
Proof.
  split; [reflexivity |]. split; [apply lookup_delete_eq |]. split.
  - intros other Hne. cbn. now apply lookup_delete_ne.
  - unfold DeleteCipher, with_items. cbn. f_equal.
    apply map_eq. intros i. destruct (decide (i = cipherid)) as [-> | Hne].
    + now rewrite !lookup_delete_eq.
    + now rewrite !lookup_delete_ne.
Qed.

End engine_extras.

Section extras_on_concrete_inputs.
Import config.
Local Open Scope string_scope.

(** A keep-alive of one byte meets the hypothesis of the theorem on
    discarded frames: the delete that follows it is carried out. *)
Lemma discarded_frame_witness :
  bitwarden.readerTurn (P := reference.primitives) (C := reference.offline)
    (T := reference.cipherTypes) (cfg reference.signedIn) reference.noToken 0
    [x06] reference.emptyVault
  = bitwarden.Continue reference.emptyVault []
  /\ bitwarden.readerLoop (P := reference.primitives) (C := reference.offline)
       (T := reference.cipherTypes) (cfg reference.signedIn) reference.noToken
       (fun _ => 0%Z) 0
       [[x06]; reference.frame reference.type_delete reference.id_abc]
       reference.emptyVault []
     = bitwarden.readerLoop (P := reference.primitives) (C := reference.offline)
         (T := reference.cipherTypes) (cfg reference.signedIn) reference.noToken
         (fun _ => 0%Z) 1
         [reference.frame reference.type_delete reference.id_abc]
         reference.emptyVault [].
Proof.
  apply (discarded_frame_keeps_the_loop_going (P := reference.primitives)
           (C := reference.offline) (T := reference.cipherTypes)
           (cfg reference.signedIn) reference.noToken (fun _ => 0%Z) 0 [x06]).
  left. vm_compute. lia.
Defined.

(** The store with the PIN 1111 meets the hypotheses of the restoring
    theorem: its client id reads the same after the change to 2222. *)
Lemma UpdatePin_Lock_Unlock_restores_witness :
  exists w',
    (UpdatePin (P := reference.primitives) "2222" true ;; Lock ;;
     Unlock (P := reference.primitives) "2222") reference.pinned = Returns true w'
    /\ IsLocked (cfg w') = false
    /\ forall (f : Field) (plaintext : string),
         decryptString (P := reference.primitives) (cfg reference.pinned)
           (get_field f (ConfigFile_ (cfg reference.pinned))) = Ok plaintext ->
         decryptString (P := reference.primitives) (cfg w')
           (get_field f (ConfigFile_ (cfg w'))) = Ok plaintext.
Proof.
  apply (UpdatePin_Lock_Unlock_restores (P := reference.primitives)
           reference.pinned "2222" true).
  - vm_compute. reflexivity.
  - vm_compute. discriminate.
  - vm_compute. discriminate.
  - intros _. vm_compute. reflexivity.
Defined.

End extras_on_concrete_inputs.

(** * Further properties of the credential store *)
Section store_runs.
Import config.
Context {P : Primitives}.


(** [Lock] on a store that is not locked. *)
Lemma Lock_run (w : World) :
  mu (cfg w) = false -> IsLocked (cfg w) = false ->
  Lock w =
    Returns tt
      (with_notifications
         (notifications w ++ [{| title := "Goldwarden"; body := "Vault Locked" |}])
         (with_cfg (with_key (Wipe (key (cfg w))) (cfg w)) w)).
Proof.
  intros Hmu L. destruct w as [[m k cf u] fl pc ns rnd rp]. cbn [cfg mu] in Hmu. subst u.
  unfold Lock.
  erewrite bind_Returns; [| reflexivity].
  erewrite bind_Returns; [| reflexivity].
  change (IsLocked _) with
    (IsLocked {| useMemguard := m; key := k; ConfigFile_ := cf; mu := false |}).
  cbn [cfg] in L. rewrite L.
  reflexivity.
Qed.

(** [Lock] on a locked store. *)
Lemma Lock_locked (w : World) :
  mu (cfg w) = false -> IsLocked (cfg w) = true -> Lock w = Returns tt w.
Proof.
  intros Hmu L. destruct w as [[m k cf u] fl pc ns rnd rp]. cbn [cfg mu] in Hmu. subst u.
  unfold Lock.
  erewrite bind_Returns; [| reflexivity].
  erewrite bind_Returns; [| reflexivity].
  change (IsLocked _) with
    (IsLocked {| useMemguard := m; key := k; ConfigFile_ := cf; mu := false |}).
  cbn [cfg] in L. rewrite L.
  reflexivity.
Qed.

Lemma Purge_run (w : World) :
  mu (cfg w) = false -> Purge w = Returns tt (with_cfg (purged (cfg w)) w).
Proof.
  intros Hmu. destruct w as [[m k cf u] fl pc ns rnd rp]. cbn [cfg mu] in Hmu. subst u.
  reflexivity.
Qed.

Lemma WriteConfig_run (w : World) :
  mu (cfg w) = false -> can_persist (cfg w) = true ->
  WriteConfig w = WriteConfig_result w.
Proof.
  intros Hmu Hp. unfold WriteConfig, WriteConfig_result, bind, get_cfg, ret, can_persist in *.
  destruct (DoNotPersistConfig _) eqn:D; [reflexivity |].
  cbn [orb] in Hp. apply negb_true_iff in Hp.
  unfold mu_Lock. rewrite Hmu. unfold os_Remove, os_WriteFile, mu_Unlock, written, config_path.
  destruct w as [[m k cf u] [fl wr] pc ns r rp]. cbn in *. subst u.
  destruct wr; cbn; change (String.length "/goldwarden.json") with 16%nat;
    rewrite Hp; reflexivity.
Qed.

Lemma WriteConfig_short_path (w : World) :
  mu (cfg w) = false ->
  DoNotPersistConfig (RuntimeConfig_ (ConfigFile_ (cfg w))) = false ->
  (String.length (config_path (cfg w)) < 16)%nat ->
  WriteConfig w = Panics "slice bounds out of range".
Proof.
  intros Hmu D Hp. unfold WriteConfig, bind, get_cfg, ret. rewrite D.
  unfold mu_Lock. rewrite Hmu. unfold os_Remove, config_path in *.
  apply Nat.ltb_lt in Hp.
  destruct w as [[m k cf u] [fl wr] pc ns r rp]. cbn in *.
  destruct wr; cbn; change (String.length "/goldwarden.json") with 16%nat;
    rewrite Hp; reflexivity.
Qed.

(** The text [encryptString] produces is never the empty string. *)
Lemma sealed_nonempty (k n : bytes) (data : string) :
  length n = 12%nat -> sealed k n data <> ""%string.
Proof.
  intros N. unfold sealed, base64.EncodeToString.
  destruct n as [| a [| b [| c rest]]]; try discriminate N.
  cbn [app base64.encode]. discriminate.
Qed.

Lemma IsLocked_sealed_into (f : Field) (data : string) (w : World) :
  IsLocked (cfg (sealed_into f data w)) = IsLocked (cfg w).
Proof. apply IsLocked_ext; now destruct f. Qed.

Lemma get_field_sealed_into (f : Field) (data : string) (w : World) :
  get_field f (ConfigFile_ (cfg (sealed_into f data w)))
  = sealed (Bytes (key (cfg w))) (next_nonce w) data.
Proof. unfold sealed_into, assigned. cbn. apply get_set_field_same. Qed.

(** The field a setter sealed the data into decrypts to the data. *)
Lemma decryptString_sealed_into (f : Field) (data : string) (w : World) :
  IsLocked (cfg w) = false ->
  length (Bytes (key (cfg w))) = 32%nat ->
  decryptString (cfg (sealed_into f data w))
    (get_field f (ConfigFile_ (cfg (sealed_into f data w)))) = Ok data.
Proof.
  intros L K. rewrite get_field_sealed_into.
  rewrite (decryptString_ext _ (cfg w)) by now destruct f.
  apply decryptString_sealed; [exact L | exact K | apply next_nonce_length].
Qed.

(** The common run of the setters: the data is sealed into the field and
    [WriteConfig] is called. *)
Lemma set_field_run (f : Field) (data : string) (w : World) :
  IsLocked (cfg w) = false ->
  length (Bytes (key (cfg w))) = 32%nat ->
  (do r <- encryptString data;
   match r with
   | Err e => ret (Some e)
   | Ok encrypted => set_cfg_field f encrypted ;; WriteConfig
   end) w = WriteConfig (sealed_into f data w).
Proof.
  intros L K. erewrite bind_Returns; [| now apply encryptString_unlocked].
  reflexivity.
Qed.

End store_runs.

Section store_extras.
Import config.
Context {P : Primitives}.



(** X6: [Lock] on a store that is not locked overwrites the key with zeros
    and shows "Vault Locked"; the record, the file on disk and the cached
    PIN stay as they are. When the store has a PIN it is locked afterwards
    and a second [Lock] changes nothing; when it has none, it is still not
    locked. *)
Theorem Lock_wipes_the_key_only (w : World) :
  mu (cfg w) = false ->
  IsLocked (cfg w) = false ->
  exists w',
    Lock w = Returns tt w'
    /\ Bytes (key (cfg w')) = repeat x00 (length (Bytes (key (cfg w))))
    /\ ConfigFile_ (cfg w') = ConfigFile_ (cfg w)
    /\ mu (cfg w') = false
    /\ fs w' = fs w
    /\ pin_cache w' = pin_cache w
    /\ notifications w'
       = notifications w ++ [{| title := "Goldwarden"; body := "Vault Locked" |}]
    /\ (HasPin (cfg w) = true -> length (Bytes (key (cfg w))) = 32%nat ->
          IsLocked (cfg w') = true /\ Lock w' = Returns tt w')
    /\ (HasPin (cfg w) = false -> IsLocked (cfg w') = false).
Proof.
  intros Hmu L. eexists. split; [now apply Lock_run |].
  cbn [cfg with_notifications with_cfg key with_key Wipe Bytes contents ConfigFile_ mu
       fs pin_cache notifications].
  assert (Z : HasPin (cfg w) = true -> length (Bytes (key (cfg w))) = 32%nat ->
              IsLocked (with_key (Wipe (key (cfg w))) (cfg w)) = true).
  { intros H K. apply IsLocked_true. cbn [key with_key Wipe Bytes contents ConfigFile_].
    split; [change (contents (key (cfg w))) with (Bytes (key (cfg w))); now rewrite K |].
    now apply HasPin_true. }
  split; [reflexivity |]. split; [reflexivity |]. split; [exact Hmu |].
  split; [reflexivity |]. split; [reflexivity |]. split; [reflexivity |]. split.
  - intros H K. split; [now apply Z |]. apply Lock_locked; [exact Hmu | now apply Z].
  - intros H. unfold IsLocked, HasPin in *. cbn [ConfigFile_ with_key].
    rewrite H. apply andb_false_r.
Qed.

(** X7: on a store that is open under the key of a PIN, [Lock] and then
    [Unlock] with that PIN succeed and bring back the key, with the record
    untouched and the PIN cached; [Unlock] with a PIN whose digest is not
    the stored one fails and leaves the store locked. *)
Theorem Lock_then_Unlock_reopens (w : World) (password : string) :
  mu (cfg w) = false ->
  Bytes (key (cfg w)) = deriveKey (cfg w) password ->
  ConfigKeyHash (ConfigFile_ (cfg w)) = keyDigest (deriveKey (cfg w) password) ->
  deriveKey (cfg w) password <> repeat x00 32 ->
  (exists w',
     (Lock ;; Unlock password) w = Returns true w'
     /\ Bytes (key (cfg w')) = Bytes (key (cfg w))
     /\ ConfigFile_ (cfg w') = ConfigFile_ (cfg w)
     /\ IsLocked (cfg w') = false
     /\ pin_cache w' = Some (bytes_of_string password))
  /\ (forall other : string,
        keyDigest (deriveKey (cfg w) other) <> ConfigKeyHash (ConfigFile_ (cfg w)) ->
        exists w',
          (Lock ;; Unlock other) w = Returns false w'
          /\ IsLocked (cfg w') = true
          /\ Bytes (key (cfg w')) = repeat x00 32).
Proof.
  intros Hmu K H Hnz.
  assert (L : IsLocked (cfg w) = false).
  { apply IsLocked_key_nonzero. now rewrite K. }
  set (w1 := with_notifications
               (notifications w ++ [{| title := "Goldwarden"; body := "Vault Locked" |}])
               (with_cfg (with_key (Wipe (key (cfg w))) (cfg w)) w)).
  assert (R1 : Lock w = Returns tt w1) by now apply Lock_run.
  assert (M1 : mu (cfg w1) = false) by exact Hmu.
  assert (Z1 : Bytes (key (cfg w1)) = repeat x00 32).
  { cbn. change (contents (key (cfg w))) with (Bytes (key (cfg w))).
    now rewrite K, deriveKey_length. }
  assert (L1 : IsLocked (cfg w1) = true).
  { apply IsLocked_true. split; [exact Z1 |]. cbn [w1 cfg with_notifications with_cfg
      ConfigFile_ with_key]. rewrite H. apply keyDigest_nonempty. }
  split.
  - exists (unlocked_by password w1). split.
    + erewrite bind_Returns; [| exact R1]. apply Unlock_match; [exact M1 | exact L1 |].
      cbn. now rewrite H.
    + cbn. repeat split. { now rewrite K. }
      apply IsLocked_key_nonzero. cbn. exact Hnz.
  - intros other D. exists w1. split; [| split; [exact L1 | exact Z1]].
    erewrite bind_Returns; [| exact R1]. apply Unlock_mismatch; [exact M1 | exact L1 |].
    exact D.
Qed.

(** X8: [Purge] empties the six secret fields and the config-key-hash and
    installs the all-zero key, whether the store was locked or not. The
    store is then neither locked nor logged in; the endpoints, the device
    identifier and the runtime configuration are kept; the file on disk,
    the cached PIN and the notifications are not touched; a second [Purge]
    changes nothing. *)
Theorem Purge_empties_the_store_in_memory (w : World) :
  mu (cfg w) = false ->
  exists w',
    Purge w = Returns tt w'
    /\ (forall f : Field, get_field f (ConfigFile_ (cfg w')) = ""%string)
    /\ ConfigKeyHash (ConfigFile_ (cfg w')) = ""%string
    /\ Bytes (key (cfg w')) = repeat x00 32
    /\ IsLocked (cfg w') = false
    /\ IsLoggedIn (cfg w') = false
    /\ IdentityUrl (ConfigFile_ (cfg w')) = IdentityUrl (ConfigFile_ (cfg w))
    /\ ApiUrl (ConfigFile_ (cfg w')) = ApiUrl (ConfigFile_ (cfg w))
    /\ NotificationsUrl (ConfigFile_ (cfg w')) = NotificationsUrl (ConfigFile_ (cfg w))
    /\ VaultUrl (ConfigFile_ (cfg w')) = VaultUrl (ConfigFile_ (cfg w))
    /\ DeviceUUID (ConfigFile_ (cfg w')) = DeviceUUID (ConfigFile_ (cfg w))
    /\ RuntimeConfig_ (ConfigFile_ (cfg w')) = RuntimeConfig_ (ConfigFile_ (cfg w))
    /\ fs w' = fs w
    /\ pin_cache w' = pin_cache w
    /\ notifications w' = notifications w
    /\ GetClientID (cfg w') = Ok ""%string
    /\ GetToken (cfg w') = Err ErrCiphertextTooShort
    /\ Purge w' = Returns tt w'.
Proof.
  intros Hmu. exists (with_cfg (purged (cfg w)) w).
  split; [now apply Purge_run |].
  split; [intros f; now destruct f |].
  repeat split.
  rewrite Purge_run by exact Hmu. reflexivity.
Qed.

End store_extras.

(** * The setters *)
Section setter_runs.
Import config.
Context {P : Primitives}.

Lemma WriteConfig_outcome (w : World) :
  mu (cfg w) = false -> can_persist (cfg w) = true ->
  exists e w',
    WriteConfig w = Returns e w'
    /\ cfg w' = cfg w /\ pin_cache w' = pin_cache w /\ in_step w e w'.
Proof.
  intros Hmu Hp. rewrite WriteConfig_run by assumption. unfold WriteConfig_result.
  destruct (DoNotPersistConfig _) eqn:D.
  - exists None, w. unfold in_step. rewrite D. now repeat split.
  - destruct (writable (fs w)) eqn:Wr.
    + exists None, (written w). unfold in_step. rewrite D. split; [reflexivity |].
      split; [reflexivity |]. split; [reflexivity |]. split.
      * unfold on_disk, written. cbn. apply lookup_insert_eq.
      * intros path Hne. unfold written. cbn.
        rewrite lookup_insert_ne by congruence. now rewrite lookup_delete_ne by congruence.
    + exists (Some ErrIO), w. now repeat split.
Qed.

Lemma only_field_assigned (f : Field) (v : string) (w : World) :
  only_field f w (assigned f v w).
Proof.
  unfold only_field, assigned. cbn. repeat split; try now destruct f.
  intros g Hne. now apply get_set_field_other.
Qed.

Lemma only_field_sealed_into (f : Field) (data : string) (w : World) :
  only_field f w (sealed_into f data w).
Proof.
  unfold only_field, sealed_into, assigned, drawn. cbn. repeat split; try now destruct f.
  intros g Hne. now apply get_set_field_other.
Qed.

Lemma only_field_cfg (f : Field) (w w1 w2 : World) :
  only_field f w w1 -> cfg w2 = cfg w1 -> pin_cache w2 = pin_cache w1 -> only_field f w w2.
Proof. unfold only_field. intros H -> ->. exact H. Qed.

Lemma in_step_fs (w0 w : World) (e : option error) (w' : World) :
  fs w = fs w0 -> cfg w' = cfg w ->
  RuntimeConfig_ (ConfigFile_ (cfg w)) = RuntimeConfig_ (ConfigFile_ (cfg w0)) ->
  in_step w e w' -> in_step w0 e w'.
Proof.
  unfold in_step, config_path. intros F C R. now rewrite F, R.
Qed.

(** What every setter comes to on a store that is not locked: the world
    [w2] with the field assigned is handed to [WriteConfig]. *)
Lemma setter_outcome (f : Field) (w w2 : World) :
  mu (cfg w) = false -> can_persist (cfg w) = true ->
  only_field f w w2 -> fs w2 = fs w ->
  exists e w',
    WriteConfig w2 = Returns e w'
    /\ cfg w' = cfg w2 /\ only_field f w w' /\ in_step w e w'.
Proof.
  intros Hmu Hp O F. destruct O as (O1 & O2 & O3 & O4 & O5 & O6 & O7).
  destruct (WriteConfig_outcome w2) as (e & w' & R & C & Pc & S).
  - now rewrite O6.
  - unfold can_persist in *. now rewrite O5.
  - exists e, w'. split; [exact R |]. split; [exact C |]. split.
    + unfold only_field. rewrite C, Pc. now repeat split.
    + apply (in_step_fs w w2); assumption.
Qed.

Lemma SetClientID_run (clientID : string) (w : World) :
  IsLocked (cfg w) = false -> length (Bytes (key (cfg w))) = 32%nat ->
  SetClientID clientID w
  = WriteConfig (if String.eqb clientID "" then assigned FClientID "" w
                 else sealed_into FClientID clientID w).
Proof.
  intros L K. unfold SetClientID. erewrite bind_Returns; [| reflexivity]. rewrite L.
  destruct (String.eqb clientID ""); [reflexivity | now apply set_field_run].
Qed.

Lemma SetClientSecret_run (clientSecret : string) (w : World) :
  IsLocked (cfg w) = false -> length (Bytes (key (cfg w))) = 32%nat ->
  SetClientSecret clientSecret w
  = WriteConfig (if String.eqb clientSecret "" then assigned FClientSecret "" w
                 else sealed_into FClientSecret clientSecret w).
Proof.
  intros L K. unfold SetClientSecret. erewrite bind_Returns; [| reflexivity]. rewrite L.
  destruct (String.eqb clientSecret ""); [reflexivity | now apply set_field_run].
Qed.

Lemma SetUserSymmetricKey_run (key : bytes) (w : World) :
  IsLocked (cfg w) = false -> length (Bytes (config.key (cfg w))) = 32%nat ->
  SetUserSymmetricKey key w
  = WriteConfig (sealed_into FUserSymmetricKey (string_of_bytes key) w).
Proof.
  intros L K. unfold SetUserSymmetricKey. erewrite bind_Returns; [| reflexivity].
  rewrite L. now apply set_field_run.
Qed.

Lemma SetMasterPasswordHash_run (hash : bytes) (w : World) :
  IsLocked (cfg w) = false -> length (Bytes (key (cfg w))) = 32%nat ->
  SetMasterPasswordHash hash w
  = WriteConfig (sealed_into FMasterPasswordHash (string_of_bytes hash) w).
Proof.
  intros L K. unfold SetMasterPasswordHash. erewrite bind_Returns; [| reflexivity].
  rewrite L. erewrite bind_Returns; [| now apply encryptString_unlocked]. reflexivity.
Qed.

Lemma SetMasterKey_run (key : bytes) (w : World) :
  IsLocked (cfg w) = false -> length (Bytes (config.key (cfg w))) = 32%nat ->
  SetMasterKey key w = WriteConfig (sealed_into FMasterKey (string_of_bytes key) w).
Proof.
  intros L K. unfold SetMasterKey. erewrite bind_Returns; [| reflexivity].
  rewrite L. now apply set_field_run.
Qed.

Lemma SetToken_run (token : LoginToken) (tokenJson : string) (w : World) :
  IsLocked (cfg w) = false -> length (Bytes (key (cfg w))) = 32%nat ->
  json_Marshal_LoginToken token = Ok tokenJson ->
  SetToken token w = WriteConfig (sealed_into FToken tokenJson w).
Proof.
  intros L K J. unfold SetToken. erewrite bind_Returns; [| reflexivity].
  rewrite L, J. now apply set_field_run.
Qed.

Lemma bytes_of_string_of_bytes (b : bytes) : bytes_of_string (string_of_bytes b) = b.
Proof. apply list_byte_of_string_of_list_byte. Qed.

(** Reading a field that a setter sealed. *)
Lemma read_sealed (f : Field) (data : string) (w w' : World) :
  IsLocked (cfg w) = false -> length (Bytes (key (cfg w))) = 32%nat ->
  cfg w' = cfg (sealed_into f data w) ->
  IsLocked (cfg w') = false
  /\ decryptString (cfg w') (get_field f (ConfigFile_ (cfg w'))) = Ok data
  /\ get_field f (ConfigFile_ (cfg w')) <> ""%string.
Proof.
  intros L K ->. split; [now rewrite IsLocked_sealed_into |].
  split; [now apply decryptString_sealed_into |].
  rewrite get_field_sealed_into. apply sealed_nonempty, next_nonce_length.
Qed.

End setter_runs.

Section setter_extras.
Import config.
Context {P : Primitives}.

(** X9: on a store that is not locked, a setter followed by its getter
    gives the value back, for every value: any client id and client secret
    (the empty string included, which is stored as the empty field), any
    byte sequence as user symmetric key, master password hash and master
    key, and for a token what [json.Unmarshal] makes of what [json.Marshal]
    produced. This holds in memory whether or not the write to disk went
    through. *)
Theorem setters_then_getters (w : World) :
  mu (cfg w) = false ->
  IsLocked (cfg w) = false ->
  length (Bytes (key (cfg w))) = 32%nat ->
  can_persist (cfg w) = true ->
  (forall clientID : string,
     exists e w', SetClientID clientID w = Returns e w'
                  /\ GetClientID (cfg w') = Ok clientID)
  /\ (forall clientSecret : string,
        exists e w', SetClientSecret clientSecret w = Returns e w'
                     /\ GetClientSecret (cfg w') = Ok clientSecret)
  /\ (forall key : bytes,
        exists e w', SetUserSymmetricKey key w = Returns e w'
                     /\ GetUserSymmetricKey (cfg w') = Ok key)
  /\ (forall hash : bytes,
        exists e w', SetMasterPasswordHash hash w = Returns e w'
                     /\ GetMasterPasswordHash (cfg w') = Ok hash)
  /\ (forall key : bytes,
        exists e w', SetMasterKey key w = Returns e w'
                     /\ GetMasterKey (cfg w') = Ok key)
  /\ (forall (token : LoginToken) (tokenJson : string),
        json_Marshal_LoginToken token = Ok tokenJson ->
        exists e w', SetToken token w = Returns e w'
                     /\ GetToken (cfg w') = json_Unmarshal_LoginToken tokenJson).
Proof.
  intros Hmu L K Hp.
  assert (S : forall f data,
             exists e w', WriteConfig (sealed_into f data w) = Returns e w'
                          /\ cfg w' = cfg (sealed_into f data w)).
  { intros f data.
    destruct (setter_outcome f w (sealed_into f data w) Hmu Hp
                (only_field_sealed_into f data w) eq_refl) as (e & w' & R & C & _).
    now exists e, w'. }
  split; [| split; [| split; [| split; [| split]]]].
  - intros clientID. rewrite SetClientID_run by assumption.
    destruct (String.eqb_spec clientID "") as [-> | Hne].
    + destruct (setter_outcome FClientID w (assigned FClientID "" w) Hmu Hp
                  (only_field_assigned _ _ _) eq_refl) as (e & w' & R & C & _).
      exists e, w'. split; [exact R |]. unfold GetClientID. rewrite C.
      change (IsLocked (cfg (assigned FClientID "" w))) with (IsLocked (cfg w)).
      now rewrite L.
    + destruct (S FClientID clientID) as (e & w' & R & C). exists e, w'.
      split; [exact R |].
      destruct (read_sealed FClientID clientID w w' L K C) as (L' & D & Ne).
      unfold GetClientID. rewrite L'. cbn [get_field] in D, Ne.
      apply String.eqb_neq in Ne. now rewrite Ne, D.
  - intros clientSecret. rewrite SetClientSecret_run by assumption.
    destruct (String.eqb_spec clientSecret "") as [-> | Hne].
    + destruct (setter_outcome FClientSecret w (assigned FClientSecret "" w) Hmu Hp
                  (only_field_assigned _ _ _) eq_refl) as (e & w' & R & C & _).
      exists e, w'. split; [exact R |]. unfold GetClientSecret. rewrite C.
      change (IsLocked (cfg (assigned FClientSecret "" w))) with (IsLocked (cfg w)).
      now rewrite L.
    + destruct (S FClientSecret clientSecret) as (e & w' & R & C). exists e, w'.
      split; [exact R |].
      destruct (read_sealed FClientSecret clientSecret w w' L K C) as (L' & D & Ne).
      unfold GetClientSecret. rewrite L'. cbn [get_field] in D, Ne.
      apply String.eqb_neq in Ne. now rewrite Ne, D.
  - intros key. rewrite SetUserSymmetricKey_run by assumption.
    destruct (S FUserSymmetricKey (string_of_bytes key)) as (e & w' & R & C).
    exists e, w'. split; [exact R |].
    destruct (read_sealed _ _ w w' L K C) as (L' & D & _).
    unfold GetUserSymmetricKey. rewrite L'. cbn [get_field] in D.
    now rewrite D, bytes_of_string_of_bytes.
  - intros hash. rewrite SetMasterPasswordHash_run by assumption.
    destruct (S FMasterPasswordHash (string_of_bytes hash)) as (e & w' & R & C).
    exists e, w'. split; [exact R |].
    destruct (read_sealed _ _ w w' L K C) as (L' & D & _).
    unfold GetMasterPasswordHash. rewrite L'. cbn [get_field] in D.
    now rewrite D, bytes_of_string_of_bytes.
  - intros key. rewrite SetMasterKey_run by assumption.
    destruct (S FMasterKey (string_of_bytes key)) as (e & w' & R & C).
    exists e, w'. split; [exact R |].
    destruct (read_sealed _ _ w w' L K C) as (L' & D & _).
    unfold GetMasterKey. rewrite L'. cbn [get_field] in D.
    now rewrite D, bytes_of_string_of_bytes.
  - intros token tokenJson J. rewrite (SetToken_run token tokenJson) by assumption.
    destruct (S FToken tokenJson) as (e & w' & R & C).
    exists e, w'. split; [exact R |].
    destruct (read_sealed _ _ w w' L K C) as (L' & D & _).
    unfold GetToken. rewrite L'. cbn [get_field] in D. now rewrite D.
Qed.


(** X11: [WriteConfig] cuts the sixteen characters of "/goldwarden.json"
    off the configured path, so on a store that is to be persisted and
    whose path is shorter than that (the empty path of a zero runtime
    configuration, as [DefaultConfig] sets it, included) it panics, and so
    does every setter on such a store when it is not locked. *)
Theorem short_config_path_panics (w : World) :
  mu (cfg w) = false ->
  DoNotPersistConfig (RuntimeConfig_ (ConfigFile_ (cfg w))) = false ->
  (String.length (config_path (cfg w)) < 16)%nat ->
  WriteConfig w = Panics "slice bounds out of range"
  /\ (IsLocked (cfg w) = false -> length (Bytes (key (cfg w))) = 32%nat ->
      (forall clientID, SetClientID clientID w = Panics "slice bounds out of range")
      /\ (forall clientSecret,
            SetClientSecret clientSecret w = Panics "slice bounds out of range")
      /\ (forall key, SetUserSymmetricKey key w = Panics "slice bounds out of range")
      /\ (forall hash, SetMasterPasswordHash hash w = Panics "slice bounds out of range")
      /\ (forall key, SetMasterKey key w = Panics "slice bounds out of range")
      /\ (forall token tokenJson,
            json_Marshal_LoginToken token = Ok tokenJson ->
            SetToken token w = Panics "slice bounds out of range")).
Proof.
  intros Hmu D Hp. split; [now apply WriteConfig_short_path |]. intros L K.
  assert (S : forall f data,
             WriteConfig (sealed_into f data w) = Panics "slice bounds out of range").
  { intros f data. apply WriteConfig_short_path; [exact Hmu | | ]; now destruct f. }
  assert (A : forall f,
             WriteConfig (assigned f "" w) = Panics "slice bounds out of range").
  { intros f. apply WriteConfig_short_path; [exact Hmu | | ]; now destruct f. }
  split; [| split; [| split; [| split; [| split]]]].
  - intros clientID. rewrite SetClientID_run by assumption.
    destruct (String.eqb clientID ""); [apply A | apply S].
  - intros clientSecret. rewrite SetClientSecret_run by assumption.
    destruct (String.eqb clientSecret ""); [apply A | apply S].
  - intros key. rewrite SetUserSymmetricKey_run by assumption. apply S.
  - intros hash. rewrite SetMasterPasswordHash_run by assumption. apply S.
  - intros key. rewrite SetMasterKey_run by assumption. apply S.
  - intros token tokenJson J. rewrite (SetToken_run token tokenJson) by assumption. apply S.
Qed.

End setter_extras.

(** * The key of the store keeps its length *)
Section key_invariant.
Import config.
Context {P : Primitives}.

Lemma keeps_ret {A} (I : World -> Prop) (a : A) : keeps I (ret a).
Proof. intros w a' w' H E. inversion E. now subst. Qed.

Lemma keeps_bind {A B} (I : World -> Prop) (m : M A) (k : A -> M B) :
  keeps I m -> (forall a, keeps I (k a)) -> keeps I (bind m k).
Proof.
  intros Hm Hk w b w' H E. unfold bind in E.
  destruct (m w) as [a w1 | |] eqn:R; try discriminate.
  exact (Hk a w1 b w' (Hm w a w1 H R) E).
Qed.

(** A step that leaves the key alone keeps its length. *)
Lemma keeps_same_key {A} (m : M A) :
  (forall w a w', m w = Returns a w' -> key (cfg w') = key (cfg w)) -> keeps key32 m.
Proof. intros H w a w' I E. unfold key32. now rewrite (H w a w' E). Qed.

Lemma keeps_get_cfg : keeps key32 get_cfg.
Proof. apply keeps_same_key. intros w a w' E. now inversion E. Qed.

Lemma keeps_mu_Lock : keeps key32 mu_Lock.
Proof.
  apply keeps_same_key. intros w a w' E. unfold mu_Lock in E.
  destruct (mu (cfg w)); [discriminate |]. now inversion E.
Qed.

Lemma keeps_mu_Unlock : keeps key32 mu_Unlock.
Proof.
  apply keeps_same_key. intros w a w' E. unfold mu_Unlock in E.
  destruct (mu (cfg w)); [| discriminate]. now inversion E.
Qed.

Lemma keeps_Notify (t b : string) : keeps key32 (Notify t b).
Proof. apply keeps_same_key. intros w a w' E. now inversion E. Qed.

Lemma keeps_SetPin (pin : bytes) : keeps key32 (SetPin pin).
Proof. apply keeps_same_key. intros w a w' E. now inversion E. Qed.

Lemma keeps_GetRandomBytes (n : nat) : keeps key32 (GetRandomBytes n).
Proof. apply keeps_same_key. intros w a w' E. now inversion E. Qed.

Lemma keeps_os_Remove (path : string) : keeps key32 (os_Remove path).
Proof.
  apply keeps_same_key. intros w a w' E. unfold os_Remove in E.
  destruct (writable (fs w)); now inversion E.
Qed.

Lemma keeps_os_WriteFile (path : string) (doc : ConfigFile) :
  keeps key32 (os_WriteFile path doc).
Proof.
  apply keeps_same_key. intros w a w' E. unfold os_WriteFile in E.
  destruct (writable (fs w)); now inversion E.
Qed.

Lemma keeps_set_cfg_field (f : Field) (v : string) : keeps key32 (set_cfg_field f v).
Proof. apply keeps_same_key. intros w a w' E. now inversion E. Qed.

(** A step that installs a key of 32 bytes. *)
Lemma keeps_new_key (k : LockedBuffer) :
  length (Bytes k) = 32%nat -> keeps key32 (modify_cfg (with_key k)).
Proof. intros K w a w' _ E. inversion E. exact K. Qed.

Lemma keeps_encryptString (data : string) : keeps key32 (encryptString data).
Proof.
  unfold encryptString. apply keeps_bind; [apply keeps_get_cfg |]. intros c.
  destruct (IsLocked c); [apply keeps_ret |].
  destruct (subtle.NewChaCha20Poly1305 _); [| apply keeps_ret].
  apply keeps_bind; [apply keeps_GetRandomBytes |]. intros n.
  destruct (subtle.Encrypt _ _ _ _); apply keeps_ret.
Qed.

Lemma keeps_WriteConfig : keeps key32 WriteConfig.
Proof.
  unfold WriteConfig. apply keeps_bind; [apply keeps_get_cfg |]. intros c.
  destruct (DoNotPersistConfig _); [apply keeps_ret |].
  apply keeps_bind; [apply keeps_mu_Lock |]. intros _.
  apply keeps_bind; [apply keeps_os_Remove |]. intros _.
  destruct (Nat.ltb _ _); [intros w a w' _ E; discriminate |].
  apply keeps_bind; [apply keeps_os_WriteFile |]. intros written.
  apply keeps_bind; [apply keeps_mu_Unlock |]. intros _. apply keeps_ret.
Qed.

Lemma keeps_reencrypt (plaintexts : list (Field * result string)) :
  keeps key32 (reencrypt plaintexts).
Proof.
  induction plaintexts as [| [f [p | e]] rest IH]; cbn [reencrypt].
  - apply keeps_ret.
  - apply keeps_bind; [apply keeps_encryptString |]. intros [encrypted | e].
    + apply keeps_bind; [apply keeps_set_cfg_field | intros _; exact IH].
    + apply keeps_bind; [apply keeps_set_cfg_field | intros _; apply keeps_ret].
  - exact IH.
Qed.

(** The shape the six setters share after their check of the lock. *)
Lemma keeps_seal_and_write (f : Field) (data : string) (on_error : error -> M (option error)) :
  (forall e, keeps key32 (on_error e)) ->
  keeps key32
    (do r <- encryptString data;
     match r with
     | Err e => on_error e
     | Ok encrypted => set_cfg_field f encrypted ;; WriteConfig
     end).
Proof.
  intros H. apply keeps_bind; [apply keeps_encryptString |]. intros [encrypted | e].
  - apply keeps_bind; [apply keeps_set_cfg_field | intros _; apply keeps_WriteConfig].
  - apply H.
Qed.

(** X12: the key of the store has 32 bytes in the store [DefaultConfig]
    constructs, and every operation of the store that returns keeps it
    so: [Unlock], [Lock], [Purge], [UpdatePin], [WriteConfig] and the six
    setters. With such a key the encryption in a store that is not locked
    always succeeds, so the error branches behind it, the unlocking of a
    mutex that is not held in [SetMasterPasswordHash] among them, are not
    taken. *)
Theorem key_stays_32_bytes :
  (forall (w : World) (useMemguard : bool) (deviceUUID : string),
     cfg w = DefaultConfig useMemguard deviceUUID -> key32 w)
  /\ (forall password, keeps key32 (Unlock password))
  /\ keeps key32 Lock
  /\ keeps key32 Purge
  /\ (forall password write, keeps key32 (UpdatePin password write))
  /\ keeps key32 WriteConfig
  /\ (forall token, keeps key32 (SetToken token))
  /\ (forall clientID, keeps key32 (SetClientID clientID))
  /\ (forall clientSecret, keeps key32 (SetClientSecret clientSecret))
  /\ (forall key, keeps key32 (SetUserSymmetricKey key))
  /\ (forall hash, keeps key32 (SetMasterPasswordHash hash))
  /\ (forall key, keeps key32 (SetMasterKey key))
  /\ (forall (w : World) (data : string),
        key32 w -> IsLocked (cfg w) = false ->
        exists encrypted w',
          encryptString data w = Returns (Ok encrypted) w' /\ key32 w').
Proof.
  split; [intros w m u E; unfold key32; now rewrite E |].
  split.
  { intros password. unfold Unlock.
    apply keeps_bind; [apply keeps_mu_Lock |]. intros _.
    apply keeps_bind; [apply keeps_get_cfg |]. intros c.
    destruct (negb (IsLocked c)).
    - apply keeps_bind; [apply keeps_mu_Unlock | intros _; apply keeps_ret].
    - cbv zeta. destruct (negb _).
      + apply keeps_bind; [apply keeps_mu_Unlock | intros _; apply keeps_ret].
      + apply keeps_bind; [apply keeps_new_key, deriveKey_length |]. intros _.
        apply keeps_bind; [apply keeps_Notify |]. intros _.
        apply keeps_bind; [apply keeps_SetPin |]. intros _.
        apply keeps_bind; [apply keeps_mu_Unlock | intros _; apply keeps_ret]. }
  split.
  { unfold Lock.
    apply keeps_bind; [apply keeps_mu_Lock |]. intros _.
    apply keeps_bind; [apply keeps_get_cfg |]. intros c.
    destruct (IsLocked c); [apply keeps_mu_Unlock |].
    apply keeps_bind.
    - intros w a w' I E. inversion E. unfold key32 in *. cbn.
      change (contents (key (cfg w))) with (Bytes (key (cfg w))).
      now rewrite I, repeat_length.
    - intros _. apply keeps_bind; [apply keeps_Notify | intros _; apply keeps_mu_Unlock]. }
  split.
  { unfold Purge.
    apply keeps_bind; [apply keeps_mu_Lock |]. intros _.
    apply keeps_bind; [| intros _; apply keeps_mu_Unlock].
    intros w a w' _ E. inversion E. reflexivity. }
  split.
  { intros password write. unfold UpdatePin.
    apply keeps_bind; [apply keeps_mu_Lock |]. intros _.
    apply keeps_bind; [apply keeps_get_cfg |]. intros c. cbv zeta.
    apply keeps_bind.
    { apply keeps_same_key. intros w a w' E. now inversion E. }
    intros _. apply keeps_bind; [apply keeps_get_cfg |]. intros c'.
    apply keeps_bind; [apply keeps_new_key, deriveKey_length |]. intros _.
    apply keeps_bind; [apply keeps_reencrypt |]. intros completed.
    destruct (negb completed); [apply keeps_ret |].
    apply keeps_bind; [apply keeps_mu_Unlock |]. intros _.
    apply keeps_bind.
    { destruct write; [apply keeps_WriteConfig | apply keeps_ret]. }
    intros [e |]; [apply keeps_ret | apply keeps_SetPin]. }
  split; [apply keeps_WriteConfig |].
  split.
  { intros token. unfold SetToken. apply keeps_bind; [apply keeps_get_cfg |]. intros c.
    destruct (IsLocked c); [apply keeps_ret |].
    destruct (json_Marshal_LoginToken token); [| apply keeps_ret].
    apply keeps_seal_and_write. intros e. apply keeps_ret. }
  split.
  { intros clientID. unfold SetClientID. apply keeps_bind; [apply keeps_get_cfg |].
    intros c. destruct (IsLocked c); [apply keeps_ret |].
    destruct (String.eqb clientID "").
    - apply keeps_bind; [apply keeps_set_cfg_field | intros _; apply keeps_WriteConfig].
    - apply keeps_seal_and_write. intros e. apply keeps_ret. }
  split.
  { intros clientSecret. unfold SetClientSecret. apply keeps_bind; [apply keeps_get_cfg |].
    intros c. destruct (IsLocked c); [apply keeps_ret |].
    destruct (String.eqb clientSecret "").
    - apply keeps_bind; [apply keeps_set_cfg_field | intros _; apply keeps_WriteConfig].
    - apply keeps_seal_and_write. intros e. apply keeps_ret. }
  split.
  { intros key. unfold SetUserSymmetricKey. apply keeps_bind; [apply keeps_get_cfg |].
    intros c. destruct (IsLocked c); [apply keeps_ret |].
    apply keeps_seal_and_write. intros e. apply keeps_ret. }
  split.
  { intros hash. unfold SetMasterPasswordHash. apply keeps_bind; [apply keeps_get_cfg |].
    intros c. destruct (IsLocked c); [apply keeps_ret |].
    apply keeps_seal_and_write. intros e.
    apply keeps_bind; [apply keeps_mu_Unlock | intros _; apply keeps_ret]. }
  split.
  { intros key. unfold SetMasterKey. apply keeps_bind; [apply keeps_get_cfg |].
    intros c. destruct (IsLocked c); [apply keeps_ret |].
    apply keeps_seal_and_write. intros e. apply keeps_ret. }
  intros w data K L. eexists _, _. split; [now apply encryptString_unlocked | exact K].
Qed.

End key_invariant.

Section update_pin_extras.
Import config.
Context {P : Primitives}.



End update_pin_extras.

(** * Further properties of the events of the push channel *)
Section event_extras.
Import models vault msgpack bitwarden.
Context {P : Primitives} {C : Collaborators} {T : CipherTypes}.

Lemma with_Keyring_same (v : Vault) : with_Keyring (Keyring_ v) v = v.
Proof. now destruct v. Qed.

(** [DoFullSync] as the reader loop calls it, without a user symmetric
    key. *)
Lemma DoFullSync_without_key (token : string) (now : Z) (v : Vault) cfg (allowCache : bool) :
  DoFullSync token now v cfg None allowCache
  = match Sync token cfg with
    | Err err => (Some err, v)
    | Ok sync => (None, fold_left addCipher (Ciphers sync) (SetLastSynced now (Clear v)))
    end.
Proof.
  unfold DoFullSync. destruct (Sync token cfg); [| reflexivity].
  cbn [initKeyring]. now rewrite with_Keyring_same.
Qed.

(** X14: an event of a type the switch has no case with an effect for
    (folders, sends, organization keys, settings, the response to an auth
    request, the unused login-delete, and every number that is no known
    type) leaves the vault as it was, shows nothing, and the reader loop
    goes on. *)
Theorem unsupported_events_change_nothing
    cfg token now (mt1 : Z) (cipherid : string) (v : Vault) :
  ~ In mt1 [SyncCipherUpdate; SyncCipherCreate; SyncCiphers; SyncVault;
            SyncCipherDelete; LogOut; AuthRequest] ->
  dispatch cfg token now mt1 cipherid v = Continue v [].
Proof.
  intros H. unfold dispatch.
  destruct (Z.eqb_spec mt1 SyncCiphers) as [-> | _]; [exfalso; apply H; simpl; tauto |].
  destruct (Z.eqb_spec mt1 SyncVault) as [-> | _]; [exfalso; apply H; simpl; tauto |].
  cbn [orb].
  destruct (Z.eqb_spec mt1 SyncCipherDelete) as [-> | _]; [exfalso; apply H; simpl; tauto |].
  destruct (Z.eqb_spec mt1 SyncCipherUpdate) as [-> | _]; [exfalso; apply H; simpl; tauto |].
  destruct (Z.eqb_spec mt1 SyncCipherCreate) as [-> | _]; [exfalso; apply H; simpl; tauto |].
  destruct (_ || _ || _); [reflexivity |].
  destruct (Z.eqb_spec mt1 LogOut) as [-> | _]; [exfalso; apply H; simpl; tauto |].
  destruct (Z.eqb_spec mt1 AuthRequest) as [-> | _]; [exfalso; apply H; simpl; tauto |].
  reflexivity.
Qed.

(** X15: while the store is locked, the events that need the session token
    (cipher-create, cipher-update and the two bulk-refresh signals) are
    dropped with the vault as it was, but a cipher-delete event is carried
    out all the same: it does not ask the store. *)
Theorem events_while_the_store_is_locked
    cfg token now (cipherid : string) (v : Vault) :
  config.IsLocked cfg = true ->
  dispatch cfg token now SyncCipherUpdate cipherid v = Continue v []
  /\ dispatch cfg token now SyncCipherCreate cipherid v = Continue v []
  /\ dispatch cfg token now SyncCiphers cipherid v = Continue v []
  /\ dispatch cfg token now SyncVault cipherid v = Continue v []
  /\ dispatch cfg token now SyncCipherDelete cipherid v = Continue (DeleteCipher cipherid v) [].
Proof.
  intros L.
  assert (G : config.GetToken cfg = Err ErrConfigLocked).
  { unfold config.GetToken. now rewrite L. }
  unfold dispatch. cbn. rewrite G. now repeat split.
Qed.

(** X16: when the fetch of the item of a cipher-create or cipher-update
    event fails, the event is dropped: the vault and its last-synced time
    are as they were, and the reader loop goes on with the next frame. *)
Theorem failed_fetch_drops_the_event
    cfg token now (mt1 : Z) (cipherid : string) (v : Vault)
    (fetched : LoginToken) (e : error) :
  mt1 = SyncCipherUpdate \/ mt1 = SyncCipherCreate ->
  config.GetToken cfg = Ok fetched ->
  http_GetCipher (AccessToken fetched) cipherid = Err e ->
  dispatch cfg token now mt1 cipherid v = Continue v [].
Proof.
  intros [-> | ->] G F; unfold dispatch; cbn; now rewrite G, F.
Qed.

(** X17: a bulk-refresh signal runs a full sync with the token read from
    the store at that moment and without a user symmetric key. When the
    snapshot cannot be fetched the reader returns, giving the connection
    up, with the vault as it was; otherwise the vault is rebuilt from the
    snapshot, its keyring untouched, and the loop goes on. *)
Theorem bulk_refresh_runs_a_full_sync
    cfg token now (mt1 : Z) (cipherid : string) (v : Vault) (fetched : LoginToken) :
  mt1 = SyncCiphers \/ mt1 = SyncVault ->
  config.GetToken cfg = Ok fetched ->
  (forall e, Sync (AccessToken fetched) cfg = Err e ->
             dispatch cfg token now mt1 cipherid v = Return_ v)
  /\ (forall sync, Sync (AccessToken fetched) cfg = Ok sync ->
        exists v',
          dispatch cfg token now mt1 cipherid v = Continue v' []
          /\ v' = fold_left addCipher (Ciphers sync) (SetLastSynced now (Clear v))
          /\ items v' = upserted (Ciphers sync) ∅
          /\ lastSynced v' = now
          /\ Keyring_ v' = Keyring_ v).
Proof.
  intros H G. split.
  - intros e S. destruct H as [-> | ->]; unfold dispatch; cbn; rewrite G;
      rewrite DoFullSync_without_key, S; reflexivity.
  - intros sync S. eexists. split; [| split; [reflexivity |]].
    + destruct H as [-> | ->]; unfold dispatch; cbn; rewrite G;
        rewrite DoFullSync_without_key, S; reflexivity.
    + destruct (fold_addCipher_rest (Ciphers sync) (SetLastSynced now (Clear v)))
        as (A & B & _).
      split; [now rewrite fold_addCipher_items |]. split; [exact A | exact B].
Qed.


(** What a turn of the switch leaves of the keyring and of the connected
    flag. *)
Lemma dispatch_keeps cfg token now (mt1 : Z) (cipherid : string) (v : Vault) :
  match dispatch cfg token now mt1 cipherid v with
  | Continue v' _ | Return_ v' =>
      Keyring_ v' = Keyring_ v /\ websocketConnected v' = websocketConnected v
  | _ => True
  end.
Proof.
  unfold dispatch.
  destruct (_ || _).
  { destruct (config.GetToken cfg) as [fetched | e]; [| now split].
    rewrite DoFullSync_without_key. destruct (Sync _ _) as [sync | e]; [| now split].
    destruct (fold_addCipher_rest (Ciphers sync) (SetLastSynced now (Clear v)))
      as (_ & B & D). now split. }
  destruct (Z.eqb mt1 SyncCipherDelete); [now split |].
  destruct (Z.eqb mt1 SyncCipherUpdate).
  { destruct (config.GetToken cfg) as [fetched | e]; [| now split].
    destruct (http_GetCipher _ _) as [cipher | e]; [| now split].
    destruct (negb _); [now split |].
    destruct (Z.eqb (Type_ cipher) CipherNote); now split. }
  destruct (Z.eqb mt1 SyncCipherCreate).
  { destruct (config.GetToken cfg) as [fetched | e]; [| now split].
    destruct (http_GetCipher _ _) as [cipher | e]; [| now split].
    destruct (Z.eqb (Type_ cipher) CipherNote); now split. }
  destruct (_ || _ || _); [now split |].
  destruct (Z.eqb mt1 LogOut); [exact I |].
  destruct (Z.eqb mt1 AuthRequest); [| now split].
  destruct (http_GetAuthRequest _ _); now split.
Qed.

Lemma readerTurn_keeps cfg token now (message : bytes) (v : Vault) :
  match readerTurn cfg token now message v with
  | Continue v' _ | Return_ v' =>
      Keyring_ v' = Keyring_ v /\ websocketConnected v' = websocketConnected v
  | _ => True
  end.
Proof.
  unfold readerTurn. destruct (Nat.ltb _ _); [now split |].
  destruct (websocketMessageType message) as [t id [|] | reason];
    [apply dispatch_keeps | now split | exact I].
Qed.

Lemma readerLoop_keeps cfg token clock (messages : list bytes) :
  forall (n : nat) (v : Vault) shown,
    match readerLoop cfg token clock n messages v shown with
    | ReadError v' _ | Returned v' _ =>
        Keyring_ v' = Keyring_ v /\ websocketConnected v' = websocketConnected v
    | _ => True
    end.
Proof.
  induction messages as [| message rest IH]; intros n v shown; cbn [readerLoop].
  - now split.
  - pose proof (readerTurn_keeps cfg token (clock n) message v) as K.
    destruct (readerTurn cfg token (clock n) message v) as [v1 more | v1 | code | reason];
      try exact K.
    specialize (IH (S n) v1 (shown ++ more)). destruct K as (K1 & K2).
    destruct (readerLoop cfg token clock (S n) rest v1 (shown ++ more))
      as [v' shown' | v' shown' | |]; try exact I;
      destruct IH as (A & B); rewrite A, B; now split.
Qed.

(** X19: whatever frames arrive, the reader loop changes neither the
    keyring of the vault nor its connected flag, and what it has shown
    stays shown. *)
Theorem reader_loop_keeps_keyring_and_flag
    cfg token clock (messages : list bytes) :
  forall (n : nat) (v : Vault) shown,
    match readerLoop cfg token clock n messages v shown with
    | ReadError v' shown' | Returned v' shown' =>
        Keyring_ v' = Keyring_ v
        /\ websocketConnected v' = websocketConnected v
        /\ exists more, shown' = shown ++ more
    | _ => True
    end.
Proof.
  induction messages as [| message rest IH]; intros n v shown.
  - cbn [readerLoop]. split; [reflexivity |]. split; [reflexivity |].
    exists []. now rewrite app_nil_r.
  - pose proof (readerLoop_keeps cfg token clock (message :: rest) n v shown) as K.
    cbn [readerLoop] in *.
    destruct (readerTurn cfg token (clock n) message v) as [v1 more | v1 | code | reason].
    + specialize (IH (S n) v1 (shown ++ more)).
      destruct (readerLoop cfg token clock (S n) rest v1 (shown ++ more))
        as [v' shown' | v' shown' | |]; try exact I;
        destruct IH as (_ & _ & more' & ->); destruct K as (K1 & K2);
        (split; [exact K1 |]); (split; [exact K2 |]); exists (more ++ more');
        now rewrite app_assoc.
    + destruct K as (K1 & K2). split; [exact K1 |]. split; [exact K2 |].
      exists []. now rewrite app_nil_r.
    + exact I.
    + exact I.
Qed.

End event_extras.

(** * Framing *)
Section framing_extras.
Import models vault msgpack bitwarden.
Context {P : Primitives} {C : Collaborators} {T : CipherTypes}.

Lemma lenBufferLen_prefix (prefix : bytes) (last : byte) (payload : bytes) :
  Forall (fun b => N.land (Byte.to_N b) 128 <> 0) prefix ->
  N.land (Byte.to_N last) 128 = 0 ->
  forall i : nat, lenBufferLen (prefix ++ last :: payload) i = (i + length prefix + 1)%nat.
Proof.
  intros Hp Hl. induction Hp as [| b rest Hb _ IH]; intros i; cbn [app lenBufferLen length].
  - rewrite Hl. cbn. lia.
  - apply N.eqb_neq in Hb. rewrite Hb, IH. lia.
Qed.

Lemma lenBufferLen_no_end (message : bytes) :
  Forall (fun b => N.land (Byte.to_N b) 128 <> 0) message ->
  forall i : nat, lenBufferLen message i = 0%nat.
Proof.
  induction 1 as [| b rest Hb _ IH]; intros i; cbn [lenBufferLen]; [reflexivity |].
  apply N.eqb_neq in Hb. now rewrite Hb.
Qed.

(** X20: the length prefix of a frame ends with the first byte whose high
    bit is clear; that byte and the bytes before it are cut off and what
    follows is decoded, whatever number the prefix encodes. In a message
    with no such byte nothing is cut off: the whole message is decoded. *)
Theorem length_prefix_is_cut_off (prefix : bytes) (last : byte) (payload : bytes) :
  Forall (fun b => N.land (Byte.to_N b) 128 <> 0) prefix ->
  N.land (Byte.to_N last) 128 = 0 ->
  lenBufferLen (prefix ++ last :: payload) 0 = S (length prefix)
  /\ websocketMessageType (prefix ++ last :: payload)
     = parseMessageTypeFromMessagePack payload
  /\ websocketMessageType prefix = parseMessageTypeFromMessagePack prefix.
Proof.
  intros Hp Hl.
  assert (E : lenBufferLen (prefix ++ last :: payload) 0 = S (length prefix)).
  { rewrite (lenBufferLen_prefix prefix last payload Hp Hl). lia. }
  split; [exact E |]. split.
  - unfold websocketMessageType. cbv zeta. rewrite E.
    assert (Sk : skipn (S (length prefix)) (prefix ++ last :: payload) = payload).
    { clear. induction prefix as [| b rest IH]; [reflexivity | exact IH]. }
    now rewrite Sk.
  - unfold websocketMessageType. cbv zeta. now rewrite lenBufferLen_no_end.
Qed.

(** X21: a frame of five bytes or more whose payload has the expected
    shape (an array of five elements or more, the fifth an array whose
    first element is a map with an [int8] under [Type] and, under
    [Payload], a map with a string under [Id]) is decoded to that type and
    that id, and the reader loop hands them to the switch. When [Payload]
    is missing or is no map, the frame is decoded to the type and the
    empty id. *)
Theorem well_formed_frame_is_dispatched
    cfg token now (message : bytes) (v : Vault)
    (value others : list Value) (value1 : list (string * Value)) (type : Z) (id : string) :
  (5 <= length message)%nat ->
  DecodeSlice (skipn (lenBufferLen message 0) message) = Decoded value ->
  (5 <= length value)%nat ->
  nth 4 value VNil = VSlice (VMap value1 :: others) ->
  lookup "Type" value1 = Some (VInt8 type) ->
  match lookup "Payload" value1 with
  | Some (VMap payload) => lookup "Id" payload = Some (VString id)
  | _ => id = ""%string
  end ->
  websocketMessageType message = Parsed type id true
  /\ readerTurn cfg token now message v = dispatch cfg token now type id v.
Proof.
  intros Hlen Hdec Hval H4 Htype Hid.
  assert (E : websocketMessageType message = Parsed type id true).
  { unfold websocketMessageType, parseMessageTypeFromMessagePack. cbv zeta.
    rewrite Hdec. destruct (Nat.ltb_spec (length value) 5) as [H' | _]; [lia |].
    rewrite H4. cbn [length Nat.ltb Nat.leb nth]. rewrite Htype.
    destruct (lookup "Payload" value1) as [[| | | | | | | | | | | | | | | payload |] |];
      try (now subst id).
    now rewrite Hid. }
  split; [exact E |]. unfold readerTurn.
  destruct (Nat.ltb_spec (length message) 5) as [H' | _]; [lia |]. now rewrite E.
Qed.

End framing_extras.

(** * The connection of the push channel *)
Section channel_extras.
Import models vault bitwarden channel.
Context {P : Primitives} {C : Collaborators} {T : CipherTypes} {N : Network}.


End channel_extras.

(** * Unlocking at startup *)
Section try_unlock_extras.
Import config vault startup.
Context {P : Primitives} {U : Unlocking}.

(** [TryUnlock] once the PIN to try is known. *)
Lemma TryUnlock_run (v : Vault) (w : World) (pin : string) :
  pin_tried w = Ok pin ->
  TryUnlock v w =
    (do success <- Unlock pin;
     if negb success then ret (Some ErrInvalidPIN, v)
     else
       do cfg <- get_cfg;
       if IsLoggedIn cfg then
         match GetUserSymmetricKey cfg with
         | Ok userKey =>
             match account_key v userKey with
             | Err err => ret (Some (ErrPassed err), v)
             | Ok key =>
                 ret (None,
                      bitwarden.with_Keyring (UnlockWithAccountKey (Keyring_ v) key) v)
             end
         | Err err => Lock ;; ret (Some (ErrPassed err), v)
         end
       else ret (None, v)) w.
Proof.
  intros E. unfold TryUnlock. erewrite bind_Returns; [| reflexivity].
  unfold pin_tried in E. cbv zeta. now rewrite E.
Qed.

(** X22: when no PIN can be had (the cache cannot be read, or the prompt
    fails), or the PIN had does not open the locked store, [TryUnlock]
    returns the error ("invalid PIN" for a wrong PIN) and changes nothing:
    the store is still locked, the vault and its keyring are as they were,
    and a wrong PIN is not cached. *)
Theorem TryUnlock_fails_without_the_right_pin (v : Vault) (w : World) :
  mu (cfg w) = false ->
  IsLocked (cfg w) = true ->
  match pin_tried w with
  | Err e => TryUnlock v w = Returns (Some (ErrPassed e), v) w
  | Ok pin =>
      keyDigest (deriveKey (cfg w) pin) <> ConfigKeyHash (ConfigFile_ (cfg w)) ->
      TryUnlock v w = Returns (Some ErrInvalidPIN, v) w
  end.
Proof.
  intros Hmu L. destruct (pin_tried w) as [pin | e] eqn:E.
  - intros D. rewrite (TryUnlock_run v w pin E).
    erewrite bind_Returns; [| now apply Unlock_mismatch]. reflexivity.
  - unfold TryUnlock. erewrite bind_Returns; [| reflexivity].
    unfold pin_tried in E. cbv zeta. now rewrite E.
Qed.

Lemma IsLoggedIn_unlocked_by (pin : string) (w : World) :
  IsLoggedIn (cfg (unlocked_by pin w)) = IsLoggedIn (cfg w).
Proof. reflexivity. Qed.

(** The right PIN for a locked store that is not logged in. *)
Lemma TryUnlock_not_logged_in (v : Vault) (w : World) (pin : string) :
  mu (cfg w) = false ->
  IsLocked (cfg w) = true ->
  pin_tried w = Ok pin ->
  keyDigest (deriveKey (cfg w) pin) = ConfigKeyHash (ConfigFile_ (cfg w)) ->
  IsLoggedIn (cfg w) = false ->
  TryUnlock v w = Returns (None, v) (unlocked_by pin w).
Proof.
  intros Hmu L E D N. rewrite (TryUnlock_run v w pin E).
  erewrite bind_Returns; [| now apply Unlock_match].
  cbn [negb]. erewrite bind_Returns; [| reflexivity].
  now rewrite IsLoggedIn_unlocked_by, N.
Qed.

(** X23: with the right PIN for a locked store, [TryUnlock] opens it. When
    the store is not logged in, that is all. When it is logged in and the
    user symmetric key decrypts and makes an account key, the keyring of
    the vault is unlocked with that key and nothing else of the vault
    changes. *)
Theorem TryUnlock_opens_store_and_keyring (v : Vault) (w : World) (pin : string) :
  mu (cfg w) = false ->
  IsLocked (cfg w) = true ->
  pin_tried w = Ok pin ->
  keyDigest (deriveKey (cfg w) pin) = ConfigKeyHash (ConfigFile_ (cfg w)) ->
  deriveKey (cfg w) pin <> repeat x00 32 ->
  IsLocked (cfg (unlocked_by pin w)) = false
  /\ (IsLoggedIn (cfg w) = false ->
        TryUnlock v w = Returns (None, v) (unlocked_by pin w))
  /\ (forall (userKey : bytes) (key : SymmetricEncryptionKey),
        IsLoggedIn (cfg w) = true ->
        GetUserSymmetricKey (cfg (unlocked_by pin w)) = Ok userKey ->
        account_key v userKey = Ok key ->
        exists v',
          TryUnlock v w = Returns (None, v') (unlocked_by pin w)
          /\ Keyring_ v' = UnlockWithAccountKey (Keyring_ v) key
          /\ items v' = items v
          /\ lastSynced v' = lastSynced v
          /\ websocketConnected v' = websocketConnected v).
Proof.
  intros Hmu L E D Hnz.
  assert (R : Unlock pin w = Returns true (unlocked_by pin w)) by now apply Unlock_match.
  split; [apply IsLocked_key_nonzero; exact Hnz |]. split.
  - intros N. now apply TryUnlock_not_logged_in.
  - intros userKey key N G A.
    exists (bitwarden.with_Keyring (UnlockWithAccountKey (Keyring_ v) key) v).
    split; [| now repeat split].
    rewrite (TryUnlock_run v w pin E). erewrite bind_Returns; [| exact R].
    cbn [negb]. erewrite bind_Returns; [| reflexivity].
    now rewrite IsLoggedIn_unlocked_by, N, G, A.
Qed.

(** X24: the two ways [TryUnlock] fails after the PIN was right, in a
    store that is logged in. When the user symmetric key does not decrypt,
    the store is locked again and the error returned; the PIN stays
    cached. When the key decrypts but package crypto makes no account key
    of it, the error is returned with the store left open. Either way the
    vault and its keyring are as they were. *)
Theorem TryUnlock_failures_after_the_right_pin (v : Vault) (w : World) (pin : string) :
  mu (cfg w) = false ->
  IsLocked (cfg w) = true ->
  pin_tried w = Ok pin ->
  keyDigest (deriveKey (cfg w) pin) = ConfigKeyHash (ConfigFile_ (cfg w)) ->
  deriveKey (cfg w) pin <> repeat x00 32 ->
  IsLoggedIn (cfg w) = true ->
  match GetUserSymmetricKey (cfg (unlocked_by pin w)) with
  | Err e =>
      TryUnlock v w = Returns (Some (ErrPassed e), v) (locked_again (unlocked_by pin w))
      /\ IsLocked (cfg (locked_again (unlocked_by pin w))) = true
      /\ pin_cache (locked_again (unlocked_by pin w)) = Some (bytes_of_string pin)
  | Ok userKey =>
      forall e, account_key v userKey = Err e ->
        TryUnlock v w = Returns (Some (ErrPassed e), v) (unlocked_by pin w)
        /\ IsLocked (cfg (unlocked_by pin w)) = false
  end.
Proof.
  intros Hmu L E D Hnz N.
  assert (R : Unlock pin w = Returns true (unlocked_by pin w)) by now apply Unlock_match.
  assert (L' : IsLocked (cfg (unlocked_by pin w)) = false).
  { apply IsLocked_key_nonzero. exact Hnz. }
  destruct (GetUserSymmetricKey (cfg (unlocked_by pin w))) as [userKey | e] eqn:G.
  - intros e A. split; [| exact L'].
    rewrite (TryUnlock_run v w pin E). erewrite bind_Returns; [| exact R].
    cbn [negb]. erewrite bind_Returns; [| reflexivity].
    now rewrite IsLoggedIn_unlocked_by, N, G, A.
  - split; [| split; [| reflexivity]].
    + rewrite (TryUnlock_run v w pin E). erewrite bind_Returns; [| exact R].
      cbn [negb]. erewrite bind_Returns; [| reflexivity].
      rewrite IsLoggedIn_unlocked_by, N, G.
      erewrite bind_Returns; [reflexivity |]. now apply Lock_run.
    + apply IsLocked_true. split.
      * cbn. rewrite deriveKey_length. reflexivity.
      * apply IsLocked_true in L. apply L.
Qed.

(** X25: [Lock] leaves the cached PIN where it is, so on a store that
    [Unlock] opened with a PIN and cached it, [Lock] followed by
    [TryUnlock] opens the store again with the cached PIN; the user is not
    asked. *)
Theorem Lock_then_TryUnlock_reopens_silently (v : Vault) (w : World) (pin : string) :
  mu (cfg w) = false ->
  Bytes (key (cfg w)) = deriveKey (cfg w) pin ->
  ConfigKeyHash (ConfigFile_ (cfg w)) = keyDigest (deriveKey (cfg w) pin) ->
  deriveKey (cfg w) pin <> repeat x00 32 ->
  pin_cache w = Some (bytes_of_string pin) ->
  pincache_GetPin (bytes_of_string pin) = Ok (bytes_of_string pin) ->
  IsLoggedIn (cfg w) = false ->
  exists w',
    (Lock ;; TryUnlock v) w = Returns (None, v) w'
    /\ IsLocked (cfg w') = false
    /\ Bytes (key (cfg w')) = Bytes (key (cfg w))
    /\ ConfigFile_ (cfg w') = ConfigFile_ (cfg w).
Proof.
  intros Hmu K H Hnz Pc Gp N.
  assert (L : IsLocked (cfg w) = false).
  { apply IsLocked_key_nonzero. now rewrite K. }
  assert (R1 : Lock w = Returns tt (locked_again w)) by now apply Lock_run.
  assert (Z1 : Bytes (key (cfg (locked_again w))) = repeat x00 32).
  { cbn. change (contents (key (cfg w))) with (Bytes (key (cfg w))).
    now rewrite K, deriveKey_length. }
  assert (L1 : IsLocked (cfg (locked_again w)) = true).
  { apply IsLocked_true. split; [exact Z1 |]. cbn. rewrite H. apply keyDigest_nonempty. }
  assert (E : pin_tried (locked_again w) = Ok pin).
  { unfold pin_tried. cbn [locked_again pin_cache with_notifications with_cfg].
    rewrite Pc, Gp. unfold string_of_bytes, bytes_of_string.
    now rewrite string_of_list_byte_of_string. }
  exists (unlocked_by pin (locked_again w)). split.
  - erewrite bind_Returns; [| exact R1].
    apply TryUnlock_not_logged_in; try assumption. cbn. now rewrite H.
  - split; [apply IsLocked_key_nonzero; exact Hnz |]. cbn. now rewrite K.
Qed.

End try_unlock_extras.

(** * Reading the configuration *)
Section read_extras.
Import config startup.
Context {P : Primitives} {H : Host}.

Lemma paths_under_home :
  oldPath = (os_UserHomeDir ++ "/.config/goldwarden.json")%string
  /\ newPathParent = (os_UserHomeDir ++ "/.config/goldwarden")%string
  /\ newPath = (os_UserHomeDir ++ "/.config/goldwarden/goldwarden.json")%string.
Proof. split; [reflexivity |]. split; reflexivity. Qed.

Lemma ReadConfig_unfold (rtCfg : RuntimeConfig) :
  ReadConfig rtCfg =
  match os_Stat oldPath with
  | Found =>
      match os_Stat newPath with
      | Found => read_file rtCfg
      | _ =>
          match os_Stat newPathParent with
          | NotExist =>
              {| value := ConfigZero; err := os_Mkdir newPathParent;
                 calls := [Mkdir newPathParent] |}
          | _ =>
              {| value := ConfigZero; err := os_Rename oldPath newPath;
                 calls := [Rename oldPath newPath] |}
          end
      end
  | _ => read_file rtCfg
  end.
Proof.
  unfold ReadConfig, oldPath, newPath, newPathParent, read_file. cbv zeta. reflexivity.
Qed.

(** [ReadConfig] when no migration is pending. *)
Lemma ReadConfig_reads (rtCfg : RuntimeConfig) :
  ~ migration_pending -> ReadConfig rtCfg = read_file rtCfg.
Proof.
  intros M. unfold migration_pending in M. rewrite ReadConfig_unfold.
  destruct (os_Stat oldPath) eqn:O; try reflexivity.
  destruct (os_Stat newPath) eqn:N; try reflexivity;
    exfalso; apply M; split; congruence.
Qed.

Lemma get_field_persisted (f : Field) (cf : ConfigFile) :
  get_field f (persisted cf) = get_field f cf.
Proof. now destruct f. Qed.

(** X26: what [WriteConfig] wrote, [ReadConfig] reads back, less the key.
    For a store that is open under the key of a PIN and is written to a
    disk that takes the write: when no migration is pending and opening the
    configured path gives the document that is on disk, [ReadConfig]
    returns no error and a store with the all-zero key, which is locked,
    with the record that was written; [Unlock] with the PIN opens it, and
    every secret field then decrypts to what it decrypted to before the
    write. *)
Theorem written_store_is_read_back_locked
    (w : World) (rtCfg : RuntimeConfig) (password : string) :
  mu (cfg w) = false ->
  DoNotPersistConfig (RuntimeConfig_ (ConfigFile_ (cfg w))) = false ->
  (16 <= String.length (config_path (cfg w)))%nat ->
  writable (fs w) = true ->
  Bytes (key (cfg w)) = deriveKey (cfg w) password ->
  ConfigKeyHash (ConfigFile_ (cfg w)) = keyDigest (deriveKey (cfg w) password) ->
  deriveKey (cfg w) password <> repeat x00 32 ->
  ConfigDirectory rtCfg = config_path (cfg w) ->
  ~ migration_pending ->
  (forall doc : ConfigFile,
     files (fs (written w)) !! config_path (cfg w) = Some doc ->
     os_Open (config_path (cfg w)) = Document doc) ->
  WriteConfig w = Returns None (written w)
  /\ exists c : Config,
       ReadConfig rtCfg = {| value := ConfigWithKey c; err := None; calls := [] |}
       /\ ConfigFile_ c = persisted (ConfigFile_ (cfg w))
       /\ Bytes (key c) = repeat x00 32
       /\ IsLocked c = true
       /\ forall w2 : World,
            cfg w2 = c ->
            exists w3 : World,
              Unlock password w2 = Returns true w3
              /\ IsLocked (cfg w3) = false
              /\ forall f : Field,
                   decryptString (cfg w3) (get_field f (ConfigFile_ (cfg w3)))
                   = decryptString (cfg w) (get_field f (ConfigFile_ (cfg w))).
Proof.
  intros Hmu D Hp Wr K Hh Hnz Hdir M Hopen.
  assert (Cp : can_persist (cfg w) = true).
  { unfold can_persist. rewrite D. cbn [orb]. apply negb_true_iff, Nat.ltb_ge.
    exact Hp. }
  split.
  { rewrite WriteConfig_run by assumption. unfold WriteConfig_result. now rewrite D, Wr. }
  assert (O : os_Open (ConfigDirectory rtCfg) = Document (persisted (ConfigFile_ (cfg w)))).
  { rewrite Hdir. apply Hopen. unfold written. cbn [fs with_fs files cfg].
    apply lookup_insert_eq. }
  set (c := Config_of (NewBuffer 32 (UseMemguard rtCfg))
              (persisted (persisted (ConfigFile_ (cfg w))))).
  assert (Dk : deriveKey c password = deriveKey (cfg w) password) by reflexivity.
  assert (L : IsLocked c = true).
  { apply IsLocked_true. split; [reflexivity |].
    change (ConfigKeyHash (ConfigFile_ c)) with (ConfigKeyHash (ConfigFile_ (cfg w))).
    rewrite Hh. apply keyDigest_nonempty. }
  exists c. split.
  { rewrite ReadConfig_reads by exact M. unfold read_file. now rewrite O. }
  split; [reflexivity |]. split; [reflexivity |]. split; [exact L |].
  intros w2 E2. exists (unlocked_by password w2).
  split; [| split].
  - apply Unlock_match.
    + now rewrite E2.
    + now rewrite E2.
    + rewrite E2, Dk.
      change (ConfigKeyHash (ConfigFile_ c)) with (ConfigKeyHash (ConfigFile_ (cfg w))).
      now rewrite Hh.
  - apply IsLocked_key_nonzero.
    change (Bytes (key (cfg (unlocked_by password w2))))
      with (deriveKey (cfg w2) password).
    now rewrite E2, Dk.
  - intros f.
    change (ConfigFile_ (cfg (unlocked_by password w2))) with (ConfigFile_ (cfg w2)).
    rewrite E2.
    change (ConfigFile_ c) with (persisted (persisted (ConfigFile_ (cfg w)))).
    rewrite !get_field_persisted.
    apply decryptString_ext.
    + change (Bytes (key (cfg (unlocked_by password w2))))
        with (deriveKey (cfg w2) password).
      now rewrite E2, Dk, K.
    + change (ConfigFile_ (cfg (unlocked_by password w2))) with (ConfigFile_ (cfg w2)).
      now rewrite E2.
Qed.

(** X27: the outcomes of [ReadConfig]. While a migration is pending (a
    file at the old path under the home directory and none at the new
    one) it creates the new directory when that is missing and else moves
    the file, and returns [Config{}], which has no key buffer, with the
    error of that one call, be it nil: the configuration is not read on
    that run. Otherwise it makes no call that changes the disk and returns
    a store with the all-zero key of 32 bytes, the mutex free and a zero
    runtime configuration: locked exactly when the document has a
    config-key-hash, and the empty store beside an error. *)
Theorem ReadConfig_outcomes (rtCfg : RuntimeConfig) :
  (oldPath = (os_UserHomeDir ++ "/.config/goldwarden.json")%string
   /\ newPathParent = (os_UserHomeDir ++ "/.config/goldwarden")%string
   /\ newPath = (os_UserHomeDir ++ "/.config/goldwarden/goldwarden.json")%string)
  /\ (migration_pending ->
        value (ReadConfig rtCfg) = ConfigZero
        /\ (os_Stat newPathParent = NotExist ->
              calls (ReadConfig rtCfg) = [Mkdir newPathParent]
              /\ err (ReadConfig rtCfg) = os_Mkdir newPathParent)
        /\ (os_Stat newPathParent <> NotExist ->
              calls (ReadConfig rtCfg) = [Rename oldPath newPath]
              /\ err (ReadConfig rtCfg) = os_Rename oldPath newPath))
  /\ (~ migration_pending ->
        exists c : Config,
          value (ReadConfig rtCfg) = ConfigWithKey c
          /\ calls (ReadConfig rtCfg) = []
          /\ Bytes (key c) = repeat x00 32
          /\ mu c = false
          /\ RuntimeConfig_ (ConfigFile_ c) = RuntimeConfig_zero
          /\ (IsLocked c = true <-> ConfigKeyHash (ConfigFile_ c) <> ""%string)
          /\ (err (ReadConfig rtCfg) <> None -> ConfigFile_ c = ConfigFile_zero)
          /\ (forall fields, os_Open (ConfigDirectory rtCfg) = Document fields ->
                err (ReadConfig rtCfg) = None
                /\ forall f, get_field f (ConfigFile_ c) = get_field f fields)).
Proof.
  split; [apply paths_under_home |]. split.
  - intros (O & N). rewrite ReadConfig_unfold, O.
    destruct (os_Stat newPath) eqn:N'; [contradiction | |];
      destruct (os_Stat newPathParent) eqn:Pp;
      (split; [reflexivity |]); split; intros Q; try congruence; now split.
  - intros M. rewrite ReadConfig_reads by exact M. unfold read_file.
    assert (K : forall cf,
              IsLocked (Config_of (NewBuffer 32 (UseMemguard rtCfg)) cf) = true
              <-> ConfigKeyHash cf <> ""%string).
    { intros cf. rewrite IsLocked_true.
      change (ConfigKeyHash (ConfigFile_ (Config_of _ cf))) with (ConfigKeyHash cf).
      split; [now intros (_ & ?) | now split]. }
    destruct (os_Open (ConfigDirectory rtCfg)) as [e | e | fields].
    + exists (Config_of (NewBuffer 32 (UseMemguard rtCfg)) ConfigFile_zero).
      split; [reflexivity |]. split; [reflexivity |]. split; [reflexivity |].
      split; [reflexivity |]. split; [reflexivity |]. split; [apply K |].
      split; [reflexivity | discriminate].
    + exists (Config_of (NewBuffer 32 (UseMemguard rtCfg)) ConfigFile_zero).
      split; [reflexivity |]. split; [reflexivity |]. split; [reflexivity |].
      split; [reflexivity |]. split; [reflexivity |]. split; [apply K |].
      split; [reflexivity | discriminate].
    + exists (Config_of (NewBuffer 32 (UseMemguard rtCfg)) (persisted fields)).
      split; [reflexivity |]. split; [reflexivity |]. split; [reflexivity |].
      split; [reflexivity |]. split; [reflexivity |]. split; [apply K |].
      split; [intros Q; now contradiction Q |].
      intros fields' E. inversion E. subst fields'. split; [reflexivity |].
      intros f. apply get_field_persisted.
Qed.

End read_extras.

(** * The SSH key requests *)
Section text_facts.

Example ReplaceAll_every_occurrence : strings.ReplaceAll "a~b~" "~" "xy" = "axybxy"%string.
Proof. reflexivity. Qed.

Example ReplaceAll_without_overlap : strings.ReplaceAll "aaa" "aa" "b" = "ba"%string.
Proof. reflexivity. Qed.

Lemma prefix_empty (s : string) : String.prefix "" s = true.
Proof. now destruct s. Qed.

(** Replacing the line feed by nothing drops the line feeds and keeps the
    other characters in their order. *)
Lemma ReplaceAll_newline (s : string) :
  chars (strings.ReplaceAll s newline "")
  = List.filter (fun c => negb (Ascii.eqb c "010")) (chars s).
Proof.
  unfold strings.ReplaceAll, newline, chars.
  induction s as [| c rest IH]; [reflexivity |].
  cbn [strings.replace String.prefix list_ascii_of_string List.filter String.length].
  destruct (ascii_dec "010" c) as [<- | Hne].
  - rewrite prefix_empty. cbn [Ascii.eqb Bool.eqb negb andb Nat.sub append]. exact IH.
  - assert (E : Ascii.eqb c "010" = false) by (apply Ascii.eqb_neq; congruence).
    rewrite E. cbn [negb list_ascii_of_string]. now rewrite IH.
Qed.

Lemma ReplaceAll_one_line (s : string) : one_line (strings.ReplaceAll s newline "").
Proof.
  unfold one_line. rewrite ReplaceAll_newline. intros H.
  apply List.filter_In in H. destruct H as (_ & H). discriminate H.
Qed.

Lemma filter_all {A} (f : A -> bool) (l : list A) :
  (forall x, In x l -> f x = true) -> List.filter f l = l.
Proof.
  induction l as [| x xs IH]; intros H; [reflexivity |]. cbn [List.filter].
  rewrite (H x) by now left. f_equal. apply IH. intros y Hy. apply H. now right.
Qed.

Lemma chars_inj (a b : string) : chars a = chars b -> a = b.
Proof.
  unfold chars. intros E.
  rewrite <- (string_of_list_ascii_of_string a), <- (string_of_list_ascii_of_string b).
  now rewrite E.
Qed.

Lemma chars_app (a b : string) : chars (a ++ b) = chars a ++ chars b.
Proof.
  unfold chars. induction a as [| c a IH]; [reflexivity |].
  change (String.append (String c a) b) with (String c (String.append a b)).
  cbn [list_ascii_of_string app]. now rewrite IH.
Qed.

(** A string without a line feed is left as it is. *)
Lemma ReplaceAll_nothing_to_replace (s : string) :
  one_line s -> strings.ReplaceAll s newline "" = s.
Proof.
  intros H. apply chars_inj. rewrite ReplaceAll_newline. apply filter_all.
  intros c Hc. apply negb_true_iff, Ascii.eqb_neq. intros ->. now apply H.
Qed.

End text_facts.

Section action_extras.
Import models vault actions.
Context {P : Primitives} {A : Agent}.

(** X29: [handleListSSH] answers with one string for each SSH key of the
    vault, in the order of the list: the public key, a space and the name,
    with every line feed taken out, so that no entry spans two lines. It
    does not change the vault, and it does not ask the store. *)
Theorem handleListSSH_lists_one_line_per_key
    (msg : IPCMessage) (cfg : config.Config) (v : Vault) :
  exists keyStrings : list string,
    handleListSSH msg cfg v
    = Responds (IPCMessageFromPayload (GetSSHKeysResponse keyStrings)) v
    /\ length keyStrings = length (GetSSHKeys v)
    /\ Forall one_line keyStrings
    /\ forall (i : nat) (key : SSHKey),
         nth_error (GetSSHKeys v) i = Some key ->
         exists entry,
           nth_error keyStrings i = Some entry
           /\ chars entry
              = List.filter (fun c => negb (Ascii.eqb c "010"))
                  (chars (PublicKey key) ++ " "%char :: chars (Name key))
           /\ (one_line (PublicKey key) -> one_line (Name key) ->
               entry = (PublicKey key ++ " " ++ Name key)%string).
Proof.
  eexists. split; [reflexivity |]. split; [now rewrite length_map |]. split.
  - apply Forall_forall. intros entry H. apply in_map_iff in H.
    destruct H as (key & <- & _). apply ReplaceAll_one_line.
  - intros i key H. eexists. split.
    + rewrite nth_error_map, H. reflexivity.
    + split.
      * rewrite ReplaceAll_newline, chars_app. reflexivity.
      * intros Hp Hn. apply ReplaceAll_nothing_to_replace.
        unfold one_line. rewrite chars_app. intros Hin. apply in_app_or in Hin.
        destruct Hin as [Hin | [Hin | Hin]]; [now apply Hp | discriminate | now apply Hn].
Qed.

(** What [post] leaves of the vault. *)
Lemma post_outcome (cfg : config.Config) (cipher : Cipher) (v : Vault) :
  match http_PostCipher (AccessToken (token_or_zero cfg)) cipher with
  | Ok postedCipher =>
      post cfg cipher v = AddOrUpdateSecureNote postedCipher v
      /\ items (post cfg cipher v) !! ID postedCipher = Some (SecureNote postedCipher)
      /\ forall id : string,
           id <> ID postedCipher -> items (post cfg cipher v) !! id = items v !! id
  | Err _ => post cfg cipher v = v
  end.
Proof.
  unfold post. cbv zeta.
  destruct (http_PostCipher _ _) as [postedCipher | e]; [| reflexivity].
  split; [reflexivity |]. split.
  - cbn. apply lookup_insert_eq.
  - intros id Hne. cbn. apply lookup_insert_ne. congruence.
Qed.

(** X30: [handleAddSSH] and [handleImportSSH], once the key item is made
    and a response can be built, post the item with the access token of
    the store, or with the empty access token when the token cannot be
    read (a locked store), and answer with the digest, or with success,
    whether or not the post went through. The vault changes only when the
    post went through: what the service returned is then upserted as a
    secure note under its id, and no other item changes. *)
Theorem ssh_key_handlers_store_what_was_posted
    (msg : IPCMessage) (cfg : config.Config) (v : Vault) (probe : IPCMessage) :
  IPCMessageFromPayload (ActionResponse true "") = Ok probe ->
  (forall (name publicKey : string) (cipher : Cipher),
     ParsePayload msg = CreateSSHKeyRequest name ->
     NewSSHKeyCipher name (Keyring_ v) = Ok (cipher, publicKey) ->
     handleAddSSH msg cfg v
     = Responds
         (IPCMessageFromPayload
            (CreateSSHKeyResponse (strings.ReplaceAll publicKey newline "" ++ " " ++ name)))
         (post cfg cipher v))
  /\ (forall (name key publicKey : string) (cipher : Cipher),
        ParsePayload msg = ImportSSHKeyRequest name key ->
        SSHKeyCipherFromKey name key (Keyring_ v) = Ok (cipher, publicKey) ->
        handleImportSSH msg cfg v
        = Responds (IPCMessageFromPayload (ImportSSHKeyResponse true)) (post cfg cipher v))
  /\ (forall cipher : Cipher,
        match http_PostCipher (AccessToken (token_or_zero cfg)) cipher with
        | Ok postedCipher =>
            post cfg cipher v = AddOrUpdateSecureNote postedCipher v
            /\ items (post cfg cipher v) !! ID postedCipher = Some (SecureNote postedCipher)
            /\ forall id : string,
                 id <> ID postedCipher -> items (post cfg cipher v) !! id = items v !! id
        | Err _ => post cfg cipher v = v
        end)
  /\ (config.IsLocked cfg = true -> AccessToken (token_or_zero cfg) = ""%string).
Proof.
  intros Hprobe. split; [| split; [| split]].
  - intros name publicKey cipher Hp Hk. unfold handleAddSSH. now rewrite Hp, Hk, Hprobe.
  - intros name key publicKey cipher Hp Hk. unfold handleImportSSH.
    now rewrite Hp, Hk, Hprobe.
  - intros cipher. apply post_outcome.
  - intros L. unfold token_or_zero, config.GetToken. now rewrite L.
Qed.

End action_extras.

(** * The further properties on concrete inputs *)
Section further_on_concrete_inputs.
Import config.
Local Open Scope string_scope.

(** The store with a PIN meets the hypotheses of the theorem on [Lock]. *)
Lemma Lock_wipes_the_key_only_witness :
  exists w',
    Lock reference.pinned = Returns tt w'
    /\ IsLocked (cfg w') = true
    /\ pin_cache w' = pin_cache reference.pinned.
Proof.
  destruct (Lock_wipes_the_key_only reference.pinned)
    as (w' & R & _ & _ & _ & _ & Pc & _ & Lk & _).
  - vm_compute. reflexivity.
  - vm_compute. reflexivity.
  - exists w'. split; [exact R |]. split; [| exact Pc].
    apply Lk; vm_compute; reflexivity.
Defined.

(** The store with the PIN 1111 is open under the key of that PIN. *)
Lemma Lock_then_Unlock_reopens_witness :
  exists w',
    (Lock ;; Unlock (P := reference.primitives) "1111") reference.pinned = Returns true w'
    /\ IsLocked (cfg w') = false.
Proof.
  destruct (Lock_then_Unlock_reopens (P := reference.primitives) reference.pinned "1111")
    as ((w' & R & _ & _ & L & _) & _).
  - vm_compute. reflexivity.
  - vm_compute. reflexivity.
  - vm_compute. reflexivity.
  - vm_compute. discriminate.
  - exists w'. split; [exact R | exact L].
Defined.

(** The locked store has its mutex free: [Purge] opens it, emptied. *)
Lemma Purge_empties_the_store_in_memory_witness :
  exists w',
    Purge reference.locked = Returns tt w'
    /\ IsLocked (cfg w') = false
    /\ GetClientID (P := reference.primitives) (cfg w') = Ok ""
    /\ fs w' = fs reference.locked.
Proof.
  destruct (Purge_empties_the_store_in_memory (P := reference.primitives) reference.locked)
    as (w' & R & _ & _ & _ & L & _ & _ & _ & _ & _ & _ & _ & F & _ & _ & G & _).
  - vm_compute. reflexivity.
  - exists w'. split; [exact R |]. split; [exact L |]. split; [exact G | exact F].
Defined.

(** The store with a PIN meets the hypotheses of the theorem on setters
    and getters. *)
Lemma setters_then_getters_witness :
  exists e w',
    SetClientID (P := reference.primitives) "client-2" reference.pinned = Returns e w'
    /\ GetClientID (P := reference.primitives) (cfg w') = Ok "client-2".
Proof.
  destruct (setters_then_getters (P := reference.primitives) reference.pinned) as (S & _).
  - vm_compute. reflexivity.
  - vm_compute. reflexivity.
  - vm_compute. reflexivity.
  - vm_compute. reflexivity.
  - exact (S "client-2").
Defined.


(** The store [DefaultConfig] constructs has the empty path. *)
Lemma short_config_path_panics_witness :
  WriteConfig scenes.unconfigured = Panics "slice bounds out of range"
  /\ SetClientID (P := reference.primitives) "client-1" scenes.unconfigured
     = Panics "slice bounds out of range".
Proof.
  destruct (short_config_path_panics (P := reference.primitives) scenes.unconfigured)
    as (W & S).
  - vm_compute. reflexivity.
  - vm_compute. reflexivity.
  - vm_compute. lia.
  - split; [exact W |]. destruct S as (S & _).
    + vm_compute. reflexivity.
    + vm_compute. reflexivity.
    + apply S.
Defined.


(** A folder-create event (type 7) is none of the seven types with an
    effect. *)
Lemma unsupported_events_change_nothing_witness :
  bitwarden.dispatch (P := reference.primitives) (C := reference.offline)
    (T := reference.cipherTypes) (cfg reference.signedIn) reference.noToken 0
    bitwarden.SyncFolderCreate "abc" scenes.filled
  = bitwarden.Continue scenes.filled [].
Proof.
  apply (unsupported_events_change_nothing (P := reference.primitives)
           (C := reference.offline) (T := reference.cipherTypes)
           (cfg reference.signedIn) reference.noToken 0 bitwarden.SyncFolderCreate
           "abc" scenes.filled).
  vm_compute. intuition discriminate.
Defined.

(** The locked store, with a service that would answer the full-sync
    fetch: the bulk refresh is dropped, the delete is carried out. *)
Lemma events_while_the_store_is_locked_witness :
  bitwarden.dispatch (P := reference.primitives) (C := reference.syncing)
    (T := reference.cipherTypes) (cfg reference.locked) reference.noToken 0
    bitwarden.SyncVault "" scenes.filled
  = bitwarden.Continue scenes.filled []
  /\ bitwarden.dispatch (P := reference.primitives) (C := reference.syncing)
       (T := reference.cipherTypes) (cfg reference.locked) reference.noToken 0
       bitwarden.SyncCipherDelete "login-1" scenes.filled
     = bitwarden.Continue (vault.DeleteCipher "login-1" scenes.filled) [].
Proof.
  destruct (events_while_the_store_is_locked (P := reference.primitives)
              (C := reference.syncing) (T := reference.cipherTypes)
              (cfg reference.locked) reference.noToken 0 "" scenes.filled)
    as (_ & _ & _ & V & _).
  { vm_compute. reflexivity. }
  destruct (events_while_the_store_is_locked (P := reference.primitives)
              (C := reference.syncing) (T := reference.cipherTypes)
              (cfg reference.locked) reference.noToken 0 "login-1" scenes.filled)
    as (_ & _ & _ & _ & D).
  { vm_compute. reflexivity. }
  split; [apply V | apply D].
Defined.

(** The signed-in store with the remote service out of reach. *)
Lemma failed_fetch_drops_the_event_witness :
  bitwarden.dispatch (P := reference.primitives) (C := reference.offline)
    (T := reference.cipherTypes) (cfg reference.signedIn) reference.noToken 0
    bitwarden.SyncCipherUpdate "login-1" scenes.filled
  = bitwarden.Continue scenes.filled [].
Proof.
  apply (failed_fetch_drops_the_event (P := reference.primitives)
           (C := reference.offline) (T := reference.cipherTypes)
           (cfg reference.signedIn) reference.noToken 0 bitwarden.SyncCipherUpdate
           "login-1" scenes.filled scenes.session ErrIO).
  - left. reflexivity.
  - vm_compute. reflexivity.
  - reflexivity.
Defined.

(** The signed-in store and a service that answers with the snapshot of
    three items. *)
Lemma bulk_refresh_runs_a_full_sync_witness :
  exists v',
    bitwarden.dispatch (P := reference.primitives) (C := reference.syncing)
      (T := reference.cipherTypes) (cfg reference.signedIn) reference.noToken 1700000300
      bitwarden.SyncVault "" reference.emptyVault
    = bitwarden.Continue v' []
    /\ vault.lastSynced v' = 1700000300%Z.
Proof.
  destruct (bulk_refresh_runs_a_full_sync (P := reference.primitives)
              (C := reference.syncing) (T := reference.cipherTypes)
              (cfg reference.signedIn) reference.noToken 1700000300 bitwarden.SyncVault
              "" reference.emptyVault scenes.session) as (_ & S).
  - right. reflexivity.
  - vm_compute. reflexivity.
  - destruct (S reference.three_items) as (v' & R & _ & _ & L & _).
    + reflexivity.
    + exists v'. split; [exact R | exact L].
Defined.


(** The prefix 0x80 0x01 (the number 128) before an empty array. *)
Lemma length_prefix_is_cut_off_witness :
  bitwarden.lenBufferLen ([x80] ++ x01 :: [x90]) 0 = 2%nat
  /\ bitwarden.websocketMessageType (C := reference.offline) ([x80] ++ x01 :: [x90])
     = bitwarden.parseMessageTypeFromMessagePack (C := reference.offline) [x90].
Proof.
  destruct (length_prefix_is_cut_off (C := reference.offline) [x80] x01 [x90])
    as (A & B & _).
  - constructor; [vm_compute; discriminate | constructor].
  - vm_compute. reflexivity.
  - split; [exact A | exact B].
Defined.

(** The frame of a cipher-delete event for the id "abc". *)
Lemma well_formed_frame_is_dispatched_witness :
  bitwarden.websocketMessageType (C := reference.offline)
    (reference.frame reference.type_delete reference.id_abc)
  = bitwarden.Parsed bitwarden.SyncCipherDelete "abc" true
  /\ bitwarden.readerTurn (P := reference.primitives) (C := reference.offline)
       (T := reference.cipherTypes) (cfg reference.signedIn) reference.noToken 0
       (reference.frame reference.type_delete reference.id_abc) scenes.filled
     = bitwarden.dispatch (P := reference.primitives) (C := reference.offline)
         (T := reference.cipherTypes) (cfg reference.signedIn) reference.noToken 0
         bitwarden.SyncCipherDelete "abc" scenes.filled.
Proof.
  apply (well_formed_frame_is_dispatched (P := reference.primitives)
           (C := reference.offline) (T := reference.cipherTypes)
           (cfg reference.signedIn) reference.noToken 0
           (reference.frame reference.type_delete reference.id_abc) scenes.filled
           [msgpack.VInt8 1; msgpack.VMap []; msgpack.VNil;
            msgpack.VString "ReceiveMessage";
            msgpack.VSlice
              [msgpack.VMap
                 [("Payload", msgpack.VMap [("Id", msgpack.VString "abc")]);
                  ("Type", msgpack.VInt8 9)]]]
           []
           [("Payload", msgpack.VMap [("Id", msgpack.VString "abc")]);
            ("Type", msgpack.VInt8 9)]
           9 "abc").
  - vm_compute. lia.
  - vm_compute. reflexivity.
  - vm_compute. lia.
  - reflexivity.
  - reflexivity.
  - reflexivity.
Defined.

(** The user enters 0000 at the locked store, whose PIN is 1111. *)
Lemma TryUnlock_fails_without_the_right_pin_witness :
  startup.TryUnlock (P := reference.primitives) (U := scenes.unlocking "0000")
    reference.emptyVault scenes.locked_no_cache
  = Returns (Some startup.ErrInvalidPIN, reference.emptyVault) scenes.locked_no_cache.
Proof.
  pose proof (TryUnlock_fails_without_the_right_pin (P := reference.primitives)
                (U := scenes.unlocking "0000") reference.emptyVault
                scenes.locked_no_cache) as F.
  assert (E : pin_tried (U := scenes.unlocking "0000") scenes.locked_no_cache = Ok "0000")
    by (vm_compute; reflexivity).
  rewrite E in F. apply F.
  - vm_compute. reflexivity.
  - vm_compute. reflexivity.
  - vm_compute. discriminate.
Defined.

(** The locked store has its PIN in the cache and is not logged in. *)
Lemma TryUnlock_opens_store_and_keyring_witness :
  startup.TryUnlock (P := reference.primitives) (U := scenes.unlocking "0000")
    reference.emptyVault reference.locked
  = Returns (None, reference.emptyVault)
      (unlocked_by (P := reference.primitives) "1111" reference.locked).
Proof.
  destruct (TryUnlock_opens_store_and_keyring (P := reference.primitives)
              (U := scenes.unlocking "0000") reference.emptyVault reference.locked "1111")
    as (_ & N & _).
  - vm_compute. reflexivity.
  - vm_compute. reflexivity.
  - vm_compute. reflexivity.
  - vm_compute. reflexivity.
  - vm_compute. discriminate.
  - apply N. vm_compute. reflexivity.
Defined.

(** The store that is logged in has no user symmetric key stored: after
    the right PIN it is locked again. *)
Lemma TryUnlock_failures_after_the_right_pin_witness :
  startup.TryUnlock (P := reference.primitives) (U := scenes.unlocking "0000")
    reference.emptyVault scenes.loggedIn_locked
  = Returns (Some (startup.ErrPassed ErrCiphertextTooShort), reference.emptyVault)
      (locked_again (unlocked_by (P := reference.primitives) "1111" scenes.loggedIn_locked))
  /\ IsLocked
       (cfg (locked_again
               (unlocked_by (P := reference.primitives) "1111" scenes.loggedIn_locked)))
     = true.
Proof.
  pose proof (TryUnlock_failures_after_the_right_pin (P := reference.primitives)
                (U := scenes.unlocking "0000") reference.emptyVault
                scenes.loggedIn_locked "1111") as F.
  assert (E : GetUserSymmetricKey (P := reference.primitives)
                (cfg (unlocked_by (P := reference.primitives) "1111"
                        scenes.loggedIn_locked))
              = Err ErrCiphertextTooShort) by (vm_compute; reflexivity).
  rewrite E in F. destruct F as (R & L & _).
  - vm_compute. reflexivity.
  - vm_compute. reflexivity.
  - vm_compute. reflexivity.
  - vm_compute. reflexivity.
  - vm_compute. discriminate.
  - vm_compute. reflexivity.
  - split; [exact R | exact L].
Defined.

(** The store with the PIN 1111 has that PIN in the cache; the user, who
    would enter 0000, is not asked. *)
Lemma Lock_then_TryUnlock_reopens_silently_witness :
  exists w',
    (Lock ;; startup.TryUnlock (P := reference.primitives) (U := scenes.unlocking "0000")
               reference.emptyVault) reference.pinned
    = Returns (None, reference.emptyVault) w'
    /\ IsLocked (cfg w') = false.
Proof.
  destruct (Lock_then_TryUnlock_reopens_silently (P := reference.primitives)
              (U := scenes.unlocking "0000") reference.emptyVault reference.pinned "1111")
    as (w' & R & L & _).
  - vm_compute. reflexivity.
  - vm_compute. reflexivity.
  - vm_compute. reflexivity.
  - vm_compute. discriminate.
  - vm_compute. reflexivity.
  - reflexivity.
  - vm_compute. reflexivity.
  - exists w'. split; [exact R | exact L].
Defined.

(** The store with the PIN 1111, written and read back on a machine whose
    disk is the one of that world. *)
Lemma written_store_is_read_back_locked_witness :
  WriteConfig reference.pinned = Returns None (written reference.pinned)
  /\ exists c : Config,
       startup.ReadConfig (H := scenes.host (fs (written reference.pinned)))
         reference.runtimeConfig
       = {| startup.value := startup.ConfigWithKey c; startup.err := None;
            startup.calls := [] |}
       /\ IsLocked c = true.
Proof.
  destruct (written_store_is_read_back_locked (P := reference.primitives)
              (H := scenes.host (fs (written reference.pinned)))
              reference.pinned reference.runtimeConfig "1111")
    as (W & c & R & _ & _ & L & _).
  - vm_compute. reflexivity.
  - vm_compute. reflexivity.
  - vm_compute. lia.
  - vm_compute. reflexivity.
  - vm_compute. reflexivity.
  - vm_compute. reflexivity.
  - vm_compute. discriminate.
  - vm_compute. reflexivity.
  - intros (O & _). vm_compute in O. discriminate O.
  - intros doc E. vm_compute in E. injection E as <-. vm_compute. reflexivity.
  - split; [exact W |]. exists c. split; [exact R | exact L].
Defined.

(** A request for a new key named laptop, with the store signed in. *)
Lemma ssh_key_handlers_store_what_was_posted_witness :
  actions.handleAddSSH (P := reference.primitives) (A := scenes.agent [])
    (actions.CreateSSHKeyRequest "laptop") (cfg reference.signedIn) reference.emptyVault
  = actions.Responds (A := scenes.agent [])
      (actions.IPCMessageFromPayload (Agent := scenes.agent [])
         (actions.CreateSSHKeyResponse
            (strings.ReplaceAll ("ssh-ed25519 AAAA" ++ newline) newline "" ++ " "
             ++ "laptop")))
      (actions.post (P := reference.primitives) (A := scenes.agent [])
         (cfg reference.signedIn) (reference.item "key-laptop" 2 0) reference.emptyVault).
Proof.
  destruct (ssh_key_handlers_store_what_was_posted (P := reference.primitives)
              (A := scenes.agent []) (actions.CreateSSHKeyRequest "laptop")
              (cfg reference.signedIn) reference.emptyVault
              (actions.ActionResponse true "")) as (Add & _).
  - reflexivity.
  - apply (Add "laptop" ("ssh-ed25519 AAAA" ++ newline) (reference.item "key-laptop" 2 0));
      reflexivity.
Defined.

End further_on_concrete_inputs.
